(** * Hi-Ben: the note-taking workflow, its status narration and the worker loop

    A shallow embedding of
    - [src/agents/note_taker_agent.py]   (NoteTakerAgent: the LangGraph workflow,
      its transition functions, the routers and the status helper),
    - [src/platforms/telegram/state_manager.py] (TelegramStateManager: the
      status updater the message router hands to the agent),
    - [src/platforms/telegram/utils/status_updater.py] (TelegramStatusUpdater:
      the updater the bot passes to the agent's constructor),
    - [src/platforms/telegram/telegram_bot.py] (the message queue and its
      worker),
    - [src/platforms/telegram/message_router.py] (MessageRouter: from an
      update to the run of the agent and the reply),
    - [src/utils/config_manager.py] (ConfigManager: the per-user
      configuration),
    - [src/services/dida365/dida_service.py] (DidaService: the client of a
      user).

    External collaborators (the language model, Notion, Dida365, the Telegram
    transport, [datetime]) are fields of an environment record: every theorem
    quantifies over all of their behaviours. *)

From Stdlib Require Import ZArith QArith Qround String Ascii List Bool Lia DecimalString Sorted.
From stdpp Require Import base option gmap strings list.
Import ListNotations.

#[local] Open Scope string_scope.
#[local] Open Scope list_scope.
#[local] Open Scope Z_scope.

(* ===================================================================== *)
(** ** Python strings *)
(* ===================================================================== *)

(** Python [str] values are sequences of code points; here a string is its
    UTF-8 encoding.  Concatenation, search, [split] and [replace] agree on
    both views because UTF-8 is self-synchronising; [len] and slicing count
    code points, i.e. the bytes that are not continuation bytes. *)
Module PyStr.

Definition cat (a b : string) : string := String.append a b.

Fixpoint join (sep : string) (l : list string) : string :=
  match l with
  | [] => ""
  | [x] => x
  | x :: rest => cat x (cat sep (join sep rest))
  end.

(** [s.startswith(p)] *)
Fixpoint startswith (p s : string) : bool :=
  match p, s with
  | EmptyString, _ => true
  | String a p', String b s' => Ascii.eqb a b && startswith p' s'
  | String _ _, EmptyString => false
  end.

(** [s[n:]] on bytes *)
Fixpoint drop (n : nat) (s : string) : string :=
  match n, s with
  | O, _ => s
  | S n', String _ s' => drop n' s'
  | S _, EmptyString => EmptyString
  end.

(** [sub in s] *)
Fixpoint contains (sub s : string) : bool :=
  startswith sub s ||
  match s with
  | EmptyString => false
  | String _ s' => contains sub s'
  end.

(** The scan shared by [split] and [replace]: [skip] bytes of the match
    found last are still to be passed over, [cur] is the segment read so
    far, in reverse. *)
Fixpoint split_go (sep : string) (skip : nat) (cur : list ascii) (s : string)
  : list string :=
  match s with
  | EmptyString => [string_of_list_ascii (rev cur)]
  | String c s' =>
      match skip with
      | S k => split_go sep k cur s'
      | O =>
          if startswith sep s
          then string_of_list_ascii (rev cur)
                 :: split_go sep (Nat.pred (String.length sep)) [] s'
          else split_go sep O (c :: cur) s'
      end
  end.

(** [s.split(sep)] for a non-empty separator *)
Definition split (sep s : string) : list string := split_go sep O [] s.

(** [s.replace(old, new)] for a non-empty [old] *)
Definition replace (old new s : string) : string := join new (split old s).

(** [l[-1]] of a list of strings that is known to be non-empty *)
Definition last_of (l : list string) : string := List.last l "".

Definition is_continuation (c : ascii) : bool :=
  let n := nat_of_ascii c in (Nat.leb 128 n && Nat.ltb n 192)%nat.

(** [len(s)] *)
Fixpoint len (s : string) : nat :=
  match s with
  | EmptyString => O
  | String c s' => if is_continuation c then len s' else S (len s')
  end.

(** [s[:n]]: the first [n] code points *)
Fixpoint take (n : nat) (s : string) : string :=
  match s with
  | EmptyString => EmptyString
  | String c s' =>
      if is_continuation c then String c (take n s')
      else match n with
           | O => EmptyString
           | S n' => String c (take n' s')
           end
  end.

(** The characters [str.strip()] removes that occur in ASCII. *)
Definition is_space (c : ascii) : bool :=
  let n := nat_of_ascii c in
  (Nat.eqb n 32 || (Nat.leb 9 n && Nat.leb n 13) || (Nat.leb 28 n && Nat.leb n 31))%nat.

Fixpoint lstrip (s : string) : string :=
  match s with
  | String c s' => if is_space c then lstrip s' else s
  | EmptyString => EmptyString
  end.

Definition rev_string (s : string) : string :=
  string_of_list_ascii (rev (list_ascii_of_string s)).

Definition strip (s : string) : string :=
  rev_string (lstrip (rev_string (lstrip s))).

(** [s * n] *)
Fixpoint times (s : string) (n : nat) : string :=
  match n with
  | O => ""
  | S n' => cat s (times s n')
  end.

(** [str(n)] for an [int] *)
Definition of_Z (z : Z) : string := NilZero.string_of_int (Z.to_int z).

(** [f"{n:3d}"] *)
Definition of_Z_width3 (z : Z) : string :=
  let s := of_Z z in cat (times " " (3 - String.length s)) s.

(** [str(x)] of an optional string: [None] prints as the word. *)
Definition of_opt (o : option string) : string :=
  match o with Some s => s | None => "None" end.

(** Truthiness of an optional string: [None] and [""] are false. *)
Definition truthy (o : option string) : bool :=
  match o with
  | Some EmptyString | None => false
  | Some _ => true
  end.

End PyStr.

Infix "+++" := PyStr.cat (at level 60, right associativity).

(* ===================================================================== *)
(** ** Data model *)
(* ===================================================================== *)

(** [core/status.py: MessageStatus] *)
Inductive MessageStatus := RECEIVED | PROCESSING | COMPLETED | FAILED.

(** [note_taker_agent.py: ProcessStep], an [Enum] numbered by [auto()]. *)
Module ProcessStep.
Inductive t :=
  | INITIALIZED | PREPROCESSING | CONTENT_ANALYSIS | URL_PROCESSING
  | TASK_EXTRACTION | SAVING_TO_NOTION | CREATING_TASKS | COMPLETED | ERROR.

Definition value (s : t) : Z :=
    match s with
    | INITIALIZED => 1 | PREPROCESSING => 2 | CONTENT_ANALYSIS => 3
    | URL_PROCESSING => 4 | TASK_EXTRACTION => 5 | SAVING_TO_NOTION => 6
    | CREATING_TASKS => 7 | COMPLETED => 8 | ERROR => 9
    end.
End ProcessStep.

(** The node names of the workflow graph, with LangGraph's [START] and [END]. *)
Module Node.
Inductive t :=
  | START | precheck | url_summary | format_content | save_notion
  | extract_tasks | create_tasks | END.
End Node.

(** [core/models/message.py]: the fields of [Message] the workflow reads. *)
Record MessageMetadata := {
  message_id : string;
  platform : string;
  chat_id : string;
  user_id : string
}.

Record Message := {
  data_text : option string;      (* message.content.data.get("text") *)
  metadata : MessageMetadata;
  files : list string
}.

(** The dictionary returned by [LLMService.url_text_analyzer]; a key that is
    missing is [None], which is what the [.get(key, default)] reads test. *)
Record PrecheckResult := {
  contains_url : option bool;
  contains_text : option bool;
  urls : option (list string)
}.

(** The dictionary returned by [LLMService.format_content]. *)
Record FormatResult := {
  fr_content_type : option string;
  fr_title : option string;
  fr_summary : option string;
  fr_content : option string;
  fr_tags : option (list string);
  fr_has_tasks : option bool
}.

(** [not d] for that dictionary: true when it has no key at all. *)
Definition fr_is_empty (d : FormatResult) : bool :=
  match fr_content_type d, fr_title d, fr_summary d, fr_content d, fr_tags d, fr_has_tasks d with
  | None, None, None, None, None, None => true
  | _, _, _, _, _, _ => false
  end.

(** One extracted task, a dictionary of the language model's JSON. *)
Record Task := {
  t_projectId : option string;
  t_title : option string;
  t_content : option string;
  t_dueDate : option string;
  t_priority : option Z;
  t_isAllDay : option bool;
  t_reminders : option (list string);
  t_desc : option string
}.

(** A parsed [datetime]; only passed on and formatted. *)
Record datetime := {
  dt_year : Z; dt_month : Z; dt_day : Z; dt_hour : Z; dt_minute : Z;
  dt_second : Z; dt_utcoffset : option Z
}.

(** [AgentState], the dictionary threaded through the graph.  Keys the
    initial state does not set are optional. *)
Record AgentState := {
  message : Message;
  text_content : string;
  media_files : list string;
  background : string;
  results : list (string * string);
  errors : list string;
  status_message_id : option string;
  format_content_result : option FormatResult;
  precheck_result : option PrecheckResult;
  tasks : option (list Task);
  next : Node.t;
  save_success : option bool;
  error_message : option string;
  notion_page : option string;
  thread_id : string
}.

(** [{**state, key: value}] for the keys the transition functions write. *)
Definition with_precheck_result (v : PrecheckResult) (s : AgentState) : AgentState :=
  {| message := message s; text_content := text_content s; media_files := media_files s;
     background := background s; results := results s; errors := errors s;
     status_message_id := status_message_id s;
     format_content_result := format_content_result s;
     precheck_result := Some v; tasks := tasks s; next := next s;
     save_success := save_success s; error_message := error_message s;
     notion_page := notion_page s; thread_id := thread_id s |}.

Definition with_format_content_result (v : FormatResult) (s : AgentState) : AgentState :=
  {| message := message s; text_content := text_content s; media_files := media_files s;
     background := background s; results := results s; errors := errors s;
     status_message_id := status_message_id s;
     format_content_result := Some v;
     precheck_result := precheck_result s; tasks := tasks s; next := next s;
     save_success := save_success s; error_message := error_message s;
     notion_page := notion_page s; thread_id := thread_id s |}.

Definition with_tasks (v : list Task) (s : AgentState) : AgentState :=
  {| message := message s; text_content := text_content s; media_files := media_files s;
     background := background s; results := results s; errors := errors s;
     status_message_id := status_message_id s;
     format_content_result := format_content_result s;
     precheck_result := precheck_result s; tasks := Some v; next := next s;
     save_success := save_success s; error_message := error_message s;
     notion_page := notion_page s; thread_id := thread_id s |}.

Definition with_next (v : Node.t) (s : AgentState) : AgentState :=
  {| message := message s; text_content := text_content s; media_files := media_files s;
     background := background s; results := results s; errors := errors s;
     status_message_id := status_message_id s;
     format_content_result := format_content_result s;
     precheck_result := precheck_result s; tasks := tasks s; next := v;
     save_success := save_success s; error_message := error_message s;
     notion_page := notion_page s; thread_id := thread_id s |}.

Definition with_save_success (v : bool) (s : AgentState) : AgentState :=
  {| message := message s; text_content := text_content s; media_files := media_files s;
     background := background s; results := results s; errors := errors s;
     status_message_id := status_message_id s;
     format_content_result := format_content_result s;
     precheck_result := precheck_result s; tasks := tasks s; next := next s;
     save_success := Some v; error_message := error_message s;
     notion_page := notion_page s; thread_id := thread_id s |}.

Definition with_error_message (v : string) (s : AgentState) : AgentState :=
  {| message := message s; text_content := text_content s; media_files := media_files s;
     background := background s; results := results s; errors := errors s;
     status_message_id := status_message_id s;
     format_content_result := format_content_result s;
     precheck_result := precheck_result s; tasks := tasks s; next := next s;
     save_success := save_success s; error_message := Some v;
     notion_page := notion_page s; thread_id := thread_id s |}.

Definition with_notion_page (v : string) (s : AgentState) : AgentState :=
  {| message := message s; text_content := text_content s; media_files := media_files s;
     background := background s; results := results s; errors := errors s;
     status_message_id := status_message_id s;
     format_content_result := format_content_result s;
     precheck_result := precheck_result s; tasks := tasks s; next := next s;
     save_success := save_success s; error_message := error_message s;
     notion_page := Some v; thread_id := thread_id s |}.

(* ===================================================================== *)
(** ** Effects: exceptions, the transport, the trace *)
(* ===================================================================== *)

(** The outcome of a Python call: a value, or an [Exception] whose [str()]
    is [msg]. *)
Inductive result (A : Type) :=
| Ret (a : A)
| Raise (msg : string).
Arguments Ret {A} a.
Arguments Raise {A} msg.

(** A message as the Telegram transport knows it. *)
Record tg_message := { tg_chat_id : string; tg_message_id : Z }.

(** What reaches the transport. *)
Inductive transport_op :=
| SendMessage (chat text : string) (reply_to : option string)
| EditText (target : tg_message) (text : string).

Definition op_text (o : transport_op) : string :=
  match o with
  | SendMessage _ text _ => text
  | EditText _ text => text
  end.

(** The mutable part of [TelegramStateManager] the status methods use. *)
Record updater_state := {
  bot : bool;                                    (* self.bot is not None *)
  _status_messages : gmap string tg_message      (* {message_id: message} *)
}.

(** Updater methods run on that state and report their transport calls. *)
Definition U (A : Type) : Type :=
  updater_state -> result A * updater_state * list transport_op.

(** The object a successful [create_status_message] returns; the agent reads
    its [message_id] through [str()]. *)
Record status_handle := { handle_message_id : string }.

(** The three methods [NoteTakerAgent._update_status] calls on
    [self.telegram_status_updater], with the keywords it calls them with:
    [format_status_text(progress=, step=, description=, emoji=)],
    [update_status_message(message_id=, text=)] and
    [create_status_message(chat_id=, text=, reply_to_message_id=)]. *)
Record Updater := {
  format_status_text : option Q -> Z -> string -> string -> result string;
  update_status_message : string -> string -> U bool;
  create_status_message : string -> string -> string -> U (option status_handle)
}.

(** The arguments of one call of [_update_status]. *)
Record status_call := {
  sc_status : MessageStatus;
  sc_step : ProcessStep.t;
  sc_progress : option Q;
  sc_description : string;
  sc_status_message_id : option string;
  sc_emoji : string;
  sc_show_progress : bool
}.

Record add_note_args := {
  an_user_id : string; an_raw_content : string; an_content : string;
  an_content_type : string; an_files : list string; an_source : string;
  an_tags : list string; an_title : option string; an_summary : option string
}.

Record add_task_args := {
  at_user_id : string; at_title : option string; at_content : option string;
  at_project_id : option string; at_desc : string; at_due_date : option datetime;
  at_priority : Z; at_is_all_day : bool; at_reminders : list string
}.

(** The observable history of a run, oldest first: every call of the status
    helper with what it did on the transport, every node the graph enters,
    and every capability call. *)
Inductive event :=
| EvStatus (c : status_call) (ops : list transport_op)
| EvNode (n : Node.t)
| EvAnalyze (text : string)
| EvFormat (content background : string)
| EvAddNote (args : add_note_args)
| EvExtract (content profile projects : string)
| EvAddTask (args : add_task_args).

Record world := { ust : updater_state; trace : list event }.

(** The state-and-exception monad of the agent's coroutines. *)
Definition M (A : Type) : Type := world -> result A * world.

Definition ret {A} (a : A) : M A := fun w => (Ret a, w).
Definition raise {A} (msg : string) : M A := fun w => (Raise msg, w).
Definition bind {A B} (m : M A) (k : A -> M B) : M B :=
  fun w => match m w with
           | (Ret a, w') => k a w'
           | (Raise e, w') => (Raise e, w')
           end.

Notation "x <- m ;; k" := (bind m (fun x => k))
  (at level 63, m at next level, right associativity, only parsing).

(** [try: body except Exception as e: handler(str(e))] *)
Definition try_except {A} (body : M A) (handler : string -> M A) : M A :=
  fun w => match body w with
           | (Ret a, w') => (Ret a, w')
           | (Raise e, w') => handler e w'
           end.

Definition emit (e : event) : M unit :=
  fun w => (Ret tt, {| ust := ust w; trace := trace w ++ [e] |}).

(** A capability call: noted in the trace, then answered by the collaborator. *)
Definition call {A} (e : event) (answer : result A) : M A :=
  fun w => (answer, {| ust := ust w; trace := trace w ++ [e] |}).

Definition when (b : bool) (m : M unit) : M unit := if b then m else ret tt.

(** The outcome of a pure call, taken into the monad. *)
Definition lift {A} (r : result A) : M A := fun w => (r, w).

(* ===================================================================== *)
(** ** The collaborators *)
(* ===================================================================== *)

(** What [json.loads(self.user_background)] and the reads that follow it in
    [_extract_tasks] come to: the profile and [str] of the project names, a
    [json.JSONDecodeError], or any other exception. *)
Inductive bg_parse :=
| BgParsed (profile project_names : string)
| BgDecodeError
| BgError (msg : string).

Record Env := {
  (* NoteTakerAgent._get_user_background: reads the configuration, never raises *)
  get_user_background : string -> string;
  (* ConfigManager.get_service("dida365", user_id) is not None *)
  dida_service : string -> bool;
  (* ConfigManager.get_user_value(user_id, "dida.projects", default=[]): name, id *)
  dida_projects : string -> list (string * string);
  (* LLMService *)
  url_text_analyzer : string -> result PrecheckResult;
  format_content : string -> string -> result FormatResult;
  extract_tasks : string -> string -> string -> result (list Task);
  json_loads_background : string -> bg_parse;
  (* DailyNotes.add_note: the created page, if any *)
  add_note : add_note_args -> result (option string);
  (* DidaService.add_task: the created task, if any *)
  add_task : add_task_args -> result (option string);
  (* datetime.fromisoformat and datetime.strftime *)
  fromisoformat : string -> result datetime;
  strftime : datetime -> string -> string;
  (* telegram: Bot.send_message and Message.edit_text *)
  send_message : string -> string -> option string -> result tg_message;
  edit_text : tg_message -> string -> result unit;
  (* langgraph: a router's answer that the path map of its conditional edge
     does not list is either followed as it is or refused with an exception *)
  unlisted : Node.t -> result unit
}.

(** [int(x)] of a [float]: truncation towards zero.  Progress values are
    the decimal literals of the source, read as exact rationals. *)
Definition py_int (q : Q) : Z := Z.quot (Qnum q) (Zpos (Qden q)).

Definition progress_bar (bar_length : Z) (progress : Q) : string :=
  let filled_length := py_int (progress * inject_Z bar_length) in
  PyStr.times "█" (Z.to_nat filled_length)
  +++ PyStr.times "░" (Z.to_nat (bar_length - filled_length)).

(** [platforms/telegram/state_manager.py] *)
Module TelegramStateManager.

Definition format_status_text (progress : option Q) (step : Z)
    (description emoji : string) : result string :=
  let description :=
    if PyStr.truthy (Some emoji) then emoji +++ " " +++ description else description in
  let description :=
    match progress with
    | Some p =>
        description +++ "
" +++ progress_bar 10 p +++ " " +++ PyStr.of_Z (py_int (p * 100)) +++ "%"
    | None => description
    end in
  Ret description.

Definition create_status_message (env : Env) (chat_id text reply_to_message_id : string)
  : U (option status_handle) :=
  fun st =>
    if bot st then
      match send_message env chat_id text (Some reply_to_message_id) with
      | Ret m =>
          (Ret (Some {| handle_message_id := PyStr.of_Z (tg_message_id m) |}),
           {| bot := bot st;
              _status_messages := <[PyStr.of_Z (tg_message_id m) := m]> (_status_messages st) |},
           [SendMessage chat_id text (Some reply_to_message_id)])
      | Raise e => (Raise e, st, [SendMessage chat_id text (Some reply_to_message_id)])
      end
    else (Raise "'NoneType' object has no attribute 'send_message'", st, []).

Definition update_status_message (env : Env) (message_id text : string) : U bool :=
  fun st =>
    if bot st then
      match _status_messages st !! message_id with
      | None => (Ret false, st, [])
      | Some m =>
          match edit_text env m text with
          | Ret _ => (Ret true, st, [EditText m text])
          | Raise _ => (Ret false, st, [EditText m text])
          end
      end
    else (Ret false, st, []).

Definition updater (env : Env) : Updater :=
  Build_Updater format_status_text (update_status_message env) (create_status_message env).

End TelegramStateManager.

(** [platforms/telegram/utils/status_updater.py] *)
Module TelegramStatusUpdater.

Definition emoji_marks : list string :=
  ["🔄"; "🎤"; "🔍"; "🤖"; "✨"; "💾"; "✅"; "❌"; "📋"; "📌"].

(** [progress] is a [float] here: [None * bar_length] is a [TypeError]. *)
Definition format_status_text (progress : option Q) (step : Z)
    (description emoji : string) : result string :=
  let has_emoji := existsb (fun char => PyStr.contains char description) emoji_marks in
  match progress with
  | None => Raise "unsupported operand type(s) for *: 'NoneType' and 'int'"
  | Some p =>
      let bar := progress_bar 20 p in
      let percent := PyStr.of_Z_width3 (py_int (p * 100)) +++ "%" in
      let desc := if has_emoji then description else emoji +++ " " +++ description in
      Ret (desc +++ "
" +++ bar +++ " " +++ percent)
  end.

(** The method is [update_status_message(self, message, text)]; called
    with the keyword [message_id] it raises before its body runs. *)
Definition update_status_message (message_id text : string) : U bool :=
  fun st =>
    (Raise "update_status_message() got an unexpected keyword argument 'message_id'",
     st, []).

(** [int(reply_to_message_id)] of the decimal ids the router produces. *)
Definition reply_id (reply_to_message_id : string) : result (option string) :=
  if PyStr.truthy (Some reply_to_message_id) then
    match NilZero.int_of_string reply_to_message_id with
    | Some i => Ret (Some (PyStr.of_Z (Z.of_int i)))
    | None => Raise "invalid literal for int() with base 10"
    end
  else Ret None.

Definition create_status_message (env : Env) (chat_id text reply_to_message_id : string)
  : U (option status_handle) :=
  fun st =>
    match reply_id reply_to_message_id with
    | Raise _ => (Ret None, st, [])
    | Ret reply =>
        match send_message env chat_id text reply with
        | Ret m =>
            (Ret (Some {| handle_message_id := PyStr.of_Z (tg_message_id m) |}), st,
             [SendMessage chat_id text reply])
        | Raise _ => (Ret None, st, [SendMessage chat_id text reply])
        end
    end.

Definition updater (env : Env) : Updater :=
  Build_Updater format_status_text update_status_message (create_status_message env).

End TelegramStatusUpdater.

(* ===================================================================== *)
(** ** NoteTakerAgent: the status helper *)
(* ===================================================================== *)

(** The attributes of the agent a run reads and [process] sets. *)
Record Agent := {
  telegram_status_updater : option Updater;
  user_background : string
}.

(** Run an updater method and note the helper call with its transport calls. *)
Definition on_updater {A} (c : status_call) (m : U A) : M A :=
  fun w =>
    let '(r, st, ops) := m (ust w) in
    (r, {| ust := st; trace := trace w ++ [EvStatus c ops] |}).

(** [NoteTakerAgent._update_status] *)
Definition _update_status (self : Agent) (message : Message) (c : status_call)
  : M (option status_handle) :=
  try_except
    (match telegram_status_updater self with
     | None => _ <- emit (EvStatus c []) ;; ret None
     | Some updater =>
         match format_status_text updater
                 (if sc_show_progress c then sc_progress c else None)
                 (ProcessStep.value (sc_step c)) (sc_description c) (sc_emoji c) with
         | Raise e => _ <- emit (EvStatus c []) ;; raise e
         | Ret status_text =>
             match sc_status_message_id c with
             | Some (String a rest) =>
                 _ <- on_updater c (update_status_message updater (String a rest) status_text) ;;
                 ret None
             | _ =>
                 on_updater c
                   (create_status_message updater (chat_id (metadata message)) status_text
                      (message_id (metadata message)))
             end
         end
     end)
    (fun _ => ret None).

(** The guard [self.telegram_status_updater and status_message_id] *)
Definition has_channel (self : Agent) (status_message_id : option string) : bool :=
  match telegram_status_updater self with
  | Some _ => PyStr.truthy status_message_id
  | None => false
  end.

(** A call with the defaults of the signature: [emoji=""], [show_progress=True]. *)
Definition status (st : MessageStatus) (step : ProcessStep.t) (progress : option Q)
    (description : string) (status_message_id : option string) : status_call :=
  {| sc_status := st; sc_step := step; sc_progress := progress;
     sc_description := description; sc_status_message_id := status_message_id;
     sc_emoji := ""; sc_show_progress := true |}.

Definition with_emoji (emoji : string) (c : status_call) : status_call :=
  {| sc_status := sc_status c; sc_step := sc_step c; sc_progress := sc_progress c;
     sc_description := sc_description c; sc_status_message_id := sc_status_message_id c;
     sc_emoji := emoji; sc_show_progress := sc_show_progress c |}.

Definition without_progress (c : status_call) : status_call :=
  {| sc_status := sc_status c; sc_step := sc_step c; sc_progress := sc_progress c;
     sc_description := sc_description c; sc_status_message_id := sc_status_message_id c;
     sc_emoji := sc_emoji c; sc_show_progress := false |}.

(** [if self.telegram_status_updater and status_message_id: await self._update_status(...)] *)
Definition narrate (self : Agent) (message : Message) (c : status_call) : M unit :=
  if has_channel self (sc_status_message_id c)
  then (_ <- _update_status self message c ;; ret tt)
  else ret tt.

(* ===================================================================== *)
(** ** NoteTakerAgent: routers and transition functions *)
(* ===================================================================== *)

(** [d.get(key, False)] of a boolean entry *)
Definition get_flag (o : option bool) : bool := default false o.

(** [state.get("precheck_result", {}).get(key, False)] *)
Definition precheck_flag (key : PrecheckResult -> option bool) (state : AgentState) : bool :=
  match precheck_result state with
  | Some r => get_flag (key r)
  | None => false
  end.

(** [NoteTakerAgent._route_after_extract] (defined, not wired into the graph) *)
Definition _route_after_extract (state : AgentState) : Node.t := Node.create_tasks.

(** [NoteTakerAgent._route_after_url_check] *)
Definition _route_after_url_check (state : AgentState) : Node.t :=
  let has_url := precheck_flag contains_url state in
  if has_url then Node.url_summary else Node.format_content.

(** [NoteTakerAgent._route_after_save] *)
Definition _route_after_save (state : AgentState) : Node.t :=
  let has_text := precheck_flag contains_text state in
  let save_success := get_flag (save_success state) in
  if has_text && save_success then Node.extract_tasks else Node.END.

(** [NoteTakerAgent._get_precheck_status_text] *)
Definition _get_precheck_status_text (precheck_result : PrecheckResult) : string :=
  let has_url := get_flag (contains_url precheck_result) in
  let has_content := get_flag (contains_text precheck_result) in
  if has_url && has_content then "检测到URL和文本内容"
  else if has_url then "检测到URL链接"
  else if has_content then "检测到文本内容"
  else "未检测到有效内容".

(** [if ": " in error_msg: error_msg = error_msg.split(": ")[-1]] *)
Definition innermost (error_msg : string) : string :=
  if PyStr.contains ": " error_msg
  then PyStr.last_of (PyStr.split ": " error_msg)
  else error_msg.

(** The [try] block of [_content_precheck] *)
Definition _content_precheck_try (env : Env) (self : Agent) (state : AgentState)
  : M AgentState :=
  let message := message state in
  let status_message_id := status_message_id state in
  let text_content := text_content state in
  _ <- narrate self message
         (with_emoji "🔍"
            (status PROCESSING ProcessStep.PREPROCESSING (Some 0.2%Q)
               "正在预检内容..." status_message_id)) ;;
  precheck_result <- call (EvAnalyze text_content) (url_text_analyzer env text_content) ;;
  let status_text := _get_precheck_status_text precheck_result in
  _ <- narrate self message
         (with_emoji "✨"
            (status PROCESSING ProcessStep.PREPROCESSING (Some 0.3%Q)
               status_text status_message_id)) ;;
  ret (with_precheck_result precheck_result state).

(** [NoteTakerAgent._content_precheck]: the handler logs the failure and
    raises it again ([raise]). *)
Definition _content_precheck (env : Env) (self : Agent) (state : AgentState) : M AgentState :=
  try_except (_content_precheck_try env self state) (fun e => raise e).

(** [NoteTakerAgent._url_summary]: its body is [pass]; the state is unchanged. *)
Definition _url_summary (state : AgentState) : M AgentState := ret state.

(** The [try] block of [_format_content] *)
Definition _format_content_try (env : Env) (self : Agent) (state : AgentState)
  : M AgentState :=
  let text_content := text_content state in
  result <- call (EvFormat text_content (user_background self))
              (format_content env text_content (user_background self)) ;;
  ret (with_next Node.save_notion (with_format_content_result result state)).

(** Its [except Exception as e] block *)
Definition _format_content_except (state : AgentState) (e : string) : M AgentState :=
  ret (with_next Node.END (with_error_message e state)).

(** [NoteTakerAgent._format_content] *)
Definition _format_content (env : Env) (self : Agent) (state : AgentState) : M AgentState :=
  try_except (_format_content_try env self state) (_format_content_except state).

(** [NoteTakerAgent._format_content_text] *)
Definition _format_content_text (text_content : string) (llm_result : FormatResult) : string :=
  let summary := default "" (fr_summary llm_result) in
  let formatted_content := default text_content (fr_content llm_result) in
  let tags := default [] (fr_tags llm_result) in
  let sections :=
    [ "📝 原始内容："; text_content; "";
      "✨ 格式化内容："; formatted_content; "";
      "📋 内容总结："; summary; "";
      "🏷️ 标签：";
      match tags with [] => "无标签" | _ => PyStr.join "、" tags end ] in
  PyStr.join "
" sections.

(** The [try] block of [_save_to_notion] *)
Definition _save_to_notion_try (env : Env) (self : Agent) (state : AgentState)
  : M AgentState :=
  let message := message state in
  let status_message_id := status_message_id state in
  let text_content := text_content state in
  let format_content_result := format_content_result state in
  _ <- narrate self message
         (status PROCESSING ProcessStep.SAVING_TO_NOTION (Some 0.7%Q)
            "💾 正在保存到 Notion..." status_message_id) ;;
  match format_content_result with
  | None => raise "格式化结果为空"
  | Some format_content_result =>
      if fr_is_empty format_content_result then raise "格式化结果为空"
      else
        let full_content := _format_content_text text_content format_content_result in
        let args :=
          {| an_user_id := user_id (metadata message);
             an_raw_content := text_content;
             an_content := full_content;
             an_content_type := default "未分类" (fr_content_type format_content_result);
             an_files := media_files state;
             an_source := platform (metadata message);
             an_tags := default [] (fr_tags format_content_result);
             an_title := fr_title format_content_result;
             an_summary := fr_summary format_content_result |} in
        entry <- call (EvAddNote args) (add_note env args) ;;
        match entry with
        | None => raise "保存到 Notion 失败"
        | Some entry =>
            _ <- narrate self message
                   (with_emoji "✅"
                      (status PROCESSING ProcessStep.SAVING_TO_NOTION (Some 0.8%Q)
                         "已保存到 Notion" status_message_id)) ;;
            ret (with_next Node.extract_tasks
                   (with_notion_page entry (with_save_success true state)))
        end
  end.

(** Its [except Exception as e] block *)
Definition _save_to_notion_except (self : Agent) (state : AgentState) (e : string)
  : M AgentState :=
  let error_msg := innermost e in
  _ <- narrate self (message state)
         (without_progress
            (status FAILED ProcessStep.SAVING_TO_NOTION (Some 0.0%Q)
               ("❌ " +++ error_msg) (status_message_id state))) ;;
  ret (with_next Node.END
         (with_save_success false (with_error_message error_msg state))).

(** [NoteTakerAgent._save_to_notion] *)
Definition _save_to_notion (env : Env) (self : Agent) (state : AgentState) : M AgentState :=
  try_except (_save_to_notion_try env self state) (_save_to_notion_except self state).

(** The [try] block of [_extract_tasks] *)
Definition _extract_tasks_try (env : Env) (self : Agent) (state : AgentState)
  : M AgentState :=
  let message := message state in
  let status_message_id := status_message_id state in
  _ <- narrate self message
         (with_emoji "📌"
            (status PROCESSING ProcessStep.TASK_EXTRACTION (Some 0.95%Q)
               "正在提取任务..." status_message_id)) ;;
  let content := text_content state in
  match json_loads_background env (user_background self) with
  | BgError e => raise e
  | parsed =>
      let profile :=
        match parsed with BgParsed profile _ => profile | _ => "" end in
      let project_names :=
        match parsed with BgParsed _ names => names | _ => "[]" end in
      tasks <- call (EvExtract content profile project_names)
                 (extract_tasks env content profile project_names) ;;
      ret (with_next Node.create_tasks (with_tasks tasks state))
  end.

(** Its [except Exception as e] block *)
Definition _extract_tasks_except (self : Agent) (state : AgentState) (e : string)
  : M AgentState :=
  _ <- narrate self (message state)
         (without_progress
            (status FAILED ProcessStep.ERROR (Some 0.0%Q)
               ("❌ 提取任务失败: " +++ e) (status_message_id state))) ;;
  ret (with_next Node.END (with_error_message ("提取任务失败: " +++ e) state)).

(** [NoteTakerAgent._extract_tasks] *)
Definition _extract_tasks (env : Env) (self : Agent) (state : AgentState) : M AgentState :=
  try_except (_extract_tasks_try env self state) (_extract_tasks_except self state).

(* ===================================================================== *)
(** ** NoteTakerAgent._create_tasks *)
(* ===================================================================== *)

(** [{p["name"]: p["id"] for p in projects_config}]: a later entry wins. *)
Definition project_map_of (projects_config : list (string * string)) : gmap string string :=
  foldl (fun m p => <[p.1 := p.2]> m) ∅ projects_config.

(** [priority_map.get(priority, '普通')] with [{1: "低", 3: "中", 5: "高"}] *)
Definition priority_text (priority : Z) : string :=
  if priority =? 1 then "低"
  else if priority =? 3 then "中"
  else if priority =? 5 then "高"
  else "普通".

(** [datetime.fromisoformat(s.replace('Z', '+00:00')) if s else None] *)
Definition parse_due (env : Env) (dueDate : option string) : result (option datetime) :=
  if PyStr.truthy dueDate then
    match fromisoformat env (PyStr.replace "Z" "+00:00" (default "" dueDate)) with
    | Ret d => Ret (Some d)
    | Raise e => Raise e
    end
  else Ret None.

(** [project_map.get(task.get('projectId'))] *)
Definition resolve_project (project_map : gmap string string) (task : Task) : option string :=
  t_projectId task ≫= (fun name => project_map !! name).

(** The keyword arguments of [dida_service.add_task] for [task]. *)
Definition task_args (user_id : string) (project_map : gmap string string) (task : Task)
    (due_date : option datetime) : add_task_args :=
  {| at_user_id := user_id;
     at_title := t_title task;
     at_content := t_content task;
     at_project_id := resolve_project project_map task;
     at_desc := default "" (t_desc task);
     at_due_date := due_date;
     at_priority := default 0 (t_priority task);
     at_is_all_day := get_flag (t_isAllDay task);
     at_reminders := default [] (t_reminders task) |}.

(** The text appended to [results] for a created task. *)
Definition created_line (env : Env) (task : Task) (due_date : option datetime) : string :=
  let project_name := t_projectId task in
  let priority := default 0 (t_priority task) in
  let task_desc := "✅ 已创建任务: " +++ PyStr.of_opt (t_title task) in
  let task_desc :=
    if PyStr.truthy project_name
    then task_desc +++ "
📁 项目: " +++ PyStr.of_opt project_name
    else task_desc in
  let task_desc :=
    match due_date with
    | Some d => task_desc +++ "
⏰ 截止时间: " +++ strftime env d "%Y-%m-%d %H:%M"
    | None => task_desc
    end in
  if 0 <? priority
  then task_desc +++ "
🔥 优先级: " +++ priority_text priority
  else task_desc.

(** The warning for a project name that is not in the user's list. *)
Definition project_warning (task : Task) : string :=
  "⚠️ 找不到项目: " +++ PyStr.of_opt (t_projectId task).

(** The failure line of the per-task [except]. *)
Definition failure_line (task : Task) (e : string) : string :=
  "❌ 创建任务 '" +++ PyStr.of_opt (t_title task) +++ "' 失败: " +++ e.

(** [if not project_id and project_name] *)
Definition project_missing (project_map : gmap string string) (task : Task) : bool :=
  negb (PyStr.truthy (resolve_project project_map task)) && PyStr.truthy (t_projectId task).

(** One pass of the body of [for task in tasks]: the lines it appends to
    [results].  Every statement that can raise comes after
    [title = task.get('title')], so the handler finds [title] bound. *)
Definition create_task (env : Env) (user_id : string) (project_map : gmap string string)
    (task : Task) : M (list string) :=
  try_except
    (if project_missing project_map task then
       ret [project_warning task]   (* continue *)
     else
       due_date <- lift (parse_due env (t_dueDate task)) ;;
       let args := task_args user_id project_map task due_date in
       created_task <- call (EvAddTask args) (add_task env args) ;;
       match created_task with
       | Some _ => ret [created_line env task due_date]
       | None => ret []
       end)
    (fun e => ret [failure_line task e]).

(** [for task in tasks: ...], returning the list [results] *)
Fixpoint create_task_loop (env : Env) (user_id : string) (project_map : gmap string string)
    (tasks : list Task) : M (list string) :=
  match tasks with
  | [] => ret []
  | task :: rest =>
      lines <- create_task env user_id project_map task ;;
      more <- create_task_loop env user_id project_map rest ;;
      ret (lines ++ more)
  end.

(** *** The completion report *)

Definition empty_format_result : FormatResult :=
  {| fr_content_type := None; fr_title := None; fr_summary := None;
     fr_content := None; fr_tags := None; fr_has_tasks := None |}.

(** The loop that wraps a long tag list over several lines. *)
Fixpoint wrap_tags (n_tags : nat) (i : nat) (current_line : string)
    (tags_lines : list string) (hash_tags : list string) : list string :=
  match hash_tags with
  | [] => tags_lines ++ [PyStr.replace "├─" "└─" current_line]
  | tag :: rest =>
      if (30 <? PyStr.len (current_line +++ tag))%nat then
        let tags_lines :=
          if Z.of_nat i =? Z.of_nat n_tags - 1
          then tags_lines ++ [PyStr.replace "├─" "└─" current_line]
          else tags_lines ++ [current_line] in
        wrap_tags n_tags (S i) ("│  │  " +++ tag) tags_lines rest
      else
        wrap_tags n_tags (S i) (current_line +++ " " +++ tag) tags_lines rest
  end.

(** The note section: [if state.get("save_success"): ...] *)
Definition note_lines (state : AgentState) : list string :=
  if get_flag (save_success state) then
    let format_content_result := default empty_format_result (format_content_result state) in
    let content_type := default "未分类" (fr_content_type format_content_result) in
    let tags := default [] (fr_tags format_content_result) in
    let title := default "" (fr_title format_content_result) in
    ["├─ 📝 笔记信息"; "│  ├─ ✅ 已保存到 Notion"]
    ++ (if PyStr.truthy (Some title) then ["│  ├─ 📌 " +++ title] else [])
    ++ ["│  ├─ 📑 分类: #" +++ content_type]
    ++ match tags with
       | [] => ["│  └─ 🏷️ 无标签"]
       | _ =>
           let hash_tags := map (fun tag => "#" +++ tag) tags in
           let formatted_tags := PyStr.join " " hash_tags in
           if (30 <? PyStr.len formatted_tags)%nat
           then wrap_tags (length tags) 0 "│  ├─ 🏷️ 标签: " [] hash_tags
           else ["│  └─ 🏷️ 标签: " +++ formatted_tags]
       end
  else [].

(** [details[-1] = details[-1].replace("├─", "└─")] *)
Fixpoint close_last (details : list string) : list string :=
  match details with
  | [] => []
  | [d] => [PyStr.replace "├─" "└─" d]
  | d :: rest => d :: close_last rest
  end.

(** The lines of task number [i] of [n] (counted from 1). *)
Definition task_lines (env : Env) (n i : nat) (task : Task) : result (list string) :=
  let title := default "" (t_title task) in
  let project := default "" (t_projectId task) in
  let due_date := t_dueDate task in
  let priority := default 0 (t_priority task) in
  let content := default "" (t_content task) in
  let is_last_task := Nat.eqb i n in
  let prefix := if is_last_task then "└─" else "├─" in
  let detail_prefix := if is_last_task then "   " else "│  " in
  let head := "│  " +++ prefix +++ " " +++ PyStr.of_Z (Z.of_nat i) +++ ". " +++ title in
  let details1 :=
    if PyStr.truthy (Some project) then ["│  " +++ detail_prefix +++ "├─  " +++ project] else [] in
  match parse_due env due_date with
  | Raise e => Raise e
  | Ret date =>
      let details2 :=
        match date with
        | Some d =>
            ["│  " +++ detail_prefix +++ "├─ ⏰ " +++ strftime env d "%Y-%m-%d %H:%M"]
        | None => []
        end in
      let details3 :=
        if 0 <? priority
        then ["│  " +++ detail_prefix +++ "├─ 🔥 " +++ priority_text priority +++ "优先级"]
        else [] in
      let details := details1 ++ details2 ++ details3 in
      let details :=
        if PyStr.truthy (Some content) then
          let displayed_content :=
            if (40 <? PyStr.len content)%nat then PyStr.take 40 content +++ "..." else content in
          details ++ ["│  " +++ detail_prefix +++ "└─ 📝 " +++ displayed_content]
        else close_last details in
      Ret ([head] ++ details ++ (if is_last_task then [] else ["│"]))
  end.

(** [for i, task in enumerate(tasks, 1): ...] *)
Fixpoint tasks_lines (env : Env) (n i : nat) (tasks : list Task) : result (list string) :=
  match tasks with
  | [] => Ret []
  | task :: rest =>
      match task_lines env n i task with
      | Raise e => Raise e
      | Ret lines =>
          match tasks_lines env n (S i) rest with
          | Raise e => Raise e
          | Ret more => Ret (lines ++ more)
          end
      end
  end.

(** The text of the completion report; a due date that does not parse
    raises out of it. *)
Definition build_report (env : Env) (state : AgentState) (tasks : list Task) : result string :=
  let head := ["✨ 处理完成"; ""] ++ note_lines state in
  let tail := [""; "· · · · · ·"] in
  match tasks with
  | [] =>
      Ret (PyStr.strip (PyStr.join "
" (head ++ [""; "└─ 📋 未检测到任务"] ++ tail)))
  | _ =>
      match tasks_lines env (length tasks) 1 tasks with
      | Raise e => Raise e
      | Ret lines =>
          Ret (PyStr.strip (PyStr.join "
" (head ++ [""; "├─ 📋 任务信息 (" +++ PyStr.of_Z (Z.of_nat (length tasks)) +++ ")"]
                  ++ lines ++ tail)))
      end
  end.

(** The call that turns the status message into the report. *)
Definition report_call (description : string) (status_message_id : option string) : status_call :=
  without_progress
    (status COMPLETED ProcessStep.COMPLETED None description status_message_id).

(** The second half of [_create_tasks], reached whether or not there were
    tasks: the completion report is built and shown, and the run goes to
    [END]. *)
Definition finish_with_report (env : Env) (self : Agent) (state : AgentState) : M AgentState :=
  let message := message state in
  let status_message_id := status_message_id state in
  let tasks := default [] (tasks state) in
  _ <- (if has_channel self status_message_id then
          description <- lift (build_report env state tasks) ;;
          _ <- _update_status self message (report_call description status_message_id) ;;
          ret tt
        else ret tt) ;;
  ret (with_next Node.END state).

(** The [try] block of [_create_tasks] *)
Definition _create_tasks_try (env : Env) (self : Agent) (state : AgentState)
  : M AgentState :=
  let message := message state in
  let status_message_id := status_message_id state in
  let tasks := default [] (tasks state) in
  let user_id := user_id (metadata message) in
  match tasks with
  | [] => finish_with_report env self state
  | _ :: _ =>
      _ <- narrate self message
             (status PROCESSING ProcessStep.CREATING_TASKS (Some 0.98%Q)
                "正在创建任务..." status_message_id) ;;
      if dida_service env user_id then
        let projects_config := dida_projects env user_id in
        let project_map := project_map_of projects_config in
        results <- create_task_loop env user_id project_map tasks ;;
        finish_with_report env self state
      else
        ret (with_next Node.END (with_error_message "请先配置滴答清单服务" state))
  end.

(** Its [except Exception as e] block *)
Definition _create_tasks_except (self : Agent) (state : AgentState) (e : string)
  : M AgentState :=
  _ <- narrate self (message state)
         (without_progress
            (status FAILED ProcessStep.ERROR (Some 0.0%Q)
               ("❌ 创建任务失败: " +++ e) (status_message_id state))) ;;
  ret (with_next Node.END (with_error_message e state)).

(** [NoteTakerAgent._create_tasks] *)
Definition _create_tasks (env : Env) (self : Agent) (state : AgentState) : M AgentState :=
  try_except (_create_tasks_try env self state) (_create_tasks_except self state).

(* ===================================================================== *)
(** ** The workflow graph and [process] *)
(* ===================================================================== *)

(** The function each [workflow.add_node] registers. *)
Definition run_node (env : Env) (self : Agent) (n : Node.t) (state : AgentState)
  : M AgentState :=
  match n with
  | Node.precheck => _content_precheck env self state
  | Node.url_summary => _url_summary state
  | Node.format_content => _format_content env self state
  | Node.save_notion => _save_to_notion env self state
  | Node.extract_tasks => _extract_tasks env self state
  | Node.create_tasks => _create_tasks env self state
  | Node.START | Node.END => ret state
  end.

(** The path maps of the two [add_conditional_edges]. *)
Definition path_map_precheck (label : Node.t) : option Node.t :=
  match label with
  | Node.url_summary => Some Node.url_summary
  | Node.format_content => Some Node.format_content
  | _ => None
  end.

Definition path_map_save_notion (label : Node.t) : option Node.t :=
  match label with
  | Node.extract_tasks => Some Node.extract_tasks
  | Node.create_tasks => Some Node.create_tasks
  | _ => None
  end.

(** A conditional edge: the router's answer, sent through the path map.
    What becomes of an answer the path map does not list is decided inside
    the graph library: it is followed as it is ([END] ends the run), or the
    library raises. *)
Definition conditional (env : Env) (route : AgentState -> Node.t)
    (path_map : Node.t -> option Node.t) (state : AgentState) : result Node.t :=
  let label := route state in
  match path_map label with
  | Some target => Ret target
  | None =>
      match unlisted env label with
      | Ret _ => Ret label
      | Raise e => Raise e
      end
  end.

(** The edges of [NoteTakerAgent._create_workflow]: the node that follows
    [n], given the state [n] returned.  The [next] key of the state is not
    consulted by any edge. *)
Definition successor (env : Env) (n : Node.t) (state : AgentState) : result Node.t :=
  match n with
  | Node.START => Ret Node.precheck
  | Node.precheck => conditional env _route_after_url_check path_map_precheck state
  | Node.url_summary => Ret Node.format_content
  | Node.format_content => Ret Node.save_notion
  | Node.save_notion => conditional env _route_after_save path_map_save_notion state
  | Node.extract_tasks => Ret Node.create_tasks
  | Node.create_tasks => Ret Node.END
  | Node.END => Ret Node.END
  end.

(** The compiled graph run from node [n]: the node is entered, its function
    runs, and the edges give the node that follows.  [limit] is the
    library's bound on the number of steps. *)
Fixpoint drive (env : Env) (self : Agent) (limit : nat) (n : Node.t) (state : AgentState)
  : M AgentState :=
  match n with
  | Node.END => ret state
  | _ =>
      match limit with
      | O => raise "Recursion limit reached without hitting a stop condition"
      | S limit' =>
          _ <- emit (EvNode n) ;;
          state' <- run_node env self n state ;;
          n' <- lift (successor env n state') ;;
          drive env self limit' n' state'
      end
  end.

Definition recursion_limit : nat := 25.

(** [self.app.ainvoke(state, config)]: the run starts at the node the edge
    from [START] leads to. *)
Definition ainvoke (env : Env) (self : Agent) (state : AgentState) : M AgentState :=
  n <- lift (successor env Node.START state) ;;
  drive env self recursion_limit n state.

(** The part of [process] before the graph runs: the agent's attributes
    are set and the status message is created.  Yields the agent and
    [status_message_id]. *)
Definition begin (env : Env) (self : Agent) (message : Message) (background : option string)
    (telegram_status_updater_arg : option Updater) : M (Agent * option string) :=
  let user_id := user_id (metadata message) in
  let user_background := get_user_background env user_id in
  let user_background :=
    if PyStr.truthy background then
      if PyStr.truthy (Some user_background)
      then user_background +++ "
" +++ default "" background
      else default "" background
    else user_background in
  match telegram_status_updater_arg with
  | Some updater =>
      let self := {| telegram_status_updater := Some updater;
                     user_background := user_background |} in
      status_message <-
        _update_status self message
          (status PROCESSING ProcessStep.INITIALIZED (Some 0.1%Q) "🚀 开始处理..." None) ;;
      ret (self, handle_message_id <$> status_message)
  | None =>
      ret ({| telegram_status_updater := telegram_status_updater self;
              user_background := user_background |}, None)
  end.

(** [AgentState(message=..., ..., next=START, thread_id=...)] *)
Definition initial_state (message : Message) (background : option string)
    (status_message_id : option string) : AgentState :=
  {| message := message;
     text_content := default "" (data_text message);
     media_files := files message;
     background := default "" background;
     results := [];
     errors := [];
     status_message_id := status_message_id;
     format_content_result := None;
     precheck_result := None;
     tasks := None;
     next := Node.START;
     save_success := None;
     error_message := None;
     notion_page := None;
     thread_id := chat_id (metadata message) |}.

(** What [process] returns: the final state when the graph returned (the
    source then returns [final_state.get("results", {})]), or the message of
    the exception that escaped it (returned as [{"error": str(e)}]). *)
Inductive outcome :=
| Finished (final_state : AgentState)
| Failed (error : string).

(** [NoteTakerAgent.process] *)
Definition process (env : Env) (self : Agent) (message : Message) (background : option string)
    (telegram_status_updater_arg : option Updater) : M outcome :=
  started <- begin env self message background telegram_status_updater_arg ;;
  let self := started.1 in
  let status_message_id := started.2 in
  try_except
    (let state := initial_state message background status_message_id in
     final_state <- ainvoke env self state ;;
     ret (Finished final_state))
    (fun e =>
       _ <- narrate self message
              (without_progress
                 (status FAILED ProcessStep.ERROR (Some 0.0%Q)
                    ("❌ " +++ innermost e) status_message_id)) ;;
       ret (Failed e)).

(** The dictionary [process] hands back to the router. *)
Definition returned (o : outcome) : list (string * string) :=
  match o with
  | Finished final_state => results final_state
  | Failed e => [("error", e)]
  end.

(* ===================================================================== *)
(** ** TelegramStateManager: user states, status messages, message records *)
(* ===================================================================== *)

(** [state_manager.py: set_state, get_state, clear_state].  Instants are
    counted in microseconds, as [datetime] does; [expires_at now seconds]
    is [datetime.now() + timedelta(seconds=seconds)], which rounds the
    float to microseconds and raises when it is out of range. *)
Module UserStates.
Section UserStates.
Context {Data : Type}.
Variable expires_at : Z -> Q -> result Z.

(** One entry of [_states]: [{"data": data, "expires": ...}] *)
Record entry := { data : Data; expires : Z }.

Record t := { timeout : Q; _states : gmap Z entry }.

(** [timeout or self.timeout]: [None] and [0.0] give the default. *)
Definition effective_timeout (self : t) (timeout_arg : option Q) : Q :=
  match timeout_arg with
  | Some seconds => if Qeq_bool seconds 0 then timeout self else seconds
  | None => timeout self
  end.

Definition set_state (now : Z) (self : t) (user_id : Z) (d : Data)
    (timeout_arg : option Q) : result t :=
  match expires_at now (effective_timeout self timeout_arg) with
  | Ret instant =>
      Ret {| timeout := timeout self;
             _states := <[user_id := {| data := d; expires := instant |}]> (_states self) |}
  | Raise e => Raise e
  end.

(** [self._states.pop(user_id, None)] *)
Definition clear_state (self : t) (user_id : Z) : t :=
  {| timeout := timeout self; _states := delete user_id (_states self) |}.

Definition get_state (now : Z) (self : t) (user_id : Z) : option entry * t :=
  match _states self !! user_id with
  | None => (None, self)
  | Some state =>
      if expires state <? now then (None, clear_state self user_id)
      else (Some state, self)
  end.

End UserStates.
End UserStates.

(** [state_manager.py: get_status_message, delete_status_message,
    update_status], on the table the status updater methods use. *)
Module StatusMessages.

Definition get_status_message (st : updater_state) (message_id : string)
    : option tg_message :=
  _status_messages st !! message_id.

(** [delete] is [Message.delete()]; the third component lists the
    messages it was called on.  The entry is popped before the call. *)
Definition delete_status_message (delete : tg_message -> result unit)
    (message_id : string) (st : updater_state)
    : result bool * updater_state * list tg_message :=
  if bot st then
    match _status_messages st !! message_id with
    | None => (Ret false, st, [])
    | Some m =>
        let st' := {| bot := bot st;
                      _status_messages := base.delete message_id (_status_messages st) |} in
        match delete m with
        | Ret _ => (Ret true, st', [m])
        | Raise _ => (Ret false, st', [m])
        end
    end
  else (Ret false, st, []).

(** [update_status]: status, step, progress and details are not used; the
    description is the new text. *)
Definition update_status (env : Env) (message_id : string) (status : MessageStatus)
    (step : string) (progress : option Q) (description : string) : U bool :=
  fun st =>
    match TelegramStateManager.update_status_message env message_id description st with
    | (Ret b, st', ops) => (Ret b, st', ops)
    | (Raise _, st', ops) => (Ret false, st', ops)
    end.

End StatusMessages.

(** [state_manager.py: add_message, get_user_messages, clear_user_messages] *)
Module UserMessages.

Definition add_message (_user_messages : gmap Z (list Z)) (user_id message_id : Z)
    : gmap Z (list Z) :=
  <[user_id := default [] (_user_messages !! user_id) ++ [message_id]]> _user_messages.

Definition get_user_messages (_user_messages : gmap Z (list Z)) (user_id : Z) : list Z :=
  default [] (_user_messages !! user_id).

Definition clear_user_messages (_user_messages : gmap Z (list Z)) (user_id : Z)
    : gmap Z (list Z) :=
  delete user_id _user_messages.

End UserMessages.

(* ===================================================================== *)
(** ** MessageRouter *)
(* ===================================================================== *)

(** Whether [value.strip()] is empty: every code point of [value] is one
    [str.isspace] accepts (U+0009..000D, 001C..0020, 0085, 00A0, 1680,
    2000..200A, 2028, 2029, 202F, 205F, 3000), read off the UTF-8 bytes. *)
Module PyBlank.

Definition byte (a : ascii) : nat := nat_of_ascii a.

Definition two_byte_space (a b : ascii) : bool :=
  (Nat.eqb (byte a) 194 && (Nat.eqb (byte b) 133 || Nat.eqb (byte b) 160))%nat.

Definition three_byte_space (a b c : ascii) : bool :=
  ((Nat.eqb (byte a) 225 && Nat.eqb (byte b) 154 && Nat.eqb (byte c) 128)
   || (Nat.eqb (byte a) 226 && Nat.eqb (byte b) 128
       && ((Nat.leb 128 (byte c) && Nat.leb (byte c) 138)
           || Nat.eqb (byte c) 168 || Nat.eqb (byte c) 169 || Nat.eqb (byte c) 175))
   || (Nat.eqb (byte a) 226 && Nat.eqb (byte b) 129 && Nat.eqb (byte c) 159)
   || (Nat.eqb (byte a) 227 && Nat.eqb (byte b) 128 && Nat.eqb (byte c) 128))%nat.

Fixpoint blank (s : string) : bool :=
  match s with
  | EmptyString => true
  | String a s1 =>
      if PyStr.is_space a then blank s1
      else
        match s1 with
        | EmptyString => false
        | String b s2 =>
            if two_byte_space a b then blank s2
            else
              match s2 with
              | EmptyString => false
              | String c s3 => if three_byte_space a b c then blank s3 else false
              end
        end
  end.

End PyBlank.

(** [platforms/telegram/message_router.py], as [TelegramBot] builds the
    router: with the state manager and the settings handler set. *)
Module MessageRouter.

(** [core/models/message.py: MessageType] *)
Inductive MessageType :=
| TEXT | IMAGE | VIDEO | AUDIO | VOICE | FILE | STICKER | LOCATION | CONTACT
| POLL | DICE | ANIMATION | MEDIA_GROUP | UNKNOWN.

(** [telegram.Message]: the attributes the router reads; for the media
    attributes, whether they are set. *)
Record incoming := {
  in_message_id : Z;
  in_chat_id : Z;
  in_from_user : option Z;           (* from_user.id *)
  in_text : option string;
  in_voice : bool;
  in_audio : bool;
  in_photo : bool;
  in_document : bool;
  in_media_group_id : option string
}.

(** [telegram.Update] *)
Record update := {
  upd_message : option incoming;
  upd_effective_user : option Z      (* effective_user.id *)
}.

(** One call of [update.message.reply_text]. *)
Record reply := {
  reply_text_ : string;
  reply_to_message_id : option Z
}.

Section Router.
Context {V : Type}.
Variable env : Env.

(** What the router runs on: the world of the agent, the replies it has
    sent, the user states of the state manager. *)
Record router_world := {
  agent_world : world;
  replies : list reply;
  states : @UserStates.t (gmap string V)
}.

Definition R (A : Type) : Type := router_world -> result A * router_world.

Definition rret {A} (a : A) : R A := fun w => (Ret a, w).
Definition rraise {A} (msg : string) : R A := fun w => (Raise msg, w).
Definition rbind {A B} (m : R A) (k : A -> R B) : R B :=
  fun w => match m w with
           | (Ret a, w') => k a w'
           | (Raise e, w') => (Raise e, w')
           end.
Definition rtry {A} (body : R A) (handler : string -> R A) : R A :=
  fun w => match body w with
           | (Ret a, w') => (Ret a, w')
           | (Raise e, w') => handler e w'
           end.

(** A coroutine of the agent, run on the agent's part of the world. *)
Definition on_agent {A} (m : M A) : R A :=
  fun w => let '(r, aw) := m (agent_world w) in
           (r, {| agent_world := aw; replies := replies w; states := states w |}).

(** The collaborators of the router. *)
Variable reply_answer : incoming -> reply -> result unit.       (* Message.reply_text *)
Variable settings_handle_message : update -> R unit.           (* settings_handler.handle_message *)
Variable media_processor_process : Message -> R unit.          (* media_processor.process *)
(** The part of [_convert_to_message] that is left to the libraries: the
    file paths [bot.get_file] gives, the attachments listed from them, the
    forward origin and the validation of the message models.  It raises
    when one of them does. *)
Variable attachments : incoming -> result (list string).

(** The router's own attributes: the agents [set_agents] stored. *)
Record router := {
  media_processor : bool;            (* self.media_processor is set *)
  note_taker : option Agent
}.

Definition reply_text (message : incoming) (text : string) (reply_to : option Z) : R unit :=
  fun w =>
    let r := {| reply_text_ := text; reply_to_message_id := reply_to |} in
    (reply_answer message r,
     {| agent_world := agent_world w; replies := replies w ++ [r]; states := states w |}).

(** [MessageRouter._get_message_type] *)
Definition _get_message_type (message : incoming) : MessageType :=
  if in_voice message then VOICE
  else if in_audio message then AUDIO
  else if in_photo message then IMAGE
  else if in_document message then FILE
  else if PyStr.truthy (in_text message) then TEXT
  else UNKNOWN.

(** [MessageRouter._convert_to_message]: the [text] key of the content is
    written for a text message only.  A message without a sender has
    [user_id=None], carried here as the text [str()] and the f-strings of
    the configuration make of it. *)
Definition _convert_to_message (tg_message : incoming) : result Message :=
  let message_type := _get_message_type tg_message in
  match attachments tg_message with
  | Raise e => Raise e
  | Ret files =>
      Ret {| data_text := match message_type with
                          | TEXT => in_text tg_message
                          | _ => None
                          end;
             metadata :=
               {| message_id := PyStr.of_Z (in_message_id tg_message);
                  platform := "telegram";
                  chat_id := PyStr.of_Z (in_chat_id tg_message);
                  user_id := match in_from_user tg_message with
                             | Some uid => PyStr.of_Z uid
                             | None => "None"
                             end |};
             files := files |}
  end.

(** The text of the reply for a non-empty [results] dictionary. *)
Definition result_text (results : list (string * string)) : string :=
  foldl (fun text kv => if PyBlank.blank kv.2 then text else text +++ kv.2 +++ "
") "✅ 处理完成

" results.

Definition is_media (t : MessageType) : bool :=
  match t with
  | VOICE | AUDIO | IMAGE => true
  | _ => false
  end.

(** The [try] block of [_process_message] *)
Definition _process_message_try (self : router) (message : incoming) : R unit :=
  match media_processor self, note_taker self with
  | true, Some agent =>
      let message_type := _get_message_type message in
      match _convert_to_message message with
      | Raise e => rraise e
      | Ret converted =>
          rbind (if is_media message_type
                 then media_processor_process converted
                 else rret tt)
            (fun _ =>
               rbind (on_agent (process env agent converted None
                                  (Some (TelegramStateManager.updater env))))
                 (fun o =>
                    match returned o with
                    | [] => rret tt
                    | results =>
                        reply_text message (result_text results)
                          (Some (in_message_id message))
                    end))
      end
  | _, _ => rraise "智能体未初始化"
  end.

(** [MessageRouter._process_message] *)
Definition _process_message (self : router) (message : incoming) : R unit :=
  rtry (_process_message_try self message)
    (fun e => reply_text message ("❌ 处理失败: " +++ e) (Some (in_message_id message))).

(** [MessageRouter._check_settings_state], with [now] the instant
    [get_state] reads the clock at. *)
Definition _check_settings_state (now : Z) (u : update) : R bool :=
  match upd_message u with
  | None => rret false
  | Some message =>
      if PyStr.truthy (in_text message) then
        match upd_effective_user u with
        | None => rraise "'NoneType' object has no attribute 'id'"
        | Some user_id =>
            fun w =>
              let '(state, states') := UserStates.get_state now (states w) user_id in
              let w' := {| agent_world := agent_world w; replies := replies w;
                           states := states' |} in
              match state with
              | Some entry =>
                  if bool_decide (is_Some (UserStates.data entry !! "setting")) then
                    rtry (rbind (settings_handle_message u) (fun _ => rret true))
                      (fun _ =>
                         rbind (reply_text message "处理设置失败，请重试" None)
                           (fun _ => rret true)) w'
                  else (Ret false, w')
              | None => (Ret false, w')
              end
        end
      else rret false
  end.

(** The [try] block of [route]; the method [_handle_media_group_message]
    it calls for a message of a media group is not defined anywhere. *)
Definition _route_try (self : router) (now : Z) (u : update) (message : incoming) : R unit :=
  rbind (_check_settings_state now u)
    (fun handled =>
       if handled : bool then rret tt
       else if PyStr.truthy (in_media_group_id message) then
         rraise "'MessageRouter' object has no attribute '_handle_media_group_message'"
       else _process_message self message).

(** [MessageRouter.route] *)
Definition route (self : router) (now : Z) (u : update) : R unit :=
  match upd_message u with
  | None => rret tt
  | Some message =>
      rtry (_route_try self now u message)
        (fun _ => reply_text message "❌ 处理消息时出现错误，请稍后重试" None)
  end.

End Router.
End MessageRouter.

(* ===================================================================== *)
(** ** TelegramBot: the message queue and its workers *)
(* ===================================================================== *)

(** [platforms/telegram/telegram_bot.py] *)
Module TelegramBot.

(** How awaiting [self._process_message(update, context)] ends: it
    returns, it raises an [Exception], or the worker task is cancelled
    while it waits ([asyncio.CancelledError], not an [Exception]). *)
Inductive ended :=
| Returned
| RaisedException (msg : string)
| RaisedCancelled.

(** Where a worker coroutine is when it does not run a unit. *)
Inductive worker_end :=
| Waiting                 (* alive, awaiting [message_queue.get()] *)
| LeftLoop                (* [break]: the coroutine returns *)
| Died (msg : string).    (* an exception left the coroutine *)

Section Run.
Context {V : Type}.
Variable env : Env.
Variable reply_answer : MessageRouter.incoming -> MessageRouter.reply -> result unit.
Variable settings_handle_message : MessageRouter.update -> @MessageRouter.R V unit.
Variable media_processor_process : Message -> @MessageRouter.R V unit.
Variable attachments : MessageRouter.incoming -> result (list string).

(** [TelegramBot._process_message]: the request context is made from
    [str(update.effective_user.id)], which raises without a user, and the
    router runs inside it; the context lets every exception through.
    [now] is the instant the router reads the clock at.  A cancellation
    comes from outside and is no part of it. *)
Definition _process_message (router : MessageRouter.router) (now : Z)
    (u : MessageRouter.update)
    : @MessageRouter.router_world V -> ended * @MessageRouter.router_world V :=
  fun w =>
    match MessageRouter.upd_effective_user u with
    | None => (RaisedException "'NoneType' object has no attribute 'id'", w)
    | Some _ =>
        match MessageRouter.route env reply_answer settings_handle_message
                media_processor_process attachments router now u w with
        | (Ret _, w') => (Returned, w')
        | (Raise e, w') => (RaisedException e, w')
        end
    end.

End Run.

Section Worker.

(** The queued unit, [(update, context)], and the world the runs act on. *)
Context {item World : Type}.

(** The run of one queued unit: any effect on the world, any ending. *)
Variable _process_message : item -> World -> ended * World.

(** What the worker works on besides the queued units: the world the runs
    act on, the log, and the queue's count of unfinished tasks. *)
Record bot_state := {
  the_world : World;
  log : list string;
  unfinished_tasks : nat
}.

(** [asyncio.Queue.task_done] *)
Definition task_done (s : bot_state) : result bot_state :=
  match unfinished_tasks s with
  | O => Raise "task_done() called too many times"
  | S n => Ret {| the_world := the_world s; log := log s; unfinished_tasks := n |}
  end.

(** [TelegramBot._message_worker] over the units [pending] it is handed. *)
Fixpoint _message_worker (pending : list item) (s : bot_state) : worker_end * bot_state :=
  match pending with
  | [] => (Waiting, s)
  | unit_ :: rest =>
      let '(e, w') := _process_message unit_ (the_world s) in
      let s := {| the_world := w'; log := log s; unfinished_tasks := unfinished_tasks s |} in
      match e with
      | Returned =>
          match task_done s with
          | Ret s => _message_worker rest s
          | Raise msg => (Died msg, s)
          end
      | RaisedException msg =>
          let s := {| the_world := the_world s;
                      log := log s ++ ["消息处理失败: " +++ msg];
                      unfinished_tasks := unfinished_tasks s |} in
          match task_done s with
          | Ret s => _message_worker rest s
          | Raise msg => (Died msg, s)
          end
      | RaisedCancelled =>
          match task_done s with
          | Ret s => (LeftLoop, s)
          | Raise msg => (Died msg, s)
          end
      end
  end.

(** The worker is cancelled while it awaits [get()] on an empty queue. *)
Definition cancelled_while_waiting (s : bot_state) : worker_end * bot_state :=
  match task_done s with
  | Ret s => (LeftLoop, s)
  | Raise msg => (Died msg, s)
  end.


End Worker.

(** The pool: [start] makes [max_workers] tasks of [_message_worker] on the
    one queue, so several units are run at a time.  What follows keeps the
    queue and where each worker is, and leaves out the log and what the
    runs do to the world; every step is what one coroutine does between two
    of its awaits. *)
Section Pool.
Context {item : Type}.

(** [update.message] is set, for the queued unit [(update, context)]. *)
Variable has_message : item -> bool.

Definition max_workers : nat := 10.

(** Where a worker is: awaiting [get()], awaiting the run of the unit it
    took, or out of its loop. *)
Inductive place :=
| AtGet
| InRun (unit_ : item)
| Out (how : worker_end).

(** [self.message_queue] (the units in it and its count of unfinished
    tasks) and [self._workers]. *)
Record pool := {
  _queue : list item;
  _unfinished_tasks : nat;
  _workers : list place
}.

(** [asyncio.Queue.put] on the unbounded queue *)
Definition put (unit_ : item) (p : pool) : pool :=
  {| _queue := _queue p ++ [unit_];
     _unfinished_tasks := S (_unfinished_tasks p);
     _workers := _workers p |}.

(** [TelegramBot._handle_message] *)
Definition _handle_message (unit_ : item) (p : pool) : pool :=
  if has_message unit_ then put unit_ p else p.

(** [await self.message_queue.get()] returns to worker [i]: the unit at the
    head of the queue is taken. *)
Definition get_returns (i : nat) (p : pool) : pool :=
  match _workers p !! i, _queue p with
  | Some AtGet, unit_ :: rest =>
      {| _queue := rest;
         _unfinished_tasks := _unfinished_tasks p;
         _workers := <[i := InRun unit_]> (_workers p) |}
  | _, _ => p
  end.

(** The [finally] clause of worker [i], [task_done()], after which the
    worker is at [next]; an exception of [task_done] leaves the coroutine. *)
Definition then_task_done (i : nat) (next : place) (p : pool) : pool :=
  match _unfinished_tasks p with
  | O =>
      {| _queue := _queue p;
         _unfinished_tasks := O;
         _workers := <[i := Out (Died "task_done() called too many times")]> (_workers p) |}
  | S n =>
      {| _queue := _queue p;
         _unfinished_tasks := n;
         _workers := <[i := next]> (_workers p) |}
  end.

(** The run of the unit of worker [i] ends: the [except] clauses ([break]
    on a cancellation, a log line on an exception), then [finally]. *)
Definition run_ends (i : nat) (how : ended) (p : pool) : pool :=
  match _workers p !! i with
  | Some (InRun _) =>
      then_task_done i (match how with
                 | RaisedCancelled => Out LeftLoop
                 | _ => AtGet
                 end) p
  | _ => p
  end.

(** Worker [i] is cancelled while it awaits [get()]: [break], then
    [finally]. *)
Definition cancelled_at_get (i : nat) (p : pool) : pool :=
  match _workers p !! i with
  | Some AtGet => then_task_done i (Out LeftLoop) p
  | _ => p
  end.

(** What happens to the pool, one coroutine at a time. *)
Inductive action :=
| Arrives (unit_ : item)            (* the handler is called with an update *)
| Gets (i : nat)                    (* [get()] returns to worker [i] *)
| Ends (i : nat) (how : ended)      (* the run of worker [i] ends *)
| CancelledAtGet (i : nat).         (* worker [i] is cancelled in [get()] *)

Definition step (p : pool) (a : action) : pool :=
  match a with
  | Arrives unit_ => _handle_message unit_ p
  | Gets i => get_returns i p
  | Ends i how => run_ends i how p
  | CancelledAtGet i => cancelled_at_get i p
  end.

Definition run (actions : list action) (p : pool) : pool := foldl step p actions.

(** The pool as [start] leaves it. *)
Definition started : pool :=
  {| _queue := []; _unfinished_tasks := 0; _workers := replicate max_workers AtGet |}.




End Pool.
End TelegramBot.

(* ===================================================================== *)
(** ** ConfigManager: the per-user configuration *)
(* ===================================================================== *)

(** [utils/config_manager.py].  A configuration file holds what
    [yaml.safe_load] reads from it; [yaml.safe_dump] followed by
    [yaml.safe_load] is taken to give the value back.  The texts of the
    exceptions are abridged. *)
Module ConfigManager.

(** The values of a configuration (floats and dates are left out);
    mappings have text keys. *)
#[warnings="-register-all"] Inductive yaml :=
| YNone
| YBool (b : bool)
| YInt (z : Z)
| YStr (s : string)
| YList (l : list yaml)
| YDict (d : list (string * yaml)).

Definition truthy (v : yaml) : bool :=
  match v with
  | YNone => false
  | YBool b => b
  | YInt z => negb (z =? 0)
  | YStr s => negb (String.eqb s "")
  | YList l => match l with [] => false | _ => true end
  | YDict d => match d with [] => false | _ => true end
  end.

(** [value == {}] *)
Definition is_empty_dict (v : yaml) : bool :=
  match v with
  | YDict [] => true
  | _ => false
  end.

(** [d.get(key)] *)
Fixpoint lookup (key : string) (d : list (string * yaml)) : option yaml :=
  match d with
  | [] => None
  | (k, v) :: rest => if String.eqb k key then Some v else lookup key rest
  end.

(** [d[key] = value]: in place for a key that is there, at the end for a
    new one. *)
Fixpoint store (key : string) (value : yaml) (d : list (string * yaml))
    : list (string * yaml) :=
  match d with
  | [] => [(key, value)]
  | (k, v) :: rest =>
      if String.eqb k key then (k, value) :: rest else (k, v) :: store key value rest
  end.

(** [del d[key]] *)
Definition remove (key : string) (d : list (string * yaml)) : list (string * yaml) :=
  List.filter (fun kv => negb (String.eqb kv.1 key)) d.

(** [key in value] *)
Definition py_in (key : string) (value : yaml) : result bool :=
  match value with
  | YDict d => Ret (match lookup key d with Some _ => true | None => false end)
  | YStr s => Ret (PyStr.contains key s)
  | YList l => Ret (existsb (fun x => match x with
                                      | YStr s => String.eqb s key
                                      | _ => false
                                      end) l)
  | YNone => Raise "argument of type 'NoneType' is not iterable"
  | YBool _ => Raise "argument of type 'bool' is not iterable"
  | YInt _ => Raise "argument of type 'int' is not iterable"
  end.

(** A file of the configuration directory. *)
Inductive file :=
| Parsed (v : yaml)       (* what [yaml.safe_load] reads from it *)
| Unreadable.             (* opening or parsing it raises *)

Section Files.
(** The error of writing a file, if writing it fails. *)
Variable write_error : string -> option string.

Definition fs : Type := gmap string file.

(** [_get_user_config_file]: the name under [data/config] *)
Definition _get_user_config_file (user_id platform : string) : string :=
  "user_config_" +++ platform +++ "_" +++ user_id +++ ".yml".

(** [_load_user_config] *)
Definition _load_user_config (files : fs) (user_id platform : string) : yaml :=
  match files !! _get_user_config_file user_id platform with
  | None => YDict []
  | Some Unreadable => YDict []
  | Some (Parsed v) => if truthy v then v else YDict []
  end.

(** [_save_user_config] *)
Definition _save_user_config (files : fs) (user_id : string) (config : yaml)
    (platform : string) : result fs :=
  match write_error (_get_user_config_file user_id platform) with
  | Some e => Raise e
  | None => Ret (<[_get_user_config_file user_id platform := Parsed config]> files)
  end.

(** [for key in keys: value = value.get(key, {})] *)
Fixpoint follow (keys : list string) (value : yaml) : result yaml :=
  match keys with
  | [] => Ret value
  | key :: rest =>
      match value with
      | YDict d => follow rest (default (YDict []) (lookup key d))
      | _ => Raise "object has no attribute 'get'"
      end
  end.

(** [get_user_value(user_id, path, platform, default)] *)
Definition get_user_value (files : fs) (user_id path platform : string) (default : yaml)
    : yaml :=
  match follow (PyStr.split "." path) (_load_user_config files user_id platform) with
  | Ret value => if is_empty_dict value then default else value
  | Raise _ => default
  end.

(** The loop over [keys[:-1]] with [setdefault] and the assignment to
    [keys[-1]], as the new content of [current]. *)
Fixpoint assign (keys : list string) (value : yaml) (current : yaml) : result yaml :=
  match keys with
  | [] => Raise "list index out of range"
  | key :: rest =>
      match rest with
      | [] =>
          match current with
          | YDict d => Ret (YDict (store key value d))
          | _ => Raise "object does not support item assignment"
          end
      | _ :: _ =>
          match current with
          | YDict d =>
              match assign rest value (default (YDict []) (lookup key d)) with
              | Ret child => Ret (YDict (store key child d))
              | Raise e => Raise e
              end
          | _ => Raise "object has no attribute 'setdefault'"
          end
      end
  end.

(** [set_user_config(user_id, path, value, platform)] *)
Definition set_user_config (files : fs) (user_id path : string) (value : yaml)
    (platform : string) : result fs :=
  match assign (PyStr.split "." path) value (_load_user_config files user_id platform) with
  | Ret config => _save_user_config files user_id config platform
  | Raise e => Raise e
  end.

(** The walk of [delete_user_config]: the new content of [current], or
    [None] where the method returns before it saves. *)
Fixpoint unset (keys : list string) (current : yaml) : result (option yaml) :=
  match keys with
  | [] => Raise "list index out of range"
  | key :: rest =>
      match rest with
      | [] =>
          match py_in key current with
          | Raise e => Raise e
          | Ret false => Ret (Some current)
          | Ret true =>
              match current with
              | YDict d => Ret (Some (YDict (remove key d)))
              | _ => Raise "object doesn't support item deletion"
              end
          end
      | _ :: _ =>
          match py_in key current with
          | Raise e => Raise e
          | Ret false => Ret None
          | Ret true =>
              match current with
              | YDict d =>
                  match lookup key d with
                  | Some child =>
                      match unset rest child with
                      | Ret (Some child') => Ret (Some (YDict (store key child' d)))
                      | Ret None => Ret None
                      | Raise e => Raise e
                      end
                  | None => Raise key
                  end
              | _ => Raise "indices must be integers"
              end
          end
      end
  end.

(** [delete_user_config(user_id, path, platform)] *)
Definition delete_user_config (files : fs) (user_id path platform : string) : result fs :=
  match unset (PyStr.split "." path) (_load_user_config files user_id platform) with
  | Ret (Some config) => _save_user_config files user_id config platform
  | Ret None => Ret files
  | Raise e => Raise e
  end.

(** [get_service(service_name, user_id)]: whether a service is returned. *)
Definition get_service (files : fs) (service_name user_id : string) : bool :=
  if String.eqb service_name "dida365" then
    let token_info := get_user_value files user_id "dida.token" "tg" YNone in
    if truthy token_info then
      match token_info with
      | YDict d => truthy (default YNone (lookup "access_token" d))
      | _ => false
      end
    else false
  else false.

End Files.

(** A path that leads nowhere in [config]: following it raises or ends on
    the empty mapping, so that [get_user_value] gives its default. *)
Definition unreachable (keys : list string) (config : yaml) : Prop :=
  match follow keys config with
  | Ret value => is_empty_dict value = true
  | Raise _ => True
  end.

End ConfigManager.

(* ===================================================================== *)
(** ** DidaService: the client of a user *)
(* ===================================================================== *)

(** [services/dida365/dida_service.py: _get_api].  The client
    [DidaAPI(access_token)] is carried as its token; [_apis] is the table
    of the clients made so far, empty in the service [get_service] has
    just built. *)
Module DidaService.

(** Whether [access_token[:10]], which the log line of [_get_api] takes,
    is defined. *)
Definition sliceable (v : ConfigManager.yaml) : bool :=
  match v with
  | ConfigManager.YStr _ | ConfigManager.YList _ => true
  | _ => false
  end.

(** The [try] block of [_get_api] *)
Definition _get_api_try (files : ConfigManager.fs) (_apis : gmap string ConfigManager.yaml)
    (user_id : string) : result (ConfigManager.yaml * gmap string ConfigManager.yaml) :=
  match _apis !! user_id with
  | Some api => Ret (api, _apis)
  | None =>
      let token_info :=
        ConfigManager.get_user_value files user_id "dida.token" "tg" ConfigManager.YNone in
      if ConfigManager.truthy token_info then
        match token_info with
        | ConfigManager.YDict d =>
            let access_token :=
              default ConfigManager.YNone (ConfigManager.lookup "access_token" d) in
            if ConfigManager.truthy access_token then
              if sliceable access_token
              then Ret (access_token, <[user_id := access_token]> _apis)
              else Raise "object is not subscriptable"
            else Raise "无效的访问令牌"
        | _ => Raise "object has no attribute 'get'"
        end
      else Raise "未配置滴答清单访问令牌"
  end.

(** [DidaService._get_api] *)
Definition _get_api (files : ConfigManager.fs) (_apis : gmap string ConfigManager.yaml)
    (user_id : string) : result (ConfigManager.yaml * gmap string ConfigManager.yaml) :=
  match _get_api_try files _apis user_id with
  | Ret r => Ret r
  | Raise e => Raise ("获取API实例失败: " +++ e)
  end.

End DidaService.

(* ===================================================================== *)
(** ** Vocabulary of the properties *)
(* ===================================================================== *)

(** What [format_status_text] is called with: the progress, unless the
    caller asked for no bar. *)
Definition effective_progress (c : status_call) : option Q :=
  if sc_show_progress c then sc_progress c else None.

(** [moves Pre m Post]: run from a world in [Pre], [m] leaves a world in
    [Post], whether it returns or raises. *)
Definition moves {A} (Pre : world -> Prop) (m : M A) (Post : world -> Prop) : Prop :=
  forall w, Pre w -> Post (m w).2.

(** [returns Q m]: whatever [m] returns satisfies [Q]. *)
Definition returns {A} (Q : A -> Prop) (m : M A) : Prop :=
  forall w a w', m w = (Ret a, w') -> Q a.

(** [total m]: [m] never raises. *)
Definition total {A} (m : M A) : Prop :=
  forall w, exists a w', m w = (Ret a, w').

(** [keeps Inv m]: [m] maintains [Inv]. *)
Abbreviation keeps Inv m := (moves Inv m Inv).

(** The events added since the trace was [base] all satisfy [P], and the
    updater's state satisfies [I]. *)
Definition since (base : list event) (I : updater_state -> Prop) (P : event -> Prop)
    (w : world) : Prop :=
  I (ust w) /\ exists evs, trace w = base ++ evs /\ Forall P evs.

(** An updater method is fine for call [c] when it maintains [I] and its
    transport calls make an acceptable event. *)
Definition method_ok {A} (I : updater_state -> Prop) (P : event -> Prop)
    (c : status_call) (m : U A) : Prop :=
  forall st, I st -> I (m st).1.2 /\ P (EvStatus c (m st).2).

(** A node is entered and its function runs. *)
Definition enter (env : Env) (self : Agent) (n : Node.t) (state : AgentState) : M AgentState :=
  _ <- emit (EvNode n) ;; run_node env self n state.

(** What follows [save_notion]: the task branch, or the answer [END],
    which the path map does not list. *)
Definition after_save (env : Env) (self : Agent) (state : AgentState) : M AgentState :=
  if precheck_flag contains_text state && get_flag (save_success state) then
    state <- enter env self Node.extract_tasks state ;;
    enter env self Node.create_tasks state
  else
    _ <- lift (unlisted env Node.END) ;;
    ret state.

(** What follows [precheck]. *)
Definition after_precheck (env : Env) (self : Agent) (state : AgentState) : M AgentState :=
  state <- (if precheck_flag contains_url state
            then enter env self Node.url_summary state else ret state) ;;
  state <- enter env self Node.format_content state ;;
  state <- enter env self Node.save_notion state ;;
  after_save env self state.

(** The run up to and including [save_notion]. *)
Definition up_to_save (env : Env) (self : Agent) (state : AgentState) : M AgentState :=
  state <- enter env self Node.precheck state ;;
  state <- (if precheck_flag contains_url state
            then enter env self Node.url_summary state else ret state) ;;
  state <- enter env self Node.format_content state ;;
  enter env self Node.save_notion state.

(** The state belongs to the same run: same message, same status message. *)
Definition same_run (s s' : AgentState) : Prop :=
  message s' = message s /\ status_message_id s' = status_message_id s.

(** ... and the outcome of the earlier steps is as it was. *)
Definition same_outcome (s s' : AgentState) : Prop :=
  same_run s s' /\
  precheck_result s' = precheck_result s /\
  save_success s' = save_success s /\
  format_content_result s' = format_content_result s.

Definition is_status (e : event) : bool :=
  match e with
  | EvStatus _ _ => true
  | _ => false
  end.

Definition is_node (e : event) : bool :=
  match e with
  | EvNode _ => true
  | _ => false
  end.

(** The three kinds of status call the workflow makes: a progress update,
    an error text, and the completion report. *)
Inductive call_kind (c : status_call) : Prop :=
| ProgressCall :
    sc_show_progress c = true -> is_Some (sc_progress c) -> sc_status c = PROCESSING ->
    call_kind c
| ErrorCall :
    sc_show_progress c = false -> sc_emoji c = "" -> sc_status c = FAILED ->
    call_kind c
| ReportCall :
    sc_show_progress c = false -> sc_emoji c = "" -> sc_status c = COMPLETED ->
    sc_progress c = None ->
    call_kind c.

(** A status call of the run whose status message is [sid]. *)
Definition run_call (sid : option string) (c : status_call) : Prop :=
  sc_status_message_id c = sid /\ call_kind c.

(** The state is one of the run of [msg] with status message [sid]. *)
Definition of_run (msg : Message) (sid : option string) (s : AgentState) : Prop :=
  message s = msg /\ status_message_id s = sid.

(** The part of [process] after [begin]. *)
Definition run (env : Env) (self : Agent) (msg : Message) (sid : option string)
    (background : option string) : M outcome :=
  try_except
    (final_state <- ainvoke env self (initial_state msg background sid) ;;
     ret (Finished final_state))
    (fun e =>
       _ <- narrate self msg
              (without_progress
                 (status FAILED ProcessStep.ERROR (Some 0.0%Q)
                    ("❌ " +++ innermost e) sid)) ;;
       ret (Failed e)).

(** The progress value of a status call is absent when the caller passed
    [show_progress=False] or [progress=None]. *)
Definition progress_absent (c : status_call) : Prop := effective_progress c = None.

(** What C1 asks of one event: a status update without progress sends the
    description itself to the transport. *)
Definition verbatim_when_absent (e : event) : Prop :=
  match e with
  | EvStatus c ops =>
      progress_absent c -> Forall (fun op => op_text op = sc_description c) ops
  | _ => True
  end.

(** The first status call of [process], made without a status message id. *)
Definition first_call : status_call :=
  status PROCESSING ProcessStep.INITIALIZED (Some 0.1%Q) "🚀 开始处理..." None.

Definition first_text : string := "🚀 开始处理...
█░░░░░░░░░ 10%".

(** What is asked of one event after the status message [m] was created: a
    status call carries the id of [m] and edits [m], and nothing else. *)
Definition edits (m : tg_message) (e : event) : Prop :=
  match e with
  | EvStatus c ops =>
      sc_status_message_id c = Some (PyStr.of_Z (tg_message_id m)) /\
      exists text, ops = [EditText m text]
  | _ => True
  end.

(** The state manager holds [m] under its id, with a bot to reach it. *)
Definition holds_message (m : tg_message) (st : updater_state) : Prop :=
  bot st = true /\ _status_messages st !! PyStr.of_Z (tg_message_id m) = Some m.

Module Scenario.

Definition message : Message :=
  {| data_text := Some "Buy milk tomorrow at 6pm";
     metadata := {| message_id := "5"; platform := "telegram";
                    chat_id := "42"; user_id := "7" |};
     files := [] |}.

Definition text_only : PrecheckResult :=
  {| contains_url := Some false; contains_text := Some true; urls := None |}.

Definition url_only : PrecheckResult :=
  {| contains_url := Some true; contains_text := Some false;
     urls := Some ["https://example.org"] |}.

Definition note : FormatResult :=
  {| fr_content_type := Some "Note"; fr_title := Some "Milk";
     fr_summary := Some "buy milk"; fr_content := Some "Buy milk tomorrow at 6pm.";
     fr_tags := Some ["shopping"]; fr_has_tasks := Some true |}.

Definition due : datetime :=
  {| dt_year := 2024; dt_month := 1; dt_day := 2; dt_hour := 18; dt_minute := 0;
     dt_second := 0; dt_utcoffset := Some 0 |}.

Definition milk : Task :=
  {| t_projectId := Some "Shopping"; t_title := Some "Buy milk"; t_content := None;
     t_dueDate := Some "2024-01-02T18:00:00Z"; t_priority := Some 3;
     t_isAllDay := Some false; t_reminders := None; t_desc := None |}.

Definition stray : Task :=
  {| t_projectId := Some "Garden"; t_title := Some "Water plants"; t_content := None;
     t_dueDate := None; t_priority := None;
     t_isAllDay := None; t_reminders := None; t_desc := None |}.

Definition bread : Task :=
  {| t_projectId := None; t_title := Some "Buy bread"; t_content := None;
     t_dueDate := None; t_priority := None;
     t_isAllDay := None; t_reminders := None; t_desc := None |}.

Definition status_message : tg_message := {| tg_chat_id := "42"; tg_message_id := 77 |}.

(** Collaborators that all answer, but for those that are given;
    [library] is what the graph library makes of an unlisted [END]. *)
Definition env (analysis : result PrecheckResult) (formatted : result FormatResult)
    (extracted : result (list Task)) (todo_service : bool) (library : result unit) : Env :=
  {| get_user_background := fun _ => "{}";
     dida_service := fun _ => todo_service;
     dida_projects := fun _ => [("Shopping", "p1")];
     url_text_analyzer := fun _ => analysis;
     format_content := fun _ _ => formatted;
     extract_tasks := fun _ _ _ => extracted;
     json_loads_background := fun _ => BgParsed "" "[]";
     add_note := fun _ => Ret (Some "page-1");
     add_task := fun args =>
       if String.eqb (PyStr.of_opt (at_title args)) "Buy bread"
       then Raise "quota exceeded" else Ret (Some "task-1");
     fromisoformat := fun _ => Ret due;
     strftime := fun _ _ => "2024-01-02 18:00";
     send_message := fun _ _ _ => Ret status_message;
     edit_text := fun _ _ => Ret tt;
     unlisted := fun _ => library |}.

(** The agent as [TelegramBot.initialize] builds it. *)
Definition agent (e : Env) : Agent :=
  {| telegram_status_updater := Some (TelegramStatusUpdater.updater e);
     user_background := "" |}.

Definition world0 : world :=
  {| ust := {| bot := true; _status_messages := ∅ |}; trace := [] |}.

(** [process], called the way [MessageRouter._process_message] calls it. *)
Definition run (e : Env) : result outcome * world :=
  process e (agent e) message None (Some (TelegramStateManager.updater e)) world0.

Definition all_fine : Env := env (Ret text_only) (Ret note) (Ret [milk]) true (Ret tt).
Definition no_todo_service : Env :=
  env (Ret text_only) (Ret note) (Ret [milk]) false (Ret tt).
Definition analyzer_fails : Env :=
  env (Raise "LLM error: timeout") (Ret note) (Ret [milk]) true (Ret tt).
Definition formatter_fails (library : result unit) : Env :=
  env (Ret text_only) (Raise "LLM error: timeout") (Ret [milk]) true library.
Definition only_a_url (library : result unit) : Env :=
  env (Ret url_only) (Ret note) (Ret [milk]) true library.

End Scenario.

Definition is_report (e : event) : bool :=
  match e with
  | EvStatus c _ => match sc_status c with COMPLETED => true | _ => false end
  | _ => false
  end.

Definition enters (n : Node.t) (e : event) : bool :=
  match e, n with
  | EvNode Node.precheck, Node.precheck
  | EvNode Node.url_summary, Node.url_summary
  | EvNode Node.format_content, Node.format_content
  | EvNode Node.save_notion, Node.save_notion
  | EvNode Node.extract_tasks, Node.extract_tasks
  | EvNode Node.create_tasks, Node.create_tasks => true
  | _, _ => false
  end.

(** Every due date of the batch is one [datetime.fromisoformat] accepts. *)
Definition due_dates_parse (env : Env) (tasks : list Task) : Prop :=
  Forall (fun t => exists d, parse_due env (t_dueDate t) = Ret d) tasks.

(** A state that reaches CREATE_TASKS with one task and a status message. *)
Definition state_with_milk : AgentState :=
  with_tasks [Scenario.milk]
    (with_save_success true
       (with_format_content_result Scenario.note
          (initial_state Scenario.message None (Some "77")))).

Definition routed_agent (e : Env) : Agent :=
  {| telegram_status_updater := Some (TelegramStateManager.updater e);
     user_background := "{}" |}.

(** The state fields an exception is converted into. *)
Definition converted (s : AgentState) : Prop :=
  is_Some (error_message s) /\ next s = Node.END.

(** The test of [_route_after_save]: [has_text and save_success]. *)
Definition opens_task_branch (s : AgentState) : bool :=
  precheck_flag contains_text s && get_flag (save_success s).

(** An event of the part of the run before the task branch: no entry into
    EXTRACT_TASKS or CREATE_TASKS, no completion report. *)
Definition before_tasks (e : event) : bool :=
  negb (enters Node.extract_tasks e || enters Node.create_tasks e || is_report e).

(** The texts a run sent to the transport, in order. *)
Definition sent_texts (evs : list event) : list string :=
  flat_map (fun e => match e with EvStatus _ ops => map op_text ops | _ => [] end) evs.

(** The chat a transport call goes to, and the chats the calls of a run
    went to, in order. *)
Definition op_chat (op : transport_op) : string :=
  match op with
  | SendMessage chat _ _ => chat
  | EditText m _ => tg_chat_id m
  end.

Definition sent_chats (evs : list event) : list string :=
  flat_map (fun e => match e with EvStatus _ ops => map op_chat ops | _ => [] end) evs.

Definition is_add_note (e : event) : bool :=
  match e with EvAddNote _ => true | _ => false end.

Definition final_error (r : result outcome) : option string :=
  match r with
  | Ret (Finished final_state) => error_message final_state
  | _ => None
  end.

(** The progress values the status channel showed: those that reached
    [format_status_text]. *)
Definition shown_progress (evs : list event) : list Q :=
  flat_map (fun e => match e with
                     | EvStatus c _ =>
                         match effective_progress c with Some q => [q] | None => [] end
                     | _ => []
                     end) evs.

(** The [progress] arguments of all status calls, shown or not. *)
Definition progress_values (evs : list event) : list Q :=
  flat_map (fun e => match e with
                     | EvStatus c _ =>
                         match sc_progress c with Some q => [q] | None => [] end
                     | _ => []
                     end) evs.

Definition is_failure (e : event) : bool :=
  match e with
  | EvStatus c _ => match sc_status c with FAILED => true | _ => false end
  | _ => false
  end.

(** A successful run: the completion report was reached and no step
    reported a failure. *)
Definition successful (evs : list event) : Prop :=
  existsb is_report evs = true /\ existsb is_failure evs = false.

(** Since the trace was [base], the values shown are in order and none
    exceeds [b]. *)
Definition upto (base : list event) (b : Q) (w : world) : Prop :=
  exists evs,
    trace w = base ++ evs /\
    StronglySorted Qle (shown_progress evs) /\
    Forall (fun q => (q <= b)%Q) (shown_progress evs).

(** Every status call of a run is a progress update, an error text or the
    completion report. *)
Definition classified (e : event) : Prop :=
  match e with
  | EvStatus c _ => call_kind c
  | _ => True
  end.

(** The events a computation added to the trace of [w]. *)
Definition events_since (w w' : world) : list event :=
  drop (length (trace w)) (trace w').



(** The reply of [route] to an exception of its [try] block. *)
Definition generic_failure : MessageRouter.reply :=
  {| MessageRouter.reply_text_ := "❌ 处理消息时出现错误，请稍后重试";
     MessageRouter.reply_to_message_id := None |}.

(** Two runs of [process] on the agent and the state manager that the
    workers share.  The run of [other] begins while the run of [this]
    awaits the last status edit of PRECHECK, and its first status message
    is there before that edit returns.  After that await PRECHECK touches
    neither the state manager nor the transport, so [this] goes on as if
    [other] had begun between the two nodes; on the agent it finds the
    attributes [other] has set.  Of [other] only the beginning is
    followed. *)
Definition overtaken (env : Env) (self : Agent) (this other : Message) : M outcome :=
  started <- begin env self this None (Some (TelegramStateManager.updater env)) ;;
  let self := started.1 in
  let status_message_id := started.2 in
  try_except
    (state <- enter env self Node.precheck (initial_state this None status_message_id) ;;
     intruder <- begin env self other None (Some (TelegramStateManager.updater env)) ;;
     final_state <- after_precheck env intruder.1 state ;;
     ret (Finished final_state))
    (fun e =>
       _ <- narrate self this
              (without_progress
                 (status FAILED ProcessStep.ERROR (Some 0.0%Q)
                    ("❌ " +++ innermost e) status_message_id)) ;;
       ret (Failed e)).

(** Position by position, [sep] does not start inside [pre] followed by
    [rest]. *)
Fixpoint sep_free (sep pre rest : string) : Prop :=
  match pre with
  | EmptyString => True
  | String c pre' => PyStr.startswith sep (pre ++ rest) = false /\ sep_free sep pre' rest
  end.

(** What the collaborators are given when the workflow runs on the empty
    text. *)
Definition on_empty_text (e : event) : Prop :=
  match e with
  | EvAnalyze text => text = ""
  | EvFormat content _ => content = ""
  | EvExtract content _ _ => content = ""
  | EvAddNote args => an_raw_content args = ""
  | _ => True
  end.

(** Further cases the properties are tried on. *)
Module Cases.

(** As [Scenario.all_fine], with a [datetime.fromisoformat] that refuses
    the due date. *)
Definition unparsable_date : Env :=
  {| get_user_background := get_user_background Scenario.all_fine;
     dida_service := dida_service Scenario.all_fine;
     dida_projects := dida_projects Scenario.all_fine;
     url_text_analyzer := url_text_analyzer Scenario.all_fine;
     format_content := format_content Scenario.all_fine;
     extract_tasks := extract_tasks Scenario.all_fine;
     json_loads_background := json_loads_background Scenario.all_fine;
     add_note := add_note Scenario.all_fine;
     add_task := add_task Scenario.all_fine;
     fromisoformat := fun _ => Raise "Invalid isoformat string";
     strftime := strftime Scenario.all_fine;
     send_message := send_message Scenario.all_fine;
     edit_text := edit_text Scenario.all_fine;
     unlisted := unlisted Scenario.all_fine |}.

(** As [Scenario.all_fine], with a transport that sends nothing. *)
Definition transport_down : Env :=
  {| get_user_background := get_user_background Scenario.all_fine;
     dida_service := dida_service Scenario.all_fine;
     dida_projects := dida_projects Scenario.all_fine;
     url_text_analyzer := url_text_analyzer Scenario.all_fine;
     format_content := format_content Scenario.all_fine;
     extract_tasks := extract_tasks Scenario.all_fine;
     json_loads_background := json_loads_background Scenario.all_fine;
     add_note := add_note Scenario.all_fine;
     add_task := add_task Scenario.all_fine;
     fromisoformat := fromisoformat Scenario.all_fine;
     strftime := strftime Scenario.all_fine;
     send_message := fun _ _ _ => Raise "Timed out";
     edit_text := edit_text Scenario.all_fine;
     unlisted := unlisted Scenario.all_fine |}.

(** A voice message, and a photo that belongs to an album. *)
Definition voice : MessageRouter.incoming :=
  {| MessageRouter.in_message_id := 5; MessageRouter.in_chat_id := 42;
     MessageRouter.in_from_user := Some 7; MessageRouter.in_text := None;
     MessageRouter.in_voice := true; MessageRouter.in_audio := false;
     MessageRouter.in_photo := false; MessageRouter.in_document := false;
     MessageRouter.in_media_group_id := None |}.

Definition album_photo : MessageRouter.incoming :=
  {| MessageRouter.in_message_id := 6; MessageRouter.in_chat_id := 42;
     MessageRouter.in_from_user := Some 7; MessageRouter.in_text := None;
     MessageRouter.in_voice := false; MessageRouter.in_audio := false;
     MessageRouter.in_photo := true; MessageRouter.in_document := false;
     MessageRouter.in_media_group_id := Some "13370000000000001" |}.

Definition text_message : MessageRouter.incoming :=
  {| MessageRouter.in_message_id := 5; MessageRouter.in_chat_id := 42;
     MessageRouter.in_from_user := Some 7;
     MessageRouter.in_text := Some "Buy milk tomorrow at 6pm";
     MessageRouter.in_voice := false; MessageRouter.in_audio := false;
     MessageRouter.in_photo := false; MessageRouter.in_document := false;
     MessageRouter.in_media_group_id := None |}.

Definition update_of (message : MessageRouter.incoming) : MessageRouter.update :=
  {| MessageRouter.upd_message := Some message;
     MessageRouter.upd_effective_user := MessageRouter.in_from_user message |}.

(** The router as [TelegramBot.initialize] leaves it, and a world in which
    nobody is in the settings dialogue. *)
Definition router (e : Env) : MessageRouter.router :=
  {| MessageRouter.media_processor := true;
     MessageRouter.note_taker := Some (Scenario.agent e) |}.

Definition router_world0 : @MessageRouter.router_world string :=
  {| MessageRouter.agent_world := Scenario.world0;
     MessageRouter.replies := [];
     MessageRouter.states := {| UserStates.timeout := 60; UserStates._states := ∅ |} |}.

(** Collaborators of the router that all answer. *)
Definition reply_answer (_ : MessageRouter.incoming) (_ : MessageRouter.reply)
    : result unit := Ret tt.
Definition settings_handle_message (_ : MessageRouter.update)
    : @MessageRouter.R string unit := MessageRouter.rret tt.
Definition media_processor_process (_ : Message) : @MessageRouter.R string unit :=
  MessageRouter.rret tt.
Definition attachments (_ : MessageRouter.incoming) : result (list string) := Ret [].

(** [datetime.now() + timedelta(seconds=...)] for whole seconds. *)
Definition expires_at (now : Z) (seconds : Q) : result Z :=
  Ret (now + py_int (seconds * 1000000)).

Definition no_states : @UserStates.t string :=
  {| UserStates.timeout := 60; UserStates._states := ∅ |}.

(** A file system on which every write succeeds. *)
Definition writable (_ : string) : option string := None.

(** As [Scenario.all_fine], with a transport that numbers the messages of
    each chat on their own, as Telegram does: the first status message of
    two chats gets the same [message_id]. *)
Definition same_id : Env :=
  {| get_user_background := get_user_background Scenario.all_fine;
     dida_service := dida_service Scenario.all_fine;
     dida_projects := dida_projects Scenario.all_fine;
     url_text_analyzer := url_text_analyzer Scenario.all_fine;
     format_content := format_content Scenario.all_fine;
     extract_tasks := extract_tasks Scenario.all_fine;
     json_loads_background := json_loads_background Scenario.all_fine;
     add_note := add_note Scenario.all_fine;
     add_task := add_task Scenario.all_fine;
     fromisoformat := fromisoformat Scenario.all_fine;
     strftime := strftime Scenario.all_fine;
     send_message := fun chat _ _ => Ret {| tg_chat_id := chat; tg_message_id := 500 |};
     edit_text := edit_text Scenario.all_fine;
     unlisted := unlisted Scenario.all_fine |}.

(** A message of another chat. *)
Definition group_message : Message :=
  {| data_text := Some "Call the plumber on Friday";
     metadata := {| message_id := "9"; platform := "telegram";
                    chat_id := "-1001"; user_id := "8" |};
     files := [] |}.

(** A chat that takes no reply. *)
Definition no_reply (_ : MessageRouter.incoming) (_ : MessageRouter.reply)
    : result unit := Raise "Timed out".

End Cases.

(* ===================================================================== *)
(** * Properties *)
(* ===================================================================== *)

(** ** Calculations *)

Example split_colon : PyStr.split ": " "a: b: c" = ["a"; "b"; "c"].
Proof. reflexivity. Qed.

Example split_none : PyStr.split ": " "timeout" = ["timeout"].
Proof. reflexivity. Qed.

Example split_trailing : PyStr.split ": " "x: " = ["x"; ""].
Proof. reflexivity. Qed.

Example replace_z : PyStr.replace "Z" "+00:00" "2024-01-02T03:04:05Z" = "2024-01-02T03:04:05+00:00".
Proof. reflexivity. Qed.

Example len_cjk : PyStr.len "标签: #a" = 6%nat.
Proof. reflexivity. Qed.

Example take_cjk : PyStr.take 2 "标签: #a" = "标签".
Proof. reflexivity. Qed.

Example strip_ex : PyStr.strip "  a b
" = "a b".
Proof. reflexivity. Qed.

Example of_Z_ex : PyStr.of_Z 70 = "70" /\ PyStr.of_Z 0 = "0" /\ PyStr.of_Z_width3 7 = "  7".
Proof. repeat split; reflexivity. Qed.

Example state_manager_bar :
  TelegramStateManager.format_status_text (Some 0.3%Q) 2 "检测到文本内容" "✨"
  = Ret "✨ 检测到文本内容
███░░░░░░░ 30%".
Proof. reflexivity. Qed.

Example state_manager_plain :
  TelegramStateManager.format_status_text None 9 "❌ timeout" "" = Ret "❌ timeout".
Proof. reflexivity. Qed.

Example status_updater_bar :
  TelegramStatusUpdater.format_status_text (Some 0.7%Q) 6 "💾 正在保存到 Notion..." ""
  = Ret "💾 正在保存到 Notion...
██████████████░░░░░░  70%".
Proof. reflexivity. Qed.

(** ** The status helper *)

(** C10. [_update_status] never raises, whatever the agent, the arguments,
    the updater object and the state of the transport: it always returns,
    and it returns a status message only when an updater is set, the text
    was formatted, no status message id was given and the updater's
    [create_status_message] returned that message.  Every failure (no
    updater, a formatting error, an updater method that raises or reports
    failure) therefore yields [None]. *)
Theorem update_status_never_raises (self : Agent) (message : Message) (c : status_call)
    (w : world) :
  exists r w',
    _update_status self message c w = (Ret r, w') /\
    forall h, r = Some h ->
      exists updater text,
        telegram_status_updater self = Some updater /\
        format_status_text updater (effective_progress c)
          (ProcessStep.value (sc_step c)) (sc_description c) (sc_emoji c) = Ret text /\
        PyStr.truthy (sc_status_message_id c) = false /\
        (create_status_message updater (chat_id (metadata message)) text
           (message_id (metadata message)) (ust w)).1.1 = Ret (Some h).
Proof.
  unfold _update_status, try_except, bind, emit, ret, raise, on_updater, effective_progress.
  destruct (telegram_status_updater self) as [updater|]; simpl.
  2: { eexists _, _; split; [reflexivity | discriminate]. }
  destruct (format_status_text updater _ _ _ _) as [text|e] eqn:Hfmt; simpl.
  2: { eexists _, _; split; [reflexivity | discriminate]. }
  destruct (sc_status_message_id c) as [[|a rest]|] eqn:Hid; simpl.
  - destruct (create_status_message updater _ _ _ (ust w)) as [[[r|e] st] ops] eqn:Hc; simpl.
    + eexists _, _; split; [reflexivity|]. intros h ->.
      exists updater, text. rewrite Hc. auto.
    + eexists _, _; split; [reflexivity | discriminate].
  - destruct (update_status_message updater _ _ (ust w)) as [[[r|e] st] ops]; simpl;
      eexists _, _; (split; [reflexivity | discriminate]).
  - destruct (create_status_message updater _ _ _ (ust w)) as [[[r|e] st] ops] eqn:Hc; simpl.
    + eexists _, _; split; [reflexivity|]. intros h ->.
      exists updater, text. rewrite Hc. auto.
    + eexists _, _; split; [reflexivity | discriminate].
Qed.

(** Every call of the helper leaves exactly one [EvStatus] in the trace. *)
Lemma update_status_event (self : Agent) (message : Message) (c : status_call) (w : world) :
  exists r st ops,
    _update_status self message c w
    = (Ret r, {| ust := st; trace := trace w ++ [EvStatus c ops] |}).
Proof.
  unfold _update_status, try_except, bind, emit, ret, raise, on_updater.
  destruct (telegram_status_updater self) as [updater|]; simpl; [|eauto].
  destruct (format_status_text updater _ _ _ _) as [text|e]; simpl; [|eauto].
  destruct (sc_status_message_id c) as [[|a rest]|]; simpl.
  - destruct (create_status_message updater _ _ _ (ust w)) as [[[r|e] st] ops]; simpl; eauto.
  - destruct (update_status_message updater _ _ (ust w)) as [[[r|e] st] ops]; simpl; eauto.
  - destruct (create_status_message updater _ _ _ (ust w)) as [[[r|e] st] ops]; simpl; eauto.
Qed.

(** [str()] of an integer is never empty, so a created status message
    always yields a usable [status_message_id]. *)
Lemma of_Z_truthy (z : Z) : PyStr.truthy (Some (PyStr.of_Z z)) = true.
Proof.
  unfold PyStr.of_Z, NilZero.string_of_int.
  destruct (Z.to_int z) as [d|d]; [|reflexivity].
  unfold NilZero.string_of_uint. destruct d; reflexivity.
Qed.

(* ===================================================================== *)
(** ** A small program logic for the coroutines *)
(* ===================================================================== *)

Section Rules.
Context {A B : Type}.

Lemma moves_ret (Pre : world -> Prop) (a : A) : moves Pre (ret a) Pre.
Proof. intros w H. exact H. Qed.

Lemma moves_raise (Pre : world -> Prop) (e : string) : moves Pre (@raise A e) Pre.
Proof. intros w H. exact H. Qed.

Lemma moves_lift (Pre : world -> Prop) (r : result A) : moves Pre (lift r) Pre.
Proof. intros w H. exact H. Qed.

Lemma moves_weaken (Pre Pre' Post Post' : world -> Prop) (m : M A) :
  moves Pre' m Post' ->
  (forall w, Pre w -> Pre' w) -> (forall w, Post' w -> Post w) ->
  moves Pre m Post.
Proof. intros H H1 H2 w Hw. apply H2, H, H1, Hw. Qed.

Lemma moves_bind (Pre Mid Post : world -> Prop) (m : M A) (k : A -> M B) :
  moves Pre m Mid ->
  (forall w, Mid w -> Post w) ->
  (forall a, moves Mid (k a) Post) ->
  moves Pre (bind m k) Post.
Proof.
  intros Hm Hw Hk w Hpre. unfold bind.
  specialize (Hm w Hpre). destruct (m w) as [[a|e] w1]; simpl in *.
  - apply Hk, Hm.
  - apply Hw, Hm.
Qed.

(** The continuation may rely on what [m] is known to return. *)
Lemma moves_bind_returns (Q : A -> Prop) (Pre Mid Post : world -> Prop)
    (m : M A) (k : A -> M B) :
  moves Pre m Mid ->
  returns Q m ->
  (forall w, Mid w -> Post w) ->
  (forall a, Q a -> moves Mid (k a) Post) ->
  moves Pre (bind m k) Post.
Proof.
  intros Hm Hq Hw Hk w Hpre. unfold bind.
  specialize (Hm w Hpre). specialize (Hq w).
  destruct (m w) as [[a|e] w1]; simpl in *.
  - apply Hk; [eapply Hq; reflexivity | exact Hm].
  - apply Hw, Hm.
Qed.

Lemma moves_try (Pre Mid Post : world -> Prop) (body : M A) (handler : string -> M A) :
  moves Pre body Mid ->
  (forall w, Mid w -> Post w) ->
  (forall e, moves Mid (handler e) Post) ->
  moves Pre (try_except body handler) Post.
Proof.
  intros Hm Hw Hk w Hpre. unfold try_except.
  specialize (Hm w Hpre). destruct (body w) as [[a|e] w1]; simpl in *.
  - apply Hw, Hm.
  - apply Hk, Hm.
Qed.

Lemma returns_ret (Q : A -> Prop) (a : A) : Q a -> returns Q (ret a).
Proof. intros H w a' w' [= <- _]. exact H. Qed.

Lemma returns_raise (Q : A -> Prop) (e : string) : returns Q (@raise A e).
Proof. intros w a w' [=]. Qed.

Lemma returns_bind (Q : B -> Prop) (m : M A) (k : A -> M B) :
  (forall a, returns Q (k a)) -> returns Q (bind m k).
Proof.
  intros Hk w b w'. unfold bind. destruct (m w) as [[a|e] w1]; [|discriminate].
  apply Hk.
Qed.

Lemma returns_try (Q : A -> Prop) (body : M A) (handler : string -> M A) :
  returns Q body -> (forall e, returns Q (handler e)) ->
  returns Q (try_except body handler).
Proof.
  intros Hb Hh w a w'. unfold try_except.
  destruct (body w) as [[a'|e] w1] eqn:E.
  - intros [= <- <-]. eapply Hb, E.
  - apply Hh.
Qed.

Lemma total_ret (a : A) : total (ret a).
Proof. intros w. eexists _, _. reflexivity. Qed.

Lemma total_bind (m : M A) (k : A -> M B) :
  total m -> (forall a, total (k a)) -> total (bind m k).
Proof.
  intros Hm Hk w. unfold bind. destruct (Hm w) as (a & w1 & ->). apply Hk.
Qed.

Lemma total_try (body : M A) (handler : string -> M A) :
  (forall e, total (handler e)) -> total (try_except body handler).
Proof.
  intros Hh w. unfold try_except. destruct (body w) as [[a|e] w1].
  - eexists _, _. reflexivity.
  - apply Hh.
Qed.

End Rules.

Lemma keeps_bind {A B} (Inv : world -> Prop) (m : M A) (k : A -> M B) :
  keeps Inv m -> (forall a, keeps Inv (k a)) -> keeps Inv (bind m k).
Proof. intros Hm Hk. eapply moves_bind; eauto. Qed.

Lemma keeps_try {A} (Inv : world -> Prop) (body : M A) (handler : string -> M A) :
  keeps Inv body -> (forall e, keeps Inv (handler e)) -> keeps Inv (try_except body handler).
Proof. intros Hm Hk. eapply moves_try; eauto. Qed.

Lemma total_update_status self message c : total (_update_status self message c).
Proof.
  intros w. destruct (update_status_event self message c w) as (r & st & ops & H).
  eexists _, _. exact H.
Qed.

Lemma total_narrate self message c : total (narrate self message c).
Proof.
  unfold narrate. destruct (has_channel _ _); [|apply total_ret].
  apply total_bind; [apply total_update_status | intros; apply total_ret].
Qed.

(** *** Invariants over the events a run adds *)

Section Since.
Variable base : list event.
Variable I : updater_state -> Prop.
Variable P : event -> Prop.

Lemma since_snoc (w : world) (e : event) (st : updater_state) :
    since base I P w -> I st -> P e -> since base I P {| ust := st; trace := trace w ++ [e] |}.
Proof.
    intros [_ (evs & Ht & Hall)] Hst He. split; [exact Hst|].
    exists (evs ++ [e]). simpl. rewrite Ht, <- app_assoc. split; [reflexivity|].
    apply Forall_app. split; [exact Hall | constructor; [exact He | constructor]].
Qed.

Lemma keeps_emit (e : event) : P e -> keeps (since base I P) (emit e).
Proof. intros He w Hw. apply since_snoc; [exact Hw | apply Hw | exact He]. Qed.

Lemma keeps_call {A} (e : event) (r : result A) : P e -> keeps (since base I P) (call e r).
Proof. intros He w Hw. apply since_snoc; [exact Hw | apply Hw | exact He]. Qed.

Lemma keeps_on_updater {A} (c : status_call) (m : U A) :
    method_ok I P c m -> keeps (since base I P) (on_updater c m).
Proof.
    intros Hm w Hw. unfold on_updater.
    destruct (Hm (ust w) (proj1 Hw)) as [Hi Hp].
    destruct (m (ust w)) as [[r st] ops]. simpl in *.
    apply since_snoc; assumption.
Qed.

Lemma keeps_update_status (self : Agent) (message : Message) (c : status_call) :
    ((telegram_status_updater self = None \/
      exists updater e,
        telegram_status_updater self = Some updater /\
        format_status_text updater (effective_progress c)
          (ProcessStep.value (sc_step c)) (sc_description c) (sc_emoji c) = Raise e) ->
     P (EvStatus c [])) ->
    (forall updater text,
        telegram_status_updater self = Some updater ->
        format_status_text updater (effective_progress c)
          (ProcessStep.value (sc_step c)) (sc_description c) (sc_emoji c) = Ret text ->
        (forall mid, sc_status_message_id c = Some mid -> PyStr.truthy (Some mid) = true ->
                     method_ok I P c (update_status_message updater mid text)) /\
        (PyStr.truthy (sc_status_message_id c) = false ->
         method_ok I P c (create_status_message updater (chat_id (metadata message)) text
                        (message_id (metadata message))))) ->
    keeps (since base I P) (_update_status self message c).
Proof.
    intros Hnil Hu. unfold _update_status.
    apply keeps_try; [|intros; apply moves_ret].
    destruct (telegram_status_updater self) as [updater|].
    2: { apply keeps_bind; [apply keeps_emit, Hnil; auto | intros; apply moves_ret]. }
    fold (effective_progress c).
    destruct (format_status_text updater _ _ _ _) as [text|e] eqn:Hfmt.
    2: { apply keeps_bind; [apply keeps_emit, Hnil; eauto | intros; apply moves_raise]. }
    destruct (Hu updater text eq_refl Hfmt) as [Hupd Hcre].
    destruct (sc_status_message_id c) as [[|a rest]|] eqn:Hid.
    - apply keeps_on_updater, Hcre. reflexivity.
    - apply keeps_bind; [|intros; apply moves_ret].
      apply keeps_on_updater, Hupd; reflexivity.
    - apply keeps_on_updater, Hcre. reflexivity.
Qed.

End Since.
(* ===================================================================== *)
(** ** The shape of a graph run *)
(* ===================================================================== *)

Lemma drive_step (env : Env) (self : Agent) (limit : nat) (n : Node.t) (state : AgentState) :
  n <> Node.END ->
  drive env self (S limit) n state
  = (_ <- emit (EvNode n) ;;
     state' <- run_node env self n state ;;
     n' <- lift (successor env n state') ;;
     drive env self limit n' state').
Proof. destruct n; intros H; try reflexivity. congruence. Qed.

Lemma drive_END (env : Env) (self : Agent) (limit : nat) (state : AgentState) :
  drive env self limit Node.END state = ret state.
Proof. destruct limit; reflexivity. Qed.

(** An edge that is not conditional. *)
Lemma lift_Ret_bind {A B} (a : A) (k : A -> M B) (w : world) :
  (x <- lift (Ret a) ;; k x) w = k a w.
Proof. reflexivity. Qed.

Lemma ret_bind {A B} (a : A) (k : A -> M B) (w : world) :
  (x <- ret a ;; k x) w = k a w.
Proof. reflexivity. Qed.

Lemma bind_congr {A B} (m : M A) (k1 k2 : A -> M B) (w : world) :
  (forall a w', k1 a w' = k2 a w') ->
  (x <- m ;; k1 x) w = (x <- m ;; k2 x) w.
Proof. intros H. unfold bind. destruct (m w) as [[a|e] w']; [apply H | reflexivity]. Qed.

Lemma drive_enter (env : Env) (self : Agent) (limit : nat) (n : Node.t) (state : AgentState)
    (w : world) :
  n <> Node.END ->
  drive env self (S limit) n state w
  = (state' <- enter env self n state ;;
     n' <- lift (successor env n state') ;;
     drive env self limit n' state') w.
Proof.
  intros H. rewrite drive_step by exact H. unfold enter, bind, emit.
  destruct (run_node env self n state _) as [[s'|e] w']; reflexivity.
Qed.

(** The walk from [format_content] on. *)
Lemma drive_from_format (env : Env) (self : Agent) (limit : nat) (state : AgentState)
    (w : world) :
  drive env self (S (S (S (S limit)))) Node.format_content state w
  = (state <- enter env self Node.format_content state ;;
     state <- enter env self Node.save_notion state ;;
     after_save env self state) w.
Proof.
  rewrite drive_enter by discriminate. apply bind_congr. intros s3 w3.
  cbn [successor]. rewrite lift_Ret_bind.
  rewrite drive_enter by discriminate. apply bind_congr. intros s4 w4.
  cbn [successor]. unfold conditional, _route_after_save, after_save.
  destruct (precheck_flag contains_text s4 && get_flag (save_success s4));
    cbn [path_map_save_notion].
  - rewrite lift_Ret_bind. rewrite drive_enter by discriminate.
    apply bind_congr. intros s5 w5. cbn [successor]. rewrite lift_Ret_bind.
    rewrite drive_enter by discriminate. unfold bind.
    destruct (enter env self Node.create_tasks s5 w5) as [[s6|e] w6]; [|reflexivity].
    cbn [successor lift]. rewrite drive_END. reflexivity.
  - unfold bind, lift. destruct (unlisted env Node.END) as [[]|e]; [|reflexivity].
    rewrite drive_END. reflexivity.
Qed.

(** The graph, walked along its edges: the recursion limit is never
    reached, and the run is the precheck followed by the rest. *)
Lemma ainvoke_unfold (env : Env) (self : Agent) (state : AgentState) (w : world) :
  ainvoke env self state w
  = (state <- enter env self Node.precheck state ;; after_precheck env self state) w.
Proof.
  unfold ainvoke, recursion_limit. cbn [successor]. rewrite lift_Ret_bind.
  rewrite drive_enter by discriminate. apply bind_congr. intros s1 w1.
  unfold after_precheck. cbn [successor]. unfold conditional, _route_after_url_check.
  destruct (precheck_flag contains_url s1); cbn [path_map_precheck]; rewrite lift_Ret_bind.
  - rewrite drive_enter by discriminate. apply bind_congr. intros s2 w2.
    cbn [successor]. rewrite lift_Ret_bind. apply drive_from_format.
  - rewrite ret_bind. apply drive_from_format.
Qed.

Lemma ainvoke_up_to_save (env : Env) (self : Agent) (state : AgentState) (w : world) :
  ainvoke env self state w
  = (state <- up_to_save env self state ;; after_save env self state) w.
Proof.
  rewrite ainvoke_unfold. unfold up_to_save, after_precheck, bind.
  destruct (enter env self Node.precheck state w) as [[s1|e] w1]; [|reflexivity].
  destruct ((if precheck_flag contains_url s1
             then enter env self Node.url_summary s1 else ret s1) w1)
    as [[s2|e] w2]; [|reflexivity].
  destruct (enter env self Node.format_content s2 w2) as [[s3|e] w3]; [|reflexivity].
  destruct (enter env self Node.save_notion s3 w3) as [[s4|e] w4]; reflexivity.
Qed.

(** *** What the transition functions leave untouched *)

Lemma same_run_refl s : same_run s s.
Proof. split; reflexivity. Qed.

Lemma same_run_trans s1 s2 s3 : same_run s1 s2 -> same_run s2 s3 -> same_run s1 s3.
Proof. intros [H1 H2] [H3 H4]. split; congruence. Qed.

Ltac returns_auto :=
  repeat first
    [ apply returns_try; [|intros ?]
    | apply returns_bind; intros ?
    | apply returns_raise
    | apply returns_ret
    | match goal with
      | |- returns _ (match ?x with _ => _ end) => destruct x
      end ].

Lemma precheck_same_run env self s : returns (same_run s) (_content_precheck env self s).
Proof. unfold _content_precheck, _content_precheck_try. returns_auto; repeat split. Qed.

Lemma format_same_run env self s : returns (same_run s) (_format_content env self s).
Proof. unfold _format_content, _format_content_try, _format_content_except. returns_auto; repeat split. Qed.

Lemma save_same_run env self s : returns (same_run s) (_save_to_notion env self s).
Proof. unfold _save_to_notion, _save_to_notion_try, _save_to_notion_except. returns_auto; repeat split. Qed.

Lemma extract_same_outcome env self s : returns (same_outcome s) (_extract_tasks env self s).
Proof. unfold _extract_tasks, _extract_tasks_try, _extract_tasks_except. returns_auto; repeat split. Qed.

Lemma create_same_outcome env self s : returns (same_outcome s) (_create_tasks env self s).
Proof. unfold _create_tasks, _create_tasks_try, _create_tasks_except, finish_with_report. returns_auto; repeat split. Qed.

Lemma enter_returns env self n s (Q : AgentState -> Prop) :
  returns Q (run_node env self n s) -> returns Q (enter env self n s).
Proof. intros H. unfold enter. apply returns_bind. intros _. exact H. Qed.

(* ===================================================================== *)
(** ** Invariants of a whole run *)
(* ===================================================================== *)

Lemma narrate_world self message c w :
  has_channel self (sc_status_message_id c) = true ->
  (narrate self message c w).2 = (_update_status self message c w).2.
Proof.
  intros H. unfold narrate. rewrite H. unfold bind.
  destruct (_update_status self message c w) as [[r|e] w']; reflexivity.
Qed.

Lemma narrate_silent self message c w :
  has_channel self (sc_status_message_id c) = false ->
  narrate self message c w = (Ret tt, w).
Proof. intros H. unfold narrate. rewrite H. reflexivity. Qed.

Ltac walk :=
  repeat match goal with
    | |- moves _ (let _ := _ in _) _ => cbv zeta
    | |- moves _ (try_except _ _) _ => apply keeps_try; [|intros ?]
    | |- moves _ (bind _ _) _ => apply keeps_bind; [|intros ?]
    | |- moves _ (ret _) _ => apply moves_ret
    | |- moves _ (raise _) _ => apply moves_raise
    | |- moves _ (lift _) _ => apply moves_lift
    | |- moves _ (match ?x with _ => _ end) _ => destruct x eqn:?
    end.

Ltac run_call_tac :=
  split; [reflexivity |
    first [ apply ProgressCall; [reflexivity | eexists; reflexivity | reflexivity]
          | apply ErrorCall; reflexivity
          | apply ReportCall; reflexivity ] ].

Lemma enter_same_run env self n s : returns (same_run s) (enter env self n s).
Proof.
  apply enter_returns. destruct n; cbn [run_node].
  - apply returns_ret, same_run_refl.
  - apply precheck_same_run.
  - apply returns_ret, same_run_refl.
  - apply format_same_run.
  - apply save_same_run.
  - intros w a w' H. apply (extract_same_outcome env self s w a w' H).
  - intros w a w' H. apply (create_same_outcome env self s w a w' H).
  - apply returns_ret, same_run_refl.
Qed.

Section RunInvariant.
Variables (env : Env) (self : Agent) (msg : Message) (sid : option string).
Variable Inv : world -> Prop.

(** The status calls of the run keep the invariant, kind by kind, and so
    do the capability calls and the entering of each node. *)
Hypothesis Hprogress :
  forall c, sc_status_message_id c = sid ->
    sc_show_progress c = true -> is_Some (sc_progress c) -> sc_status c = PROCESSING ->
    keeps Inv (narrate self msg c).
Hypothesis Herror :
  forall c, sc_status_message_id c = sid ->
    sc_show_progress c = false -> sc_emoji c = "" -> sc_status c = FAILED ->
    keeps Inv (narrate self msg c).
Hypothesis Hreport :
  forall c, sc_status_message_id c = sid ->
    sc_show_progress c = false -> sc_emoji c = "" -> sc_status c = COMPLETED ->
    sc_progress c = None ->
    keeps Inv (narrate self msg c).
Hypothesis Hcall : forall e, is_status e = false -> is_node e = false -> keeps Inv (emit e).
Hypothesis Hnode : forall n, keeps Inv (emit (EvNode n)).

Lemma of_run_same s s' : of_run msg sid s -> same_run s s' -> of_run msg sid s'.
Proof. intros [H1 H2] [H3 H4]. split; congruence. Qed.

Lemma call_keeps {A} (e : event) (r : result A) :
  is_status e = false -> is_node e = false -> keeps Inv (call e r).
Proof. intros He Hn w Hw. exact (Hcall e He Hn w Hw). Qed.

Ltac progress_leaf :=
  apply Hprogress; [reflexivity | reflexivity | eexists; reflexivity | reflexivity].
Ltac error_leaf := apply Herror; reflexivity.
Ltac call_leaf := apply call_keeps; reflexivity.

Lemma precheck_keeps s : of_run msg sid s -> keeps Inv (_content_precheck env self s).
Proof.
  intros [Hm Hs]. unfold _content_precheck, _content_precheck_try. rewrite Hm, Hs.
  walk; first [call_leaf | progress_leaf].
Qed.

Lemma format_keeps s : keeps Inv (_format_content env self s).
Proof. unfold _format_content, _format_content_try, _format_content_except. walk; call_leaf. Qed.

Lemma save_keeps s : of_run msg sid s -> keeps Inv (_save_to_notion env self s).
Proof.
  intros [Hm Hs]. unfold _save_to_notion, _save_to_notion_try, _save_to_notion_except. rewrite Hm, Hs.
  walk; first [call_leaf | progress_leaf | error_leaf].
Qed.

Lemma extract_keeps s : of_run msg sid s -> keeps Inv (_extract_tasks env self s).
Proof.
  intros [Hm Hs]. unfold _extract_tasks, _extract_tasks_try, _extract_tasks_except. rewrite Hm, Hs.
  walk; first [call_leaf | progress_leaf | error_leaf].
Qed.

Lemma create_task_keeps uid pm t : keeps Inv (create_task env uid pm t).
Proof. unfold create_task. walk; call_leaf. Qed.

Lemma create_task_loop_keeps uid pm ts : keeps Inv (create_task_loop env uid pm ts).
Proof.
  induction ts as [|t ts IH]; cbn [create_task_loop]; walk.
  - apply create_task_keeps.
  - exact IH.
Qed.

Lemma report_keeps description :
  has_channel self sid = true ->
  keeps Inv (_update_status self msg (report_call description sid)).
Proof.
  intros H w Hw. rewrite <- narrate_world by exact H.
  revert w Hw. apply Hreport; reflexivity.
Qed.

Lemma create_keeps s : of_run msg sid s -> keeps Inv (_create_tasks env self s).
Proof.
  intros [Hm Hs]. unfold _create_tasks, _create_tasks_try, _create_tasks_except, finish_with_report. rewrite Hm, Hs. walk;
    try first [ apply create_task_loop_keeps | call_leaf | progress_leaf | error_leaf
              | apply report_keeps; assumption ].
Qed.

Lemma enter_keeps n s : of_run msg sid s -> keeps Inv (enter env self n s).
Proof.
  intros Hs. unfold enter. apply keeps_bind; [apply Hnode | intros _].
  destruct n; cbn [run_node]; try apply moves_ret.
  - apply precheck_keeps, Hs.
  - apply format_keeps.
  - apply save_keeps, Hs.
  - apply extract_keeps, Hs.
  - apply create_keeps, Hs.
Qed.

Lemma enter_of_run n s : of_run msg sid s -> returns (of_run msg sid) (enter env self n s).
Proof.
  intros Hs w a w' H. eapply of_run_same; [exact Hs|].
  eapply enter_same_run, H.
Qed.

(** The part of the run up to [save_notion] needs neither the report call
    nor the two last nodes. *)
Lemma up_to_save_keeps s :
  (forall n, n <> Node.extract_tasks -> n <> Node.create_tasks ->
             keeps Inv (emit (EvNode n))) ->
  of_run msg sid s -> keeps Inv (up_to_save env self s).
Proof.
  intros Hn Hs. unfold up_to_save.
  assert (Hsame : forall n s0, of_run msg sid s0 -> returns (of_run msg sid) (enter env self n s0)).
  { intros n s0 H0 w a w' H. eapply of_run_same; [exact H0|]. eapply enter_same_run, H. }
  eapply moves_bind_returns with (Q := of_run msg sid) (Mid := Inv);
    [ | apply Hsame, Hs | intros ? Hw; exact Hw | intros s1 H1 ].
  { unfold enter. apply keeps_bind; [apply Hn; discriminate | intros _].
    apply precheck_keeps, Hs. }
  eapply moves_bind_returns with (Q := of_run msg sid) (Mid := Inv);
    [ | destruct (precheck_flag contains_url s1);
        [apply Hsame, H1 | apply returns_ret, H1] | intros ? Hw; exact Hw | intros s2 H2 ].
  { destruct (precheck_flag contains_url s1); [|apply moves_ret].
    unfold enter. apply keeps_bind; [apply Hn; discriminate | intros _]. apply moves_ret. }
  eapply moves_bind_returns with (Q := of_run msg sid) (Mid := Inv);
    [ | apply Hsame, H2 | intros ? Hw; exact Hw | intros s3 H3 ].
  { unfold enter. apply keeps_bind; [apply Hn; discriminate | intros _].
    apply format_keeps. }
  unfold enter. apply keeps_bind; [apply Hn; discriminate | intros _].
  apply save_keeps, H3.
Qed.

Ltac thread :=
  repeat match goal with
    | |- moves _ (bind (enter _ _ _ _) _) _ =>
        eapply moves_bind_returns;
        [apply enter_keeps; assumption | apply enter_of_run; assumption
        | intros ? Hw; exact Hw | intros ? ?]
    | |- moves _ (bind (if ?b then _ else _) _) _ =>
        eapply moves_bind_returns with (Q := of_run msg sid);
        [destruct b; [apply enter_keeps; assumption | apply moves_ret]
        | destruct b; [apply enter_of_run; assumption | apply returns_ret; assumption]
        | intros ? Hw; exact Hw | intros ? ?]
    | |- moves _ (bind (lift _) _) _ => apply keeps_bind; [apply moves_lift | intros ?]
    | |- moves _ (if ?b then _ else _) _ => destruct b
    | |- moves _ (ret _) _ => apply moves_ret
    | |- moves _ (enter _ _ _ _) _ => apply enter_keeps; assumption
    end.

Lemma ainvoke_keeps s : of_run msg sid s -> keeps Inv (ainvoke env self s).
Proof.
  intros Hs.
  assert (H : keeps Inv (state <- enter env self Node.precheck s ;;
                         after_precheck env self state)).
  { unfold after_precheck, after_save. thread. }
  intros w Hw. rewrite ainvoke_unfold. apply H, Hw.
Qed.

Lemma run_keeps background : keeps Inv (run env self msg sid background).
Proof.
  unfold run. walk.
  - apply ainvoke_keeps. split; reflexivity.
  - error_leaf.
Qed.

End RunInvariant.

(** The same, with the status calls taken together. *)
Lemma run_keeps_calls env self msg sid (Inv : world -> Prop) background :
  (forall c, run_call sid c -> keeps Inv (narrate self msg c)) ->
  (forall e, is_status e = false -> keeps Inv (emit e)) ->
  keeps Inv (run env self msg sid background).
Proof.
  intros Hs He. apply run_keeps.
  - intros c H1 H2 H3 H4. apply Hs. split; [exact H1 | apply ProgressCall; assumption].
  - intros c H1 H2 H3 H4. apply Hs. split; [exact H1 | apply ErrorCall; assumption].
  - intros c H1 H2 H3 H4 H5. apply Hs. split; [exact H1 | apply ReportCall; assumption].
  - intros e H _. apply He, H.
  - intros n. apply He. reflexivity.
Qed.

Lemma narrate_keeps (Inv : world -> Prop) self message c :
  keeps Inv (_update_status self message c) -> keeps Inv (narrate self message c).
Proof.
  intros H. unfold narrate. destruct (has_channel _ _); [|apply moves_ret].
  apply keeps_bind; [exact H | intros; apply moves_ret].
Qed.

Lemma process_unfold env self message background arg :
  process env self message background arg
  = (started <- begin env self message background arg ;;
     run env started.1 message started.2 background).
Proof. unfold process, run. reflexivity. Qed.

Lemma since_start (I : updater_state -> Prop) (P : event -> Prop) (w : world) :
  I (ust w) -> since (trace w) I P w.
Proof. intros H. split; [exact H|]. exists []. rewrite app_nil_r. auto. Qed.

Lemma keeps_nonstatus base I (P : event -> Prop) :
  (forall e, is_status e = false -> P e) ->
  forall e, is_status e = false -> keeps (since base I P) (emit e).
Proof. intros H e He. apply keeps_emit, H, He. Qed.

(* ===================================================================== *)
(** ** C1: without a progress value the description is shown as it is *)
(* ===================================================================== *)

Lemma state_manager_text_absent step description :
  TelegramStateManager.format_status_text None step description "" = Ret description.
Proof. reflexivity. Qed.

Section Verbatim.
Variables (env : Env) (base : list event).

Lemma verbatim_update_status self message c :
    telegram_status_updater self = Some (TelegramStateManager.updater env) ->
    (progress_absent c -> sc_emoji c = "") ->
    keeps (since base (fun _ => True) verbatim_when_absent) (_update_status self message c).
Proof.
    intros Hu Hc. apply keeps_update_status.
    - intros _ _. constructor.
    - intros updater text Hu' Hfmt. rewrite Hu in Hu'. injection Hu' as <-.
      assert (Htext : progress_absent c -> text = sc_description c).
      { intros Habs. cbn [format_status_text TelegramStateManager.updater] in Hfmt.
        rewrite (Hc Habs) in Hfmt. unfold progress_absent in Habs.
        rewrite Habs, state_manager_text_absent in Hfmt. congruence. }
      split.
      + intros mid _ _ st _. split; [exact I|].
        cbn [update_status_message TelegramStateManager.updater].
        unfold TelegramStateManager.update_status_message.
        destruct (bot st); [|intros _; constructor].
        destruct (_status_messages st !! mid) as [m|]; [|intros _; constructor].
        destruct (edit_text env m text); intros Habs; cbn;
          repeat constructor; cbn; auto.
      + intros _ st _. split; [exact I|].
        cbn [create_status_message TelegramStateManager.updater].
        unfold TelegramStateManager.create_status_message.
        destruct (bot st); [|intros _; constructor].
        destruct (send_message env _ text _); intros Habs; cbn;
          repeat constructor; cbn; auto.
Qed.

Lemma verbatim_narrate self message sid c :
    telegram_status_updater self = Some (TelegramStateManager.updater env)
    \/ has_channel self sid = false ->
    run_call sid c ->
    keeps (since base (fun _ => True) verbatim_when_absent) (narrate self message c).
Proof.
    intros [Hu|Hno] [Hsid Hkind].
    - apply narrate_keeps, verbatim_update_status; [exact Hu|].
      destruct Hkind as [Hshow [p Hp] _| _ He _ | _ He _ _]; auto.
      unfold progress_absent, effective_progress. rewrite Hshow, Hp. discriminate.
    - intros w Hw. rewrite narrate_silent by (rewrite Hsid; exact Hno). exact Hw.
Qed.

End Verbatim.

(** C1. In every run of [process], started the way the message router
    starts it (with the state manager as status updater) or without an
    updater, every status update whose progress is absent
    ([show_progress=False] or [progress=None]: the error texts and the
    completion report) sends the description itself to the transport, with
    no progress bar or percentage added. *)
Theorem absent_progress_renders_description (env : Env) (self : Agent) (message : Message)
    (background : option string) (with_state_manager : bool) (w : world) :
  let arg := if with_state_manager then Some (TelegramStateManager.updater env) else None in
  exists evs,
    trace (process env self message background arg w).2 = trace w ++ evs /\
    Forall verbatim_when_absent evs.
Proof.
  intros arg.
  enough (H : keeps (since (trace w) (fun _ => True) verbatim_when_absent)
                (process env self message background arg)).
  { exact (proj2 (H w (since_start _ _ w I))). }
  rewrite process_unfold.
  eapply moves_bind_returns with
    (Q := fun started : Agent * option string =>
            telegram_status_updater started.1 = Some (TelegramStateManager.updater env)
            \/ has_channel started.1 started.2 = false).
  - unfold begin, arg. destruct with_state_manager.
    + apply keeps_bind; [|intros; apply moves_ret].
      apply (verbatim_update_status env); [reflexivity | discriminate].
    + apply moves_ret.
  - unfold begin, arg. destruct with_state_manager.
    + apply returns_bind. intros r. apply returns_ret. left. reflexivity.
    + apply returns_ret. right. cbn. unfold has_channel. cbn.
      destruct (telegram_status_updater self); reflexivity.
  - auto.
  - intros [self' sid] Hq. cbn [fst snd] in *. apply run_keeps_calls.
    + intros c Hc. eapply verbatim_narrate; eauto.
    + apply keeps_nonstatus. intros [] He; try exact I. discriminate.
Qed.

(* ===================================================================== *)
(** ** The status message of a run taken alone *)
(* ===================================================================== *)

Lemma first_text_eq :
  TelegramStateManager.format_status_text (Some 0.1%Q)
    (ProcessStep.value ProcessStep.INITIALIZED) "🚀 开始处理..." "" = Ret first_text.
Proof. reflexivity. Qed.

Lemma edits_narrate env base m self message c :
  telegram_status_updater self = Some (TelegramStateManager.updater env) ->
  run_call (Some (PyStr.of_Z (tg_message_id m))) c ->
  keeps (since base (holds_message m) (edits m)) (narrate self message c).
Proof.
  intros Hu [Hsid _]. apply narrate_keeps, keeps_update_status.
  - intros [Hnone | (updater & e & Hu' & Hfmt)]; [congruence|].
    rewrite Hu in Hu'. injection Hu' as <-. discriminate Hfmt.
  - intros updater text Hu' Hfmt. rewrite Hu in Hu'. injection Hu' as <-. split.
    + intros mid Hmid _ st [Hbot Hm]. rewrite Hsid in Hmid. injection Hmid as <-.
      cbn [update_status_message TelegramStateManager.updater].
      unfold TelegramStateManager.update_status_message. rewrite Hbot, Hm.
      destruct (edit_text env m text); cbn; (split; [split; assumption|]);
        (split; [exact Hsid | eexists; reflexivity]).
    + rewrite Hsid, of_Z_truthy. discriminate.
Qed.

(** The first call creates the status message when the transport accepts it. *)
Lemma begin_creates env self message background w m :
  bot (ust w) = true ->
  send_message env (chat_id (metadata message)) first_text
    (Some (message_id (metadata message))) = Ret m ->
  exists self' w',
    begin env self message background (Some (TelegramStateManager.updater env)) w
    = (Ret (self', Some (PyStr.of_Z (tg_message_id m))), w') /\
    telegram_status_updater self' = Some (TelegramStateManager.updater env) /\
    holds_message m (ust w') /\
    trace w' = trace w ++
      [EvStatus first_call
         [SendMessage (chat_id (metadata message)) first_text
            (Some (message_id (metadata message)))]].
Proof.
  intros Hbot Hsend. unfold begin, _update_status, try_except, bind, on_updater.
  cbn [telegram_status_updater first_call status sc_show_progress sc_progress sc_step
       sc_description sc_emoji sc_status_message_id format_status_text
       create_status_message TelegramStateManager.updater].
  rewrite first_text_eq. unfold TelegramStateManager.create_status_message.
  rewrite Hbot, Hsend. cbn. eexists _, _. split; [reflexivity|].
  split; [reflexivity|]. split; [|reflexivity].
  split; [reflexivity | apply lookup_insert_eq].
Qed.

(** A run taken alone: no other run writes to the table of the state
    manager while it goes.  Once its first status call has created the status
    message [m] (the bot is set and the transport accepted the message),
    every later status update of that run carries the id of [m] and edits
    [m] in place: the only transport call it makes is [edit_text] on [m].
    No further message is sent, up to and including the last update. *)
Theorem status_updates_edit_in_place (env : Env) (self : Agent) (message : Message)
    (background : option string) (w : world) (m : tg_message) :
  bot (ust w) = true ->
  send_message env (chat_id (metadata message)) first_text
    (Some (message_id (metadata message))) = Ret m ->
  exists rest,
    trace (process env self message background
             (Some (TelegramStateManager.updater env)) w).2
    = trace w ++
        EvStatus first_call
          [SendMessage (chat_id (metadata message)) first_text
             (Some (message_id (metadata message)))] :: rest /\
    Forall (edits m) rest.
Proof.
  intros Hbot Hsend.
  destruct (begin_creates env self message background w m Hbot Hsend)
    as (self' & w1 & Hbegin & Hu & Hholds & Htrace).
  rewrite process_unfold. unfold bind at 1. rewrite Hbegin. cbn [fst snd].
  assert (H : keeps (since (trace w1) (holds_message m) (edits m))
                (run env self' message (Some (PyStr.of_Z (tg_message_id m))) background)).
  { apply run_keeps_calls.
    - intros c Hc. eapply edits_narrate; eauto.
    - apply keeps_nonstatus. intros [] He; try exact I. discriminate. }
  destruct (H w1 (since_start _ _ w1 Hholds)) as [_ (evs & Hevs & Hall)].
  exists evs. rewrite Hevs, Htrace, <- app_assoc. split; [reflexivity | exact Hall].
Qed.

(* ===================================================================== *)
(** ** Concrete runs *)
(* ===================================================================== *)

(** The run where every collaborator answers. *)
Lemma status_updates_edit_in_place_witness :
  bot (ust Scenario.world0) = true /\
  send_message Scenario.all_fine (chat_id (metadata Scenario.message)) first_text
    (Some (message_id (metadata Scenario.message))) = Ret Scenario.status_message /\
  exists rest,
    trace (Scenario.run Scenario.all_fine).2
    = trace Scenario.world0 ++
        EvStatus first_call
          [SendMessage (chat_id (metadata Scenario.message)) first_text
             (Some (message_id (metadata Scenario.message)))] :: rest /\
    Forall (edits Scenario.status_message) rest.
Proof.
  split; [reflexivity|]. split; [reflexivity|].
  apply (status_updates_edit_in_place Scenario.all_fine (Scenario.agent Scenario.all_fine)
           Scenario.message None Scenario.world0 Scenario.status_message);
    reflexivity.
Defined.

(* ===================================================================== *)
(** ** C3: the completion report at the end of CREATE_TASKS *)
(* ===================================================================== *)

Lemma tasks_lines_returns env n tasks :
  due_dates_parse env tasks -> forall i, exists lines, tasks_lines env n i tasks = Ret lines.
Proof.
  induction 1 as [|t ts [d Hd] _ IH]; intros i; cbn [tasks_lines]; [eauto|].
  unfold task_lines. rewrite Hd. destruct (IH (S i)) as [more ->]. eauto.
Qed.

Lemma build_report_returns env state tasks :
  due_dates_parse env tasks -> exists text, build_report env state tasks = Ret text.
Proof.
  intros H. unfold build_report. destruct tasks as [|t ts]; [eauto|].
  destruct (tasks_lines_returns env (length (t :: ts)) (t :: ts) H 1%nat) as [lines ->].
  eauto.
Qed.

Lemma total_create_task env uid pm t : total (create_task env uid pm t).
Proof. unfold create_task. apply total_try. intros e. apply total_ret. Qed.

Lemma total_create_task_loop env uid pm ts : total (create_task_loop env uid pm ts).
Proof.
  induction ts as [|t ts IH]; cbn [create_task_loop]; [apply total_ret|].
  apply total_bind; [apply total_create_task | intros lines].
  apply total_bind; [exact IH | intros more; apply total_ret].
Qed.

(** A status call whose event is acceptable whatever the transport did. *)
Lemma keeps_update_status_any base (P : event -> Prop) self message c :
  (forall ops, P (EvStatus c ops)) ->
  keeps (since base (fun _ => True) P) (_update_status self message c).
Proof.
  intros Hp w Hw. destruct (update_status_event self message c w) as (r & st & ops & ->).
  apply since_snoc; auto.
Qed.

Lemma finish_with_report_spec env self state w description :
  has_channel self (status_message_id state) = true ->
  build_report env state (default [] (tasks state)) = Ret description ->
  exists ops st,
    finish_with_report env self state w
    = (Ret (with_next Node.END state),
       {| ust := st;
          trace := trace w ++ [EvStatus (report_call description (status_message_id state)) ops] |}).
Proof.
  intros Hch Hrep. unfold finish_with_report, bind, lift. rewrite Hch, Hrep.
  destruct (update_status_event self (message state)
              (report_call description (status_message_id state)) w)
    as (r & st & ops & ->).
  exists ops, st. reflexivity.
Qed.

(** C3, as the code has it.  When CREATE_TASKS runs with a status message to
    write to, and either no task was extracted or the to-do service is
    configured, and every due date parses, then the completion report is
    built and is the last status update of the step, sent without a
    progress value ([progress=None], [show_progress=False]); the step
    returns the state routed to [END].  The outcome of the individual task
    creations plays no part. *)
Theorem create_tasks_emits_report (env : Env) (self : Agent) (state : AgentState) (w : world) :
  has_channel self (status_message_id state) = true ->
  default [] (tasks state) = []
  \/ dida_service env (user_id (metadata (message state))) = true ->
  due_dates_parse env (default [] (tasks state)) ->
  exists description evs ops st,
    build_report env state (default [] (tasks state)) = Ret description /\
    _create_tasks env self state w
    = (Ret (with_next Node.END state),
       {| ust := st;
          trace := trace w ++ evs
                   ++ [EvStatus (report_call description (status_message_id state)) ops] |}) /\
    Forall (fun e => is_report e = false) evs.
Proof.
  intros Hch Hsvc0 Hdue.
  destruct (build_report_returns env state _ Hdue) as [description Hrep].
  exists description. unfold _create_tasks, _create_tasks_try, try_except. cbv zeta.
  destruct (default [] (tasks state)) as [|t ts] eqn:Hts.
  - destruct (finish_with_report_spec env self state w description Hch) as (ops & st & ->).
    { rewrite Hts. exact Hrep. }
    exists [], ops, st. auto.
  - destruct Hsvc0 as [Hnil | Hsvc]; [discriminate|]. rewrite Hsvc.
    set (c := status PROCESSING ProcessStep.CREATING_TASKS (Some 0.98%Q)
                "正在创建任务..." (status_message_id state)).
    set (not_report := fun e => is_report e = false).
    assert (Hn : keeps (since (trace w) (fun _ => True) not_report)
                   (narrate self (message state) c)).
    { apply narrate_keeps, keeps_update_status_any. reflexivity. }
    assert (Hl : keeps (since (trace w) (fun _ => True) not_report)
                   (create_task_loop env (user_id (metadata (message state)))
                      (project_map_of (dida_projects env (user_id (metadata (message state)))))
                      (t :: ts))).
    { apply create_task_loop_keeps. intros e He _.
      apply keeps_emit. destruct e; try reflexivity; discriminate. }
    unfold bind at 1 2.
    destruct (total_narrate self (message state) c w) as ([] & w1 & Hw1).
    specialize (Hn w (since_start _ _ w I)). rewrite Hw1 in *. cbn [snd] in Hn.
    destruct (total_create_task_loop env (user_id (metadata (message state)))
                (project_map_of (dida_projects env (user_id (metadata (message state)))))
                (t :: ts) w1) as (lines & w2 & Hw2).
    specialize (Hl w1 Hn). rewrite Hw2 in *. cbn [snd] in Hl.
    destruct Hl as [_ (evs & Hevs & Hall)].
    destruct (finish_with_report_spec env self state w2 description Hch) as (ops & st & ->).
    { rewrite Hts. exact Hrep. }
    exists evs, ops, st. rewrite Hevs, <- app_assoc. auto.
Qed.

(** C3 does not hold where tasks were extracted and the to-do service is
    not configured: the run enters CREATE_TASKS, which returns early, and
    no report is ever shown. *)
Lemma report_skipped_without_todo_service :
  let evs := trace (Scenario.run Scenario.no_todo_service).2 in
  existsb (enters Node.create_tasks) evs = true /\ existsb is_report evs = false.
Proof. vm_compute. split; reflexivity. Qed.

Lemma create_tasks_emits_report_witness :
  exists description evs ops st,
    build_report Scenario.all_fine state_with_milk (default [] (tasks state_with_milk))
    = Ret description /\
    _create_tasks Scenario.all_fine (routed_agent Scenario.all_fine) state_with_milk
      Scenario.world0
    = (Ret (with_next Node.END state_with_milk),
       {| ust := st;
          trace := trace Scenario.world0 ++ evs
                   ++ [EvStatus (report_call description (status_message_id state_with_milk))
                         ops] |}) /\
    Forall (fun e => is_report e = false) evs.
Proof.
  apply (create_tasks_emits_report Scenario.all_fine (routed_agent Scenario.all_fine)
           state_with_milk Scenario.world0).
  - reflexivity.
  - right. reflexivity.
  - constructor; [|constructor]. exists (Some Scenario.due). reflexivity.
Defined.

(* ===================================================================== *)
(** ** C6: one task that fails does not stop the batch *)
(* ===================================================================== *)



Example batch_of_three :
  (create_task_loop Scenario.all_fine "7" (project_map_of [("Shopping", "p1")])
     [Scenario.stray; Scenario.bread; Scenario.milk] Scenario.world0).1
  = Ret [project_warning Scenario.stray;
         failure_line Scenario.bread "quota exceeded";
         created_line Scenario.all_fine Scenario.milk (Some Scenario.due)].
Proof. vm_compute. reflexivity. Qed.

(* ===================================================================== *)
(** ** C7: exceptions inside a transition function *)
(* ===================================================================== *)

(** A [try]/[except] whose handler always returns: the whole returns, and
    what it returns after an exception in the [try] block is what the
    handler made of it. *)
Lemma try_except_converts {A} (body : M A) (handler : string -> M A) (Q : A -> Prop) :
  (forall e, total (handler e)) ->
  (forall e, returns Q (handler e)) ->
  forall w, exists a w',
    try_except body handler w = (Ret a, w') /\
    forall e w1, body w = (Raise e, w1) -> Q a.
Proof.
  intros Ht Hq w. unfold try_except. destruct (body w) as [[a|e] w1] eqn:E.
  - eexists _, _. split; [reflexivity | discriminate].
  - destruct (Ht e w1) as (a & w' & H). rewrite H. eexists _, _. split; [reflexivity|].
    intros e' w1' [= <- <-]. eapply Hq, H.
Qed.

Lemma total_begin env self message background arg :
  total (begin env self message background arg).
Proof.
  unfold begin. destruct arg as [updater|]; [|apply total_ret].
  apply total_bind; [apply total_update_status | intros; apply total_ret].
Qed.

Lemma total_run env self message sid background :
  total (run env self message sid background).
Proof.
  unfold run. apply total_try. intros e.
  apply total_bind; [apply total_narrate | intros; apply total_ret].
Qed.

(** [process] never raises. *)
Lemma total_process env self message background arg :
  total (process env self message background arg).
Proof.
  rewrite process_unfold. apply total_bind; [apply total_begin | intros; apply total_run].
Qed.

(** C7 does not hold for the precheck: an exception of the analyzer leaves
    [_content_precheck] as an exception, not as state fields. *)
Lemma precheck_raises :
  (_content_precheck Scenario.analyzer_fails (routed_agent Scenario.analyzer_fails)
     (initial_state Scenario.message None (Some "77")) Scenario.world0).1
  = Raise "LLM error: timeout".
Proof. vm_compute. reflexivity. Qed.

(** C7, as the code has it.  [_format_content], [_save_to_notion],
    [_extract_tasks] and [_create_tasks] always return a state; whenever
    their [try] block raises, the state they return has [error_message] set
    and [next] equal to [END].  [_content_precheck] does not convert: an
    exception of its [try] block leaves it unchanged, and it is [process]
    that catches it, so that [process] itself never raises. *)
Theorem exceptions_become_state (env : Env) (self : Agent) (state : AgentState) (w : world) :
  (exists s' w',
      _format_content env self state w = (Ret s', w') /\
      forall e w1, _format_content_try env self state w = (Raise e, w1) -> converted s') /\
  (exists s' w',
      _save_to_notion env self state w = (Ret s', w') /\
      forall e w1, _save_to_notion_try env self state w = (Raise e, w1) -> converted s') /\
  (exists s' w',
      _extract_tasks env self state w = (Ret s', w') /\
      forall e w1, _extract_tasks_try env self state w = (Raise e, w1) -> converted s') /\
  (exists s' w',
      _create_tasks env self state w = (Ret s', w') /\
      forall e w1, _create_tasks_try env self state w = (Raise e, w1) -> converted s') /\
  (forall e w1,
      _content_precheck_try env self state w = (Raise e, w1) ->
      _content_precheck env self state w = (Raise e, w1)) /\
  (forall message background arg,
      exists o w', process env self message background arg w = (Ret o, w')).
Proof.
  repeat split.
  - apply try_except_converts; intros e; unfold _format_content_except.
    + apply total_ret.
    + apply returns_ret. split; [eexists; reflexivity | reflexivity].
  - apply try_except_converts; intros e; unfold _save_to_notion_except; cbv zeta.
    + apply total_bind; [apply total_narrate | intros; apply total_ret].
    + apply returns_bind. intros _. apply returns_ret.
      split; [eexists; reflexivity | reflexivity].
  - apply try_except_converts; intros e; unfold _extract_tasks_except.
    + apply total_bind; [apply total_narrate | intros; apply total_ret].
    + apply returns_bind. intros _. apply returns_ret.
      split; [eexists; reflexivity | reflexivity].
  - apply try_except_converts; intros e; unfold _create_tasks_except.
    + apply total_bind; [apply total_narrate | intros; apply total_ret].
    + apply returns_bind. intros _. apply returns_ret.
      split; [eexists; reflexivity | reflexivity].
  - intros e w1 H. unfold _content_precheck, try_except. rewrite H. reflexivity.
  - intros message background arg. apply total_process.
Qed.

(* ===================================================================== *)
(** ** The route after SAVE_NOTION *)
(* ===================================================================== *)

Lemma before_tasks_all evs :
  Forall (fun e => before_tasks e = true) evs ->
  existsb (enters Node.extract_tasks) evs = false /\
  existsb (enters Node.create_tasks) evs = false /\
  existsb is_report evs = false.
Proof.
  induction 1 as [|e evs He _ (IH1 & IH2 & IH3)]; [auto|].
  cbn [existsb]. rewrite IH1, IH2, IH3. unfold before_tasks in He.
  destruct (enters Node.extract_tasks e), (enters Node.create_tasks e), (is_report e);
    try discriminate; auto.
Qed.

Lemma keeps_narrate_any base (P : event -> Prop) self message c :
  (forall ops, P (EvStatus c ops)) ->
  keeps (since base (fun _ => True) P) (narrate self message c).
Proof. intros H. apply narrate_keeps, keeps_update_status_any, H. Qed.

(** Any computation of the run only adds events. *)
Lemma enter_grows env self n s w :
  exists evs, trace (enter env self n s w).2 = trace w ++ evs.
Proof.
  assert (H : keeps (since (trace w) (fun _ => True) (fun _ => True))
                (enter env self n s)).
  { apply (enter_keeps env self (message s) (status_message_id s)).
    - intros. apply keeps_narrate_any. auto.
    - intros. apply keeps_narrate_any. auto.
    - intros. apply keeps_narrate_any. auto.
    - intros. apply keeps_emit. auto.
    - intros. apply keeps_emit. auto.
    - split; reflexivity. }
  destruct (H w (since_start _ _ w I)) as [_ (evs & Hevs & _)]. eauto.
Qed.

Lemma total_enter env self n s :
  n <> Node.precheck -> total (enter env self n s).
Proof.
  intros Hn. unfold enter. apply total_bind; [intros w; eexists _, _; reflexivity | intros _].
  destruct n; cbn [run_node]; try apply total_ret; try congruence.
  - unfold _format_content. apply total_try. intros e. apply total_ret.
  - unfold _save_to_notion. apply total_try. intros e. unfold _save_to_notion_except.
    cbv zeta. apply total_bind; [apply total_narrate | intros; apply total_ret].
  - unfold _extract_tasks. apply total_try. intros e. unfold _extract_tasks_except.
    apply total_bind; [apply total_narrate | intros; apply total_ret].
  - unfold _create_tasks. apply total_try. intros e. unfold _create_tasks_except.
    apply total_bind; [apply total_narrate | intros; apply total_ret].
Qed.

Lemma opens_task_branch_same s s' :
  same_outcome s s' -> opens_task_branch s' = opens_task_branch s.
Proof.
  intros (_ & Hp & Hs & _). unfold opens_task_branch, precheck_flag. rewrite Hp, Hs.
  reflexivity.
Qed.

Lemma enter_same_outcome env self n s :
  n = Node.extract_tasks \/ n = Node.create_tasks ->
  returns (same_outcome s) (enter env self n s).
Proof.
  intros [-> | ->]; apply enter_returns; cbn [run_node].
  - apply extract_same_outcome.
  - apply create_same_outcome.
Qed.

(** The task branch, once opened: it returns, enters EXTRACT_TASKS first,
    and leaves the router's inputs as they were. *)
Lemma after_save_open env self s w :
  opens_task_branch s = true ->
  exists s' w' evs,
    after_save env self s w = (Ret s', w') /\
    trace w' = trace w ++ EvNode Node.extract_tasks :: evs /\
    opens_task_branch s' = true.
Proof.
  intros Hopen. unfold after_save. fold (opens_task_branch s). rewrite Hopen.
  unfold bind at 1.
  destruct (total_enter env self Node.extract_tasks s ltac:(discriminate) w)
    as (s5 & w5 & H5).
  destruct (total_enter env self Node.create_tasks s5 ltac:(discriminate) w5)
    as (s6 & w6 & H6).
  rewrite H5, H6.
  pose proof (enter_same_outcome env self _ s (or_introl eq_refl) w s5 w5 H5) as Hs5.
  pose proof (enter_same_outcome env self _ s5 (or_intror eq_refl) w5 s6 w6 H6) as Hs6.
  destruct (enter_grows env self Node.create_tasks s5 w5) as [evs6 Hevs6].
  rewrite H6 in Hevs6. cbn [snd] in Hevs6.
  assert (Hevs5 : exists evs5, trace w5 = trace w ++ EvNode Node.extract_tasks :: evs5).
  { revert H5. unfold enter, bind, emit. cbn [run_node].
    set (w0 := {| ust := ust w; trace := trace w ++ [EvNode Node.extract_tasks] |}).
    intros H5.
    assert (Hk : keeps (since (trace w0) (fun _ => True) (fun _ => True))
                   (_extract_tasks env self s)).
    { apply (extract_keeps env self (message s) (status_message_id s)).
      - intros. apply keeps_narrate_any. auto.
      - intros. apply keeps_narrate_any. auto.
      - intros. apply keeps_emit. auto.
      - split; reflexivity. }
    destruct (Hk w0 (since_start _ _ w0 I)) as [_ (evs & Hevs & _)].
    rewrite H5 in Hevs. cbn [snd] in Hevs. exists evs. rewrite Hevs. unfold w0. cbn [trace].
    rewrite <- app_assoc. reflexivity. }
  destruct Hevs5 as [evs5 Hevs5].
  exists s6, w6, (evs5 ++ evs6). split; [reflexivity|]. split.
  - rewrite Hevs6, Hevs5, <- app_assoc. reflexivity.
  - rewrite (opens_task_branch_same _ _ Hs6), (opens_task_branch_same _ _ Hs5). exact Hopen.
Qed.

(** [_route_after_save] answers [extract_tasks] exactly when
    [contains_text] and [save_success] both hold, and [END] otherwise; the
    edge after SAVE_NOTION leads to EXTRACT_TASKS in the first case and in
    the second to what the graph library makes of [END], the end of the
    run or an exception.  In every run of [process] that returns a final
    state, EXTRACT_TASKS is entered exactly when both hold in that state;
    when they do not, CREATE_TASKS is not entered either and no completion
    report is shown.  A run whose graph raised entered neither of the two
    and showed no report. *)
Theorem extract_tasks_route (env : Env) (self : Agent) (message : Message)
    (background : option string) (arg : option Updater) (w : world) :
  (forall s, _route_after_save s
             = if opens_task_branch s then Node.extract_tasks else Node.END) /\
  (forall s, successor env Node.save_notion s
             = if opens_task_branch s then Ret Node.extract_tasks
               else match unlisted env Node.END with
                    | Ret _ => Ret Node.END
                    | Raise e => Raise e
                    end) /\
  exists evs,
    trace (process env self message background arg w).2 = trace w ++ evs /\
    match (process env self message background arg w).1 with
    | Ret (Finished final_state) =>
        existsb (enters Node.extract_tasks) evs = opens_task_branch final_state /\
        (opens_task_branch final_state = false ->
         existsb (enters Node.create_tasks) evs = false /\
         existsb is_report evs = false)
    | _ =>
        existsb (enters Node.extract_tasks) evs = false /\
        existsb (enters Node.create_tasks) evs = false /\
        existsb is_report evs = false
    end.
Proof.
  split; [reflexivity|]. split.
  { intros s. cbn [successor]. unfold conditional, _route_after_save.
    fold (opens_task_branch s). destruct (opens_task_branch s); reflexivity. }
  set (Q := since (trace w) (fun _ => True) (fun e => before_tasks e = true)).
  assert (Hfail : forall self' sid e w4, Q w4 ->
            exists w5 evs,
              (_ <- narrate self' message
                      (without_progress
                         (status FAILED ProcessStep.ERROR (Some 0.0%Q)
                            ("❌ " +++ innermost e) sid)) ;;
               ret (Failed e)) w4 = (Ret (Failed e), w5) /\
              trace w5 = trace w ++ evs /\
              existsb (enters Node.extract_tasks) evs = false /\
              existsb (enters Node.create_tasks) evs = false /\
              existsb is_report evs = false).
  { intros self' sid e w4 Hpre.
    set (c := without_progress
                (status FAILED ProcessStep.ERROR (Some 0.0%Q) ("❌ " +++ innermost e) sid)).
    assert (Hn : keeps Q (narrate self' message c)).
    { apply keeps_narrate_any. reflexivity. }
    specialize (Hn w4 Hpre). unfold bind.
    destruct (total_narrate self' message c w4) as ([] & w5 & H5). rewrite H5 in *.
    cbn [snd] in Hn. destruct Hn as [_ (evs & Hevs & Hall)].
    exists w5, evs. split; [reflexivity|]. split; [exact Hevs|].
    apply before_tasks_all, Hall. }
  rewrite process_unfold. unfold bind at 1 2.
  destruct (total_begin env self message background arg w) as ([self' sid] & w1 & Hb).
  assert (Hq1 : Q w1).
  { assert (Hk : keeps Q (begin env self message background arg)).
    { unfold begin. destruct arg as [updater|]; [|apply moves_ret].
      apply keeps_bind; [|intros; apply moves_ret].
      apply keeps_update_status_any. reflexivity. }
    specialize (Hk w (since_start _ _ w I)). rewrite Hb in Hk. exact Hk. }
  rewrite Hb. cbn [fst snd]. unfold run, try_except. unfold bind at 1 3.
  rewrite !ainvoke_up_to_save. unfold bind at 1 3.
  set (s0 := initial_state message background sid).
  assert (Hpre : keeps Q (up_to_save env self' s0)).
  { apply (up_to_save_keeps env self' message sid).
    - intros c _ _ _ Hst. apply keeps_narrate_any. intros ops.
      unfold before_tasks. cbn. rewrite Hst. reflexivity.
    - intros c _ _ _ Hst. apply keeps_narrate_any. intros ops.
      unfold before_tasks. cbn. rewrite Hst. reflexivity.
    - intros e He Hn. apply keeps_emit. destruct e; try reflexivity; discriminate.
    - intros n H1 H2. apply keeps_emit. destruct n; try reflexivity; congruence.
    - split; reflexivity. }
  specialize (Hpre w1 Hq1).
  destruct (up_to_save env self' s0 w1) as [[s4|e] w4]; cbn [snd] in Hpre.
  - destruct (opens_task_branch s4) eqn:Hopen.
    + destruct (after_save_open env self' s4 w4 Hopen) as (s' & w' & evs' & -> & Ht & Hs').
      unfold ret. cbn [fst snd]. destruct Hpre as [_ (evs & Hevs & _)].
      exists (evs ++ EvNode Node.extract_tasks :: evs'). split.
      * rewrite Ht, Hevs, <- app_assoc. reflexivity.
      * rewrite Hs'. split; [|discriminate].
        rewrite existsb_app. cbn. rewrite orb_true_r. reflexivity.
    + unfold after_save. fold (opens_task_branch s4). rewrite Hopen.
      unfold bind at 1 3, lift. destruct (unlisted env Node.END) as [[]|e].
      * unfold ret. cbn [fst snd].
        destruct Hpre as [_ (evs & Hevs & Hall)]. exists evs. split; [exact Hevs|].
        destruct (before_tasks_all evs Hall) as (H1 & H2 & H3). rewrite Hopen. auto.
      * cbv iota. destruct (Hfail self' sid e w4 Hpre) as (w5 & evs & -> & Hevs & Hno).
        exists evs. split; [exact Hevs | exact Hno].
  - cbv iota. destruct (Hfail self' sid e w4 Hpre) as (w5 & evs & -> & Hevs & Hno).
    exists evs. split; [exact Hevs | exact Hno].
Qed.

Example url_only_run_has_no_report (library : result unit) :
  let evs := trace (Scenario.run (Scenario.only_a_url library)).2 in
  existsb (enters Node.url_summary) evs = true /\
  existsb (enters Node.save_notion) evs = true /\
  existsb (enters Node.extract_tasks) evs = false /\
  existsb is_report evs = false.
Proof. destruct library as [[]|e]; vm_compute; repeat split. Qed.

(* ===================================================================== *)
(** ** C5: a failure of the formatter *)
(* ===================================================================== *)

(** After a failure of the formatter the graph still goes to SAVE_NOTION
    (the edge is unconditional and the [next] key is not read): the step
    shows its progress text, finds no format result and reports that,
    without calling the note store.  The message of the formatter's
    exception is lost, and the task branch after SAVE_NOTION is closed. *)
Lemma format_failure_path (env : Env) (self : Agent) (s : AgentState) (w : world) (e : string) :
  format_content env (text_content s) (user_background self) = Raise e ->
  format_content_result s = None ->
  exists final_state w' evs1 evs2,
    (s <- enter env self Node.format_content s ;;
     enter env self Node.save_notion s) w = (Ret final_state, w') /\
    error_message final_state = Some "格式化结果为空" /\
    save_success final_state = Some false /\
    opens_task_branch final_state = false /\
    trace w' = trace w ++
      [EvNode Node.format_content; EvFormat (text_content s) (user_background self);
       EvNode Node.save_notion] ++ evs1 ++ evs2 /\
    Forall (fun ev => exists ops,
              ev = EvStatus (status PROCESSING ProcessStep.SAVING_TO_NOTION (Some 0.7%Q)
                               "💾 正在保存到 Notion..." (status_message_id s)) ops) evs1 /\
    Forall (fun ev => exists ops,
              ev = EvStatus (without_progress
                               (status FAILED ProcessStep.SAVING_TO_NOTION (Some 0.0%Q)
                                  "❌ 格式化结果为空" (status_message_id s))) ops) evs2.
Proof.
  intros Hfmt Hnone.
  set (c1 := status PROCESSING ProcessStep.SAVING_TO_NOTION (Some 0.7%Q)
               "💾 正在保存到 Notion..." (status_message_id s)).
  set (c2 := without_progress
               (status FAILED ProcessStep.SAVING_TO_NOTION (Some 0.0%Q)
                  "❌ 格式化结果为空" (status_message_id s))).
  assert (Hnar : forall c w0, exists w1 evs,
             narrate self (message s) c w0 = (Ret tt, w1) /\
             trace w1 = trace w0 ++ evs /\
             Forall (fun ev => exists ops, ev = EvStatus c ops) evs).
  { intros c w0.
    assert (Hk : keeps (since (trace w0) (fun _ => True)
                          (fun ev => exists ops, ev = EvStatus c ops))
                   (narrate self (message s) c)).
    { apply keeps_narrate_any. eauto. }
    destruct (Hk w0 (since_start _ _ w0 I)) as [_ (evs & Hevs & Hall)].
    destruct (total_narrate self (message s) c w0) as ([] & w1 & H1).
    rewrite H1 in Hevs. eauto. }
  unfold enter at 1. cbn [run_node]. unfold _format_content, _format_content_try,
    _format_content_except, try_except, bind at 1 2 3, emit at 1, call, ret.
  cbn [trace ust]. rewrite Hfmt.
  unfold enter at 1. cbn [run_node]. unfold _save_to_notion, _save_to_notion_try,
    _save_to_notion_except, try_except, bind at 1 2 3, emit at 1.
  cbn [trace ust format_content_result with_next with_error_message message
       status_message_id]. rewrite Hnone.
  match goal with |- context [narrate self (message s) ?c ?w0] =>
    destruct (Hnar c w0) as (w1 & evs1 & -> & Ht1 & Hall1) end.
  unfold raise, bind at 1.
  change (innermost "格式化结果为空") with "格式化结果为空".
  match goal with |- context [narrate self (message s) ?c ?w0] =>
    destruct (Hnar c w0) as (w2 & evs2 & -> & Ht2 & Hall2) end.
  unfold ret.
  eexists _, w2, evs1, evs2. split; [reflexivity|].
  split; [reflexivity|]. split; [reflexivity|].
  split; [unfold opens_task_branch; apply andb_false_r|].
  split; [|split; assumption].
  rewrite Ht2, Ht1. cbn [trace]. rewrite <- !app_assoc. reflexivity.
Qed.

(** C5 on the run where the formatter raises ["LLM error: timeout"],
    whatever the graph library makes of [END] afterwards.  C5 asks
    for a route straight to the terminal state and for the innermost
    segment, ["timeout"], as the error shown.  The run enters SAVE_NOTION
    instead; the note store is not called and the later steps do not run,
    but the user is shown the saving progress and then
    ["❌ 格式化结果为空"], which is also what the final state keeps as
    [error_message] where the library ends the run at [END]; where it
    raises, the user is shown the library's message last.  The message
    of the formatter is shown in neither case. *)
Theorem formatter_failure_run (library : result unit) :
  let r := Scenario.run (Scenario.formatter_fails library) in
  let evs := trace r.2 in
  let shown :=
    [ "🚀 开始处理...
█░░░░░░░░░ 10%";
      "🔍 正在预检内容...
██░░░░░░░░ 20%";
      "✨ 检测到文本内容
███░░░░░░░ 30%";
      "💾 正在保存到 Notion...
███████░░░ 70%";
      "❌ 格式化结果为空" ] in
  existsb (enters Node.save_notion) evs = true /\
  existsb is_add_note evs = false /\
  existsb (enters Node.extract_tasks) evs = false /\
  innermost "LLM error: timeout" = "timeout" /\
  match library with
  | Ret _ => final_error r.1 = Some "格式化结果为空" /\ sent_texts evs = shown
  | Raise e => r.1 = Ret (Failed e) /\ sent_texts evs = shown ++ ["❌ " +++ innermost e]
  end.
Proof. destruct library as [[]|e]; vm_compute; repeat split. Qed.

(* ===================================================================== *)
(** ** C8: progress never goes back *)
(* ===================================================================== *)

Lemma shown_progress_app evs1 evs2 :
  shown_progress (evs1 ++ evs2) = shown_progress evs1 ++ shown_progress evs2.
Proof. unfold shown_progress. apply flat_map_app. Qed.

Lemma StronglySorted_snoc (l : list Q) (p : Q) :
  StronglySorted Qle l -> Forall (fun q => (q <= p)%Q) l -> StronglySorted Qle (l ++ [p]).
Proof.
  induction 1 as [|q l Hs IH Hq]; intros Hall; cbn.
  - repeat constructor.
  - inversion Hall as [|? ? Hqp Hall']; subst. constructor; [apply IH, Hall'|].
    apply Forall_app. split; [exact Hq | constructor; [exact Hqp | constructor]].
Qed.

Lemma upto_weaken base b b' w : (b <= b')%Q -> upto base b w -> upto base b' w.
Proof.
  intros Hb (evs & Ht & Hs & Hall). exists evs. repeat split; try assumption.
  eapply Forall_impl; [exact Hall|]. intros q Hq. cbn in *. eapply Qle_trans; eauto.
Qed.

Lemma upto_start w b : upto (trace w) b w.
Proof. exists []. rewrite app_nil_r. repeat split; constructor. Qed.

Lemma upto_shown base b w c ops st p :
  effective_progress c = Some p -> (b <= p)%Q ->
  upto base b w -> upto base p {| ust := st; trace := trace w ++ [EvStatus c ops] |}.
Proof.
  intros Hc Hb (evs & Ht & Hs & Hall). exists (evs ++ [EvStatus c ops]). cbn [trace].
  rewrite Ht, <- app_assoc, shown_progress_app. cbn. rewrite Hc. cbn.
  assert (Hall' : Forall (fun q => (q <= p)%Q) (shown_progress evs)).
  { eapply Forall_impl; [exact Hall|]. intros q Hq. cbn in *. eapply Qle_trans; eauto. }
  repeat split.
  - apply StronglySorted_snoc; assumption.
  - apply Forall_app. split; [exact Hall' | constructor; [apply Qle_refl | constructor]].
Qed.

Lemma upto_hidden base b w e st :
  match e with EvStatus c _ => effective_progress c = None | _ => True end ->
  upto base b w -> upto base b {| ust := st; trace := trace w ++ [e] |}.
Proof.
  intros He (evs & Ht & Hs & Hall). exists (evs ++ [e]). cbn [trace].
  rewrite Ht, <- app_assoc, shown_progress_app.
  assert (Hnil : shown_progress [e] = []).
  { destruct e; try reflexivity. cbn. rewrite He. reflexivity. }
  rewrite Hnil, app_nil_r. auto.
Qed.

Lemma update_status_shown base b self message c p :
  effective_progress c = Some p -> (b <= p)%Q ->
  moves (upto base b) (_update_status self message c) (upto base p).
Proof.
  intros Hc Hb w Hw. destruct (update_status_event self message c w) as (r & st & ops & ->).
  cbn [snd]. eapply upto_shown; eauto.
Qed.

Lemma update_status_hidden base b self message c :
  effective_progress c = None ->
  keeps (upto base b) (_update_status self message c).
Proof.
  intros Hc w Hw. destruct (update_status_event self message c w) as (r & st & ops & ->).
  cbn [snd]. apply upto_hidden; assumption.
Qed.

Lemma narrate_shown base b self message c p :
  effective_progress c = Some p -> (b <= p)%Q ->
  moves (upto base b) (narrate self message c) (upto base p).
Proof.
  intros Hc Hb. unfold narrate. destruct (has_channel _ _).
  - eapply moves_bind with (Mid := upto base p);
      [eapply update_status_shown; eauto | auto | intros; apply moves_ret].
  - intros w Hw. cbn. eapply upto_weaken; eauto.
Qed.

Lemma narrate_hidden base b self message c :
  effective_progress c = None -> keeps (upto base b) (narrate self message c).
Proof. intros Hc. apply narrate_keeps, update_status_hidden, Hc. Qed.

Lemma emit_upto base b e : is_status e = false -> keeps (upto base b) (emit e).
Proof.
  intros He w Hw. apply upto_hidden; [|exact Hw]. destruct e; try exact I. discriminate.
Qed.

Lemma call_upto {A} base b e (r : result A) :
  is_status e = false -> keeps (upto base b) (call e r).
Proof. intros He w Hw. exact (emit_upto base b e He w Hw). Qed.

Lemma moves_upto_ret {A} base b b' (a : A) :
  (b <= b')%Q -> moves (upto base b) (ret a) (upto base b').
Proof. intros Hb w Hw. eapply upto_weaken; eauto. Qed.

Lemma moves_upto_raise {A} base b b' e :
  (b <= b')%Q -> moves (upto base b) (@raise A e) (upto base b').
Proof. intros Hb w Hw. eapply upto_weaken; eauto. Qed.

Ltac qle := apply Qle_bool_imp_le; reflexivity.

(** Walks a coroutine, raising the bound at each progress update. *)
Ltac climb :=
  repeat match goal with
    | |- moves _ (let _ := _ in _) _ => cbv zeta
    | |- moves (upto ?base ?b) (try_except _ _) (upto _ ?b') =>
        eapply moves_try with (Mid := upto base b'); [ | intros ? H; exact H | intros ? ]
    | |- moves (upto ?base ?b) (bind (narrate _ _ ?c) _) (upto _ ?b') =>
        let ep := eval cbn in (effective_progress c) in
        match ep with
        | Some ?p =>
            eapply moves_bind with (Mid := upto base p);
            [ eapply narrate_shown; [reflexivity | qle]
            | intros ? H; eapply upto_weaken; [|exact H]; qle
            | intros ? ]
        | None =>
            eapply moves_bind with (Mid := upto base b);
            [ apply narrate_hidden; reflexivity
            | intros ? H; eapply upto_weaken; [|exact H]; qle
            | intros ? ]
        end
    | |- moves (upto ?base ?b) (bind (call _ _) _) (upto _ ?b') =>
        eapply moves_bind with (Mid := upto base b);
        [ apply call_upto; reflexivity
        | intros ? H; eapply upto_weaken; [|exact H]; qle
        | intros ? ]
    | |- moves (upto ?base ?b) (bind (lift _) _) (upto _ ?b') =>
        eapply moves_bind with (Mid := upto base b);
        [ apply moves_lift
        | intros ? H; eapply upto_weaken; [|exact H]; qle
        | intros ? ]
    | |- moves (upto _ _) (ret _) (upto _ _) => apply moves_upto_ret; qle
    | |- moves (upto _ _) (raise _) (upto _ _) => apply moves_upto_raise; qle
    | |- moves _ (match ?x with _ => _ end) _ => destruct x eqn:?
    end.

Section Monotone.
Variables (env : Env) (self : Agent) (base : list event).

Lemma precheck_climbs s :
  moves (upto base 0.1) (_content_precheck env self s) (upto base 0.3).
Proof. unfold _content_precheck, _content_precheck_try. climb. Qed.

Lemma format_climbs s b :
  keeps (upto base b) (_format_content env self s).
Proof.
  unfold _format_content, _format_content_try, _format_content_except.
  apply keeps_try; [|intros; apply moves_ret].
  apply keeps_bind; [apply call_upto; reflexivity | intros; apply moves_ret].
Qed.

Lemma save_climbs s :
  moves (upto base 0.3) (_save_to_notion env self s) (upto base 0.8).
Proof.
  unfold _save_to_notion, _save_to_notion_try, _save_to_notion_except. climb.
Qed.

Lemma extract_climbs s :
  moves (upto base 0.8) (_extract_tasks env self s) (upto base 0.95).
Proof.
  unfold _extract_tasks, _extract_tasks_try, _extract_tasks_except. climb.
Qed.

Lemma create_task_loop_upto uid pm ts b :
  keeps (upto base b) (create_task_loop env uid pm ts).
Proof.
  apply create_task_loop_keeps. intros e He _. apply emit_upto, He.
Qed.

End Monotone.

Section MonotoneRun.
Variables (env : Env) (self : Agent) (base : list event).

Lemma finish_climbs s b : keeps (upto base b) (finish_with_report env self s).
Proof.
  unfold finish_with_report. cbv zeta.
  apply keeps_bind; [|intros; apply moves_ret].
  destruct (has_channel _ _); [|apply moves_ret].
  apply keeps_bind; [apply moves_lift | intros description].
  apply keeps_bind; [|intros; apply moves_ret].
  apply update_status_hidden. reflexivity.
Qed.

Lemma create_climbs s :
  moves (upto base 0.95) (_create_tasks env self s) (upto base 0.98).
Proof.
  unfold _create_tasks, _create_tasks_try, _create_tasks_except. climb.
  - eapply moves_weaken; [apply (finish_climbs s 0.98) | | auto].
    intros w H. eapply upto_weaken; [|exact H]. qle.
  - eapply moves_bind with (Mid := upto base 0.98);
      [apply create_task_loop_upto | auto | intros; apply finish_climbs].
Qed.

Lemma enter_climbs n s b b' :
  (b <= b')%Q ->
  moves (upto base b) (run_node env self n s) (upto base b') ->
  moves (upto base b) (enter env self n s) (upto base b').
Proof.
  intros Hb H. unfold enter. eapply moves_bind with (Mid := upto base b).
  - apply emit_upto. reflexivity.
  - intros w Hw. eapply upto_weaken; eauto.
  - intros _. exact H.
Qed.

Lemma after_save_climbs s :
  moves (upto base 0.8) (after_save env self s) (upto base 0.98).
Proof.
  unfold after_save. destruct (_ && _).
  - eapply moves_bind with (Mid := upto base 0.95).
    + apply enter_climbs; [qle | apply extract_climbs].
    + intros w H. eapply upto_weaken; [|exact H]. qle.
    + intros s'. apply enter_climbs; [qle | apply create_climbs].
  - eapply moves_bind with (Mid := upto base 0.8); [apply moves_lift | |].
    + intros w H. eapply upto_weaken; [|exact H]. qle.
    + intros _. apply moves_upto_ret. qle.
Qed.

Lemma ainvoke_climbs s :
  moves (upto base 0.1) (ainvoke env self s) (upto base 0.98).
Proof.
  assert (H : moves (upto base 0.1)
                (state <- enter env self Node.precheck s ;; after_precheck env self state)
                (upto base 0.98)).
  { unfold after_precheck.
    eapply moves_bind with (Mid := upto base 0.3).
    { apply enter_climbs; [qle | apply precheck_climbs]. }
    { intros w H. eapply upto_weaken; [|exact H]. qle. }
    intros s1.
    eapply moves_bind with (Mid := upto base 0.3).
    { destruct (precheck_flag contains_url s1); [|apply moves_ret].
      apply enter_climbs; [qle | apply moves_ret]. }
    { intros w H. eapply upto_weaken; [|exact H]. qle. }
    intros s2.
    eapply moves_bind with (Mid := upto base 0.3).
    { apply enter_climbs; [qle | apply format_climbs]. }
    { intros w H. eapply upto_weaken; [|exact H]. qle. }
    intros s3.
    eapply moves_bind with (Mid := upto base 0.8).
    { apply enter_climbs; [qle | apply save_climbs]. }
    { intros w H. eapply upto_weaken; [|exact H]. qle. }
    intros s4. apply after_save_climbs. }
  intros w Hw. rewrite ainvoke_unfold. apply H, Hw.
Qed.

Lemma run_climbs message sid background :
  moves (upto base 0.1) (run env self message sid background) (upto base 0.98).
Proof.
  unfold run. eapply moves_try with (Mid := upto base 0.98).
  - eapply moves_bind with (Mid := upto base 0.98);
      [apply ainvoke_climbs | auto | intros; apply moves_ret].
  - auto.
  - intros e. apply keeps_bind; [|intros; apply moves_ret].
    apply narrate_hidden. reflexivity.
Qed.

End MonotoneRun.

Lemma process_climbs env self message background arg base :
  moves (upto base 0) (process env self message background arg) (upto base 0.98).
Proof.
  rewrite process_unfold. eapply moves_bind with (Mid := upto base 0.1).
  - unfold begin. destruct arg as [updater|].
    + eapply moves_bind with (Mid := upto base 0.1);
        [eapply update_status_shown; [reflexivity | qle] | auto | intros; apply moves_ret].
    + apply moves_upto_ret. qle.
  - intros w H. eapply upto_weaken; [|exact H]. qle.
  - intros started. apply run_climbs.
Qed.

(** In every run the progress values that are shown never decrease. *)
Lemma shown_progress_sorted env self message background arg w :
  exists evs,
    trace (process env self message background arg w).2 = trace w ++ evs /\
    StronglySorted Qle (shown_progress evs).
Proof.
  destruct (process_climbs env self message background arg (trace w) w (upto_start w 0%Q))
    as (evs & Ht & Hs & _).
  eauto.
Qed.

Lemma process_classified env self message background arg w :
  exists evs,
    trace (process env self message background arg w).2 = trace w ++ evs /\
    Forall classified evs.
Proof.
  enough (H : keeps (since (trace w) (fun _ => True) classified)
                (process env self message background arg)).
  { exact (proj2 (H w (since_start _ _ w I))). }
  rewrite process_unfold. apply keeps_bind.
  - unfold begin. destruct arg as [updater|]; [|apply moves_ret].
    apply keeps_bind; [|intros; apply moves_ret].
    apply keeps_update_status_any. intros ops.
    apply ProgressCall; [reflexivity | eexists; reflexivity | reflexivity].
  - intros started. apply run_keeps_calls.
    + intros c [_ Hc]. apply keeps_narrate_any. intros ops. exact Hc.
    + apply keeps_nonstatus. intros [] He; try exact I. discriminate.
Qed.

Lemma progress_values_shown evs :
  Forall classified evs -> existsb is_failure evs = false ->
  progress_values evs = shown_progress evs.
Proof.
  induction 1 as [|e evs He _ IH]; [reflexivity|].
  cbn [existsb]. intros Hf. apply orb_false_elim in Hf. destruct Hf as [Hfe Hf].
  specialize (IH Hf). unfold progress_values, shown_progress in *. cbn [flat_map].
  rewrite IH. f_equal.
  destruct e as [c ops| | | | | |]; try reflexivity.
  cbn in He, Hfe |- *. unfold effective_progress.
  destruct He as [Hshow _ _ | _ _ Hst | Hshow _ _ Hp].
  - rewrite Hshow. reflexivity.
  - rewrite Hst in Hfe. discriminate.
  - rewrite Hshow, Hp. reflexivity.
Qed.

Lemma events_since_app w w' evs : trace w' = trace w ++ evs -> events_since w w' = evs.
Proof. intros H. unfold events_since. rewrite H. apply drop_app_length. Qed.

(** C8. In every successful run of [process] (the completion report was
    reached and no step reported a failure), the progress values passed to
    the status channel, in the order of the calls, never decrease; the
    report that ends them carries no progress value. *)
Theorem progress_never_decreases (env : Env) (self : Agent) (message : Message)
    (background : option string) (arg : option Updater) (w : world) :
  successful (events_since w (process env self message background arg w).2) ->
  StronglySorted Qle
    (progress_values (events_since w (process env self message background arg w).2)).
Proof.
  destruct (shown_progress_sorted env self message background arg w) as (evs & Ht & Hs).
  destruct (process_classified env self message background arg w) as (evs2 & Ht2 & Hc).
  rewrite Ht in Ht2. apply app_inv_head in Ht2. subst evs2.
  rewrite (events_since_app _ _ _ Ht). intros [_ Hnofail].
  rewrite progress_values_shown; assumption.
Qed.

Lemma progress_never_decreases_witness :
  StronglySorted Qle
    (progress_values
       (events_since Scenario.world0
          (process Scenario.all_fine (Scenario.agent Scenario.all_fine) Scenario.message
             None (Some (TelegramStateManager.updater Scenario.all_fine))
             Scenario.world0).2)).
Proof.
  apply (progress_never_decreases Scenario.all_fine (Scenario.agent Scenario.all_fine)
           Scenario.message None (Some (TelegramStateManager.updater Scenario.all_fine))
           Scenario.world0).
  split; vm_compute; reflexivity.
Defined.

Example progress_of_the_successful_run :
  progress_values (trace (Scenario.run Scenario.all_fine).2)
  = [0.1; 0.2; 0.3; 0.7; 0.8; 0.95; 0.98]%Q.
Proof. vm_compute. reflexivity. Qed.

(* ===================================================================== *)
(** ** The queue worker *)
(* ===================================================================== *)

Section WorkerProperties.
Context {item World : Type}.
Variable _process_message : item -> World -> TelegramBot.ended * World.



End WorkerProperties.

(* ===================================================================== *)
(** ** The updater of the constructor *)
(* ===================================================================== *)

(** [TelegramStatusUpdater] is what [TelegramBot.initialize] passes to the
    agent's constructor; [process] replaces it by the state manager before
    the first status call.  Its [format_status_text] takes a [float], so a
    call without progress would fail inside the helper and show nothing. *)
Lemma status_updater_shows_nothing_without_progress (env : Env) (self : Agent)
    (message : Message) (c : status_call) (w : world) :
  telegram_status_updater self = Some (TelegramStatusUpdater.updater env) ->
  effective_progress c = None ->
  _update_status self message c w
  = (Ret None, {| ust := ust w; trace := trace w ++ [EvStatus c []] |}).
Proof.
  intros Hu Hc. unfold _update_status, try_except, bind, emit, raise, ret. rewrite Hu.
  fold (effective_progress c). rewrite Hc. reflexivity.
Qed.

(* ===================================================================== *)
(** ** The text of an error *)
(* ===================================================================== *)

(** *** Facts on [split] *)

Lemma str_cons_app (x : ascii) (a b : string) :
  (String x a ++ b)%string = String x (a ++ b).
Proof. reflexivity. Qed.

Lemma str_app_assoc (a b c : string) : ((a ++ b) ++ c)%string = (a ++ b ++ c)%string.
Proof.
  induction a as [|x a IH]; [reflexivity|]. rewrite !str_cons_app, IH. reflexivity.
Qed.

Lemma str_app_nil_r (a : string) : (a ++ "")%string = a.
Proof.
  induction a as [|x a IH]; [reflexivity|]. rewrite str_cons_app, IH. reflexivity.
Qed.

Lemma startswith_app (p a b : string) :
  PyStr.startswith p a = true -> PyStr.startswith p (a ++ b) = true.
Proof.
  revert a. induction p as [|c p IH]; intros a H; [reflexivity|].
  destruct a as [|d a]; [discriminate|]. simpl in *.
  destruct (Ascii.eqb c d); [|discriminate]. simpl in *. apply IH, H.
Qed.

Lemma sep_free_snoc sep pre c rest :
  sep_free sep pre (String c rest) ->
  PyStr.startswith sep (String c rest) = false ->
  sep_free sep (pre ++ String c "") rest.
Proof.
  induction pre as [|d pre IH]; cbn [sep_free]; intros H Hc.
  - change ("" ++ String c "")%string with (String c ""). cbn [sep_free].
    split; [exact Hc | exact I].
  - destruct H as [H1 H2]. rewrite str_cons_app. cbn [sep_free]. split.
    + rewrite <- str_cons_app, str_app_assoc. exact H1.
    + apply IH; assumption.
Qed.

Lemma sep_free_contains sep pre rest :
  sep <> "" -> sep_free sep pre rest -> PyStr.contains sep pre = false.
Proof.
  intros Hsep. induction pre as [|c pre IH]; cbn [sep_free PyStr.contains]; intros H.
  - destruct sep; [congruence | reflexivity].
  - destruct H as [H1 H2]. rewrite (IH H2), orb_false_r.
    destruct (PyStr.startswith sep (String c pre)) eqn:E; [|reflexivity].
    apply (startswith_app _ _ rest) in E. congruence.
Qed.

Lemma string_of_app (l1 l2 : list ascii) :
  string_of_list_ascii (l1 ++ l2)
  = (string_of_list_ascii l1 ++ string_of_list_ascii l2)%string.
Proof.
  induction l1 as [|d l IH]; [reflexivity|].
  cbn [app string_of_list_ascii]. rewrite IH. reflexivity.
Qed.

Lemma string_of_rev_cons (c : ascii) (cur : list ascii) :
  string_of_list_ascii (rev (c :: cur))
  = (string_of_list_ascii (rev cur) ++ String c "")%string.
Proof. cbn [rev]. apply string_of_app. Qed.

Lemma split_go_sep_free (sep : string) (s : string) :
  sep <> "" ->
  forall skip cur,
    (skip <> O -> cur = []) ->
    sep_free sep (string_of_list_ascii (rev cur)) s \/ skip <> O ->
    Forall (fun seg => PyStr.contains sep seg = false) (PyStr.split_go sep skip cur s).
Proof.
  intros Hsep. induction s as [|c s IH]; intros skip cur Hskip Hfree.
  - cbn. constructor; [|constructor]. destruct skip.
    + destruct Hfree as [Hfree|]; [|congruence]. eapply sep_free_contains; eauto.
    + rewrite Hskip by discriminate. cbn. destruct sep; [congruence | reflexivity].
  - cbn [PyStr.split_go]. destruct skip as [|k].
    + destruct Hfree as [Hfree|]; [|congruence].
      destruct (PyStr.startswith sep (String c s)) eqn:E.
      * constructor; [eapply sep_free_contains; eauto|].
        apply IH; [auto|]. destruct (Nat.pred (String.length sep)); [left; exact I | right; discriminate].
      * apply IH; [congruence|]. left. rewrite string_of_rev_cons.
        apply sep_free_snoc; assumption.
    + rewrite (Hskip ltac:(discriminate)). apply IH; [auto|].
      destruct k; [left; exact I | right; discriminate].
Qed.

Lemma split_sep_free (sep s : string) :
  sep <> "" -> Forall (fun seg => PyStr.contains sep seg = false) (PyStr.split sep s).
Proof.
  intros H. apply split_go_sep_free; [exact H | auto | left; exact I].
Qed.

Lemma last_Forall {A} (P : A -> Prop) (l : list A) (d : A) :
  P d -> Forall P l -> P (List.last l d).
Proof.
  intros Hd H. induction H as [|x l Hx Hl IH]; [exact Hd|].
  destruct l; [exact Hx | exact IH].
Qed.

Lemma split_go_nonempty sep s : forall skip cur, PyStr.split_go sep skip cur s <> [].
Proof.
  induction s as [|c s IH]; intros skip cur; cbn [PyStr.split_go]; [discriminate|].
  destruct skip; [|apply IH].
  destruct (PyStr.startswith sep (String c s)); [discriminate | apply IH].
Qed.

Lemma last_cons_nonempty {A} (x d : A) (l : list A) :
  l <> [] -> List.last (x :: l) d = List.last l d.
Proof. destruct l; [congruence | reflexivity]. Qed.

(** The last segment is the end of the string. *)
Lemma split_go_last_suffix (sep : string) (s : string) :
  forall skip cur,
    (skip <> O -> cur = []) ->
    exists pre, (string_of_list_ascii (rev cur) ++ s)%string
                = (pre ++ List.last (PyStr.split_go sep skip cur s) "")%string.
Proof.
  induction s as [|c s IH]; intros skip cur Hskip.
  - cbn [PyStr.split_go List.last]. exists "". rewrite str_app_nil_r. reflexivity.
  - cbn [PyStr.split_go]. destruct skip as [|k].
    + destruct (PyStr.startswith sep (String c s)).
      * destruct (IH (Nat.pred (String.length sep)) []) as [pre Hpre]; [auto|].
        rewrite last_cons_nonempty by apply split_go_nonempty.
        exists (string_of_list_ascii (rev cur) ++ String c pre)%string.
        rewrite str_app_assoc, str_cons_app, <- Hpre. reflexivity.
      * destruct (IH O (c :: cur)) as [pre Hpre]; [congruence|].
        exists pre. rewrite <- Hpre, string_of_rev_cons, str_app_assoc. reflexivity.
    + rewrite (Hskip ltac:(discriminate)).
      destruct (IH k []) as [pre Hpre]; [auto|].
      exists (String c pre). rewrite str_cons_app, <- Hpre. reflexivity.
Qed.

(** X1. The error text that is shown after a failure,
    [error_msg.split(": ")[-1]] when the message holds [": "] and the
    message itself otherwise, is the end of the exception's message and
    never holds the separator [": "]. *)
Theorem innermost_is_the_end_without_separator (e : string) :
  PyStr.contains ": " (innermost e) = false /\
  exists pre, e = pre +++ innermost e.
Proof.
  unfold innermost. destruct (PyStr.contains ": " e) eqn:E.
  - split.
    + unfold PyStr.last_of. apply (last_Forall (fun seg => PyStr.contains ": " seg = false)).
      * reflexivity.
      * apply split_sep_free. discriminate.
    + destruct (split_go_last_suffix ": " e O []) as [pre Hpre]; [auto|].
      exists pre. exact Hpre.
  - split; [exact E | exists ""; reflexivity].
Qed.

(* ===================================================================== *)
(** ** The width of the bar *)
(* ===================================================================== *)







(* ===================================================================== *)
(** ** A run without a status message; what [process] hands back *)
(* ===================================================================== *)

Lemma returns_bind_with {A B} (P : A -> Prop) (Q : B -> Prop) (m : M A) (k : A -> M B) :
  returns P m -> (forall a, P a -> returns Q (k a)) -> returns Q (bind m k).
Proof.
  intros Hm Hk w b w'. unfold bind. destruct (m w) as [[a|e] w1] eqn:E; [|discriminate].
  apply Hk. eapply Hm, E.
Qed.

Lemma returns_weaken {A} (P Q : A -> Prop) (m : M A) :
  returns P m -> (forall a, P a -> Q a) -> returns Q m.
Proof. intros H HPQ w a w' E. apply HPQ. eapply H, E. Qed.

Section AfterEntry.
Variables (env : Env) (self : Agent) (msg : Message) (sid : option string).
Variable Inv : world -> Prop.
Hypothesis Hprogress :
  forall c, sc_status_message_id c = sid ->
    sc_show_progress c = true -> is_Some (sc_progress c) -> sc_status c = PROCESSING ->
    keeps Inv (narrate self msg c).
Hypothesis Herror :
  forall c, sc_status_message_id c = sid ->
    sc_show_progress c = false -> sc_emoji c = "" -> sc_status c = FAILED ->
    keeps Inv (narrate self msg c).
Hypothesis Hreport :
  forall c, sc_status_message_id c = sid ->
    sc_show_progress c = false -> sc_emoji c = "" -> sc_status c = COMPLETED ->
    sc_progress c = None ->
    keeps Inv (narrate self msg c).
Hypothesis Hcall : forall e, is_status e = false -> is_node e = false -> keeps Inv (emit e).
Hypothesis Hnode : forall n, keeps Inv (emit (EvNode n)).

Lemma after_save_keeps s : of_run msg sid s -> keeps Inv (after_save env self s).
Proof.
  intros Hs. unfold after_save. destruct (_ && _).
  - eapply moves_bind_returns with (Q := of_run msg sid) (Mid := Inv).
    + apply (enter_keeps env self msg sid); assumption.
    + apply enter_of_run, Hs.
    + auto.
    + intros s5 H5. apply (enter_keeps env self msg sid); assumption.
  - apply keeps_bind; [apply moves_lift | intros; apply moves_ret].
Qed.

Lemma after_precheck_keeps s : of_run msg sid s -> keeps Inv (after_precheck env self s).
Proof.
  intros Hs. unfold after_precheck.
  eapply moves_bind_returns with (Q := of_run msg sid) (Mid := Inv).
  - destruct (precheck_flag contains_url s);
      [apply (enter_keeps env self msg sid); assumption | apply moves_ret].
  - destruct (precheck_flag contains_url s);
      [apply enter_of_run, Hs | apply returns_ret, Hs].
  - auto.
  - intros s2 H2. eapply moves_bind_returns with (Q := of_run msg sid) (Mid := Inv).
    + apply (enter_keeps env self msg sid); assumption.
    + apply enter_of_run, H2.
    + auto.
    + intros s3 H3. eapply moves_bind_returns with (Q := of_run msg sid) (Mid := Inv).
      * apply (enter_keeps env self msg sid); assumption.
      * apply enter_of_run, H3.
      * auto.
      * intros s4 H4. apply after_save_keeps, H4.
Qed.

Lemma after_entry_keeps s :
  of_run msg sid s ->
  keeps Inv (state <- run_node env self Node.precheck s ;; after_precheck env self state).
Proof.
  intros Hs. eapply moves_bind_returns with (Q := of_run msg sid) (Mid := Inv).
  - cbn [run_node]. apply (precheck_keeps env self msg sid); assumption.
  - cbn [run_node]. intros w a w' E. eapply of_run_same; [exact Hs|].
    eapply precheck_same_run, E.
  - auto.
  - intros s1 H1. apply after_precheck_keeps, H1.
Qed.

End AfterEntry.

(** The run, seen from the entry into [precheck]. *)
Lemma run_enters_precheck env self msg sid background w :
  run env self msg sid background w
  = try_except
      (final_state <- (state <- run_node env self Node.precheck
                                  (initial_state msg background sid) ;;
                       after_precheck env self state) ;;
       ret (Finished final_state))
      (fun e =>
         _ <- narrate self msg
                (without_progress
                   (status FAILED ProcessStep.ERROR (Some 0.0%Q)
                      ("❌ " +++ innermost e) sid)) ;;
         ret (Failed e))
      {| ust := ust w; trace := trace w ++ [EvNode Node.precheck] |}.
Proof.
  unfold run, try_except. unfold bind at 1. rewrite ainvoke_unfold.
  unfold enter, emit, bind. cbn [ust trace].
  destruct (run_node env self Node.precheck _ _) as [[s1|e] w1]; [|reflexivity].
  destruct (after_precheck env self s1 w1) as [[s2|e] w2]; reflexivity.
Qed.

(** X3. When [process] got no status message at its start (no updater was
    passed, or the first status call failed and gave [None]), the run goes
    on all the same: PRECHECK is entered, and from there on
    [_update_status] is never called again. *)
Theorem run_without_status_message_is_silent (env : Env) (self : Agent) (message : Message)
    (background : option string) (arg : option Updater) (w : world)
    (self' : Agent) (w1 : world) :
  begin env self message background arg w = (Ret (self', None), w1) ->
  exists evs,
    trace (process env self message background arg w).2
    = trace w1 ++ EvNode Node.precheck :: evs /\
    Forall (fun e => is_status e = false) evs.
Proof.
  intros Hb. rewrite process_unfold. unfold bind at 1. rewrite Hb. cbn [fst snd].
  rewrite run_enters_precheck.
  set (w2 := {| ust := ust w1; trace := trace w1 ++ [EvNode Node.precheck] |}).
  set (Inv := since (trace w2) (fun _ => True) (fun e => is_status e = false)).
  assert (Hsilent : forall c, sc_status_message_id c = None ->
                              keeps Inv (narrate self' message c)).
  { intros c Hc w0 H0. rewrite narrate_silent; [exact H0|].
    rewrite Hc. unfold has_channel. destruct (telegram_status_updater self'); reflexivity. }
  assert (Hk : keeps Inv
                 (try_except
                    (final_state <- (state <- run_node env self' Node.precheck
                                                (initial_state message background None) ;;
                                     after_precheck env self' state) ;;
                     ret (Finished final_state))
                    (fun e =>
                       _ <- narrate self' message
                              (without_progress
                                 (status FAILED ProcessStep.ERROR (Some 0.0%Q)
                                    ("❌ " +++ innermost e) None)) ;;
                       ret (Failed e)))).
  { apply keeps_try.
    - apply keeps_bind; [|intros; apply moves_ret].
      apply (after_entry_keeps env self' message None).
      + intros; apply Hsilent; assumption.
      + intros; apply Hsilent; assumption.
      + intros; apply Hsilent; assumption.
      + intros e He _. apply keeps_emit, He.
      + intros n. apply keeps_emit. reflexivity.
      + split; reflexivity.
    - intros e. apply keeps_bind; [|intros; apply moves_ret].
      apply Hsilent. reflexivity. }
  destruct (Hk w2 (since_start _ _ w2 I)) as [_ (evs & Hevs & Hall)].
  exists evs. split; [|exact Hall].
  rewrite Hevs. unfold w2. cbn [trace]. rewrite <- app_assoc. reflexivity.
Qed.

Lemma run_without_status_message_is_silent_witness :
  exists evs,
    trace (process Cases.transport_down (Scenario.agent Cases.transport_down)
             Scenario.message None
             (Some (TelegramStateManager.updater Cases.transport_down)) Scenario.world0).2
    = trace (begin Cases.transport_down (Scenario.agent Cases.transport_down)
               Scenario.message None
               (Some (TelegramStateManager.updater Cases.transport_down)) Scenario.world0).2
      ++ EvNode Node.precheck :: evs /\
    Forall (fun e => is_status e = false) evs.
Proof.
  apply (run_without_status_message_is_silent Cases.transport_down
           (Scenario.agent Cases.transport_down) Scenario.message None
           (Some (TelegramStateManager.updater Cases.transport_down)) Scenario.world0
           {| telegram_status_updater :=
                Some (TelegramStateManager.updater Cases.transport_down);
              user_background := "{}" |}).
  vm_compute. reflexivity.
Defined.

(** *** What [process] hands back *)

Lemma run_node_results env self n s :
  returns (fun s' => results s' = results s) (run_node env self n s).
Proof.
  destruct n; cbn [run_node];
    unfold _content_precheck, _content_precheck_try, _url_summary,
      _format_content, _format_content_try, _format_content_except,
      _save_to_notion, _save_to_notion_try, _save_to_notion_except,
      _extract_tasks, _extract_tasks_try, _extract_tasks_except,
      _create_tasks, _create_tasks_try, _create_tasks_except, finish_with_report;
    returns_auto; reflexivity.
Qed.

Lemma enter_results env self n s :
  returns (fun s' => results s' = results s) (enter env self n s).
Proof. apply enter_returns, run_node_results. Qed.

Lemma after_precheck_results env self s :
  returns (fun s' => results s' = results s) (after_precheck env self s).
Proof.
  unfold after_precheck, after_save.
  eapply returns_bind_with with (P := fun s' => results s' = results s).
  { destruct (precheck_flag contains_url s); [apply enter_results | apply returns_ret; reflexivity]. }
  intros s2 H2. eapply returns_bind_with; [apply enter_results|].
  intros s3 H3. cbv beta in H3. eapply returns_bind_with; [apply enter_results|].
  intros s4 H4. cbv beta in H4. destruct (_ && _).
  - eapply returns_bind_with; [apply enter_results|].
    intros s5 H5. cbv beta in H5. eapply returns_weaken; [apply enter_results|].
    intros s6 H6. cbv beta in H6. congruence.
  - apply returns_bind. intros _. apply returns_ret. congruence.
Qed.

Lemma finished_run_has_no_results env self message background arg w final_state w' :
  process env self message background arg w = (Ret (Finished final_state), w') ->
  results final_state = [].
Proof.
  rewrite process_unfold. unfold bind at 1.
  destruct (begin env self message background arg w) as [[[self' sid]|e] w1]; [|discriminate].
  cbn [fst snd]. unfold run, try_except. unfold bind at 1.
  rewrite ainvoke_unfold.
  destruct ((state <- enter env self' Node.precheck (initial_state message background sid) ;;
             after_precheck env self' state) w1) as [[s|e] w2] eqn:E.
  - unfold ret. intros [= <- _].
    assert (Hs : returns (fun s' => results s' = results (initial_state message background sid))
                   (state <- enter env self' Node.precheck
                               (initial_state message background sid) ;;
                    after_precheck env self' state)).
    { eapply returns_bind_with; [apply enter_results|].
      intros s1 H1. cbv beta in H1. eapply returns_weaken; [apply after_precheck_results|].
      intros s2 H2. cbv beta in H2. congruence. }
    exact (Hs _ _ _ E).
  - unfold bind. destruct (narrate _ _ _ _) as [[[]|e'] w3]; unfold ret; intros [=].
Qed.

(** X4. [process] always returns.  What it hands back is the [results] of
    the final state, which no step of the workflow ever fills, or
    [{"error": str(e)}] when the graph raised. *)
Theorem process_hands_back_no_results (env : Env) (self : Agent) (message : Message)
    (background : option string) (arg : option Updater) (w : world) :
  exists o w',
    process env self message background arg w = (Ret o, w') /\
    match o with
    | Finished final_state => results final_state = [] /\ returned o = []
    | Failed e => returned o = [("error", e)]
    end.
Proof.
  destruct (total_process env self message background arg w) as (o & w' & H).
  exists o, w'. split; [exact H|]. destruct o as [final_state|e]; [|reflexivity].
  pose proof (finished_run_has_no_results _ _ _ _ _ _ _ _ H) as Hr.
  split; exact Hr.
Qed.

(* ===================================================================== *)
(** ** [_create_tasks]: its early ends and the project table *)
(* ===================================================================== *)

(** A status call either is skipped or leaves its one event. *)
Lemma narrate_event self message c w :
  exists w' evs,
    narrate self message c w = (Ret tt, w') /\
    trace w' = trace w ++ evs /\
    (evs = [] \/ exists ops, evs = [EvStatus c ops]) /\
    (has_channel self (sc_status_message_id c) = true -> exists ops, evs = [EvStatus c ops]).
Proof.
  unfold narrate. destruct (has_channel self (sc_status_message_id c)).
  - unfold bind. destruct (update_status_event self message c w) as (r & st & ops & ->).
    unfold ret. eexists _, [EvStatus c ops]. repeat split; eauto.
  - exists w, []. rewrite app_nil_r. repeat split; auto. discriminate.
Qed.

(** X5. When tasks were extracted and the user has no Dida365 service,
    [_create_tasks] returns the state with the error [请先配置滴答清单服务]
    and [next] equal to END: nothing is created and no report is sent, at
    most the status [正在创建任务...] was shown. *)
Theorem create_tasks_without_todo_service (env : Env) (self : Agent) (state : AgentState)
    (w : world) (t : Task) (ts : list Task) :
  tasks state = Some (t :: ts) ->
  dida_service env (user_id (metadata (message state))) = false ->
  exists w' evs,
    _create_tasks env self state w
    = (Ret (with_next Node.END (with_error_message "请先配置滴答清单服务" state)), w') /\
    trace w' = trace w ++ evs /\
    (evs = [] \/
     exists ops,
       evs = [EvStatus (status PROCESSING ProcessStep.CREATING_TASKS (Some 0.98%Q)
                          "正在创建任务..." (status_message_id state)) ops]).
Proof.
  intros Ht Hsvc. unfold _create_tasks, _create_tasks_try, try_except. cbv zeta.
  rewrite Ht. cbn [default from_option id]. unfold bind at 1.
  match goal with |- context [narrate self (message state) ?c w] =>
    destruct (narrate_event self (message state) c w) as (w' & evs & -> & Hevs & Hshape & _) end.
  rewrite Hsvc. unfold ret. exists w', evs. auto.
Qed.

Lemma create_tasks_without_todo_service_witness :
  exists w' evs,
    _create_tasks Scenario.no_todo_service (routed_agent Scenario.no_todo_service)
      state_with_milk Scenario.world0
    = (Ret (with_next Node.END (with_error_message "请先配置滴答清单服务" state_with_milk)),
       w') /\
    trace w' = trace Scenario.world0 ++ evs /\
    (evs = [] \/
     exists ops,
       evs = [EvStatus (status PROCESSING ProcessStep.CREATING_TASKS (Some 0.98%Q)
                          "正在创建任务..." (status_message_id state_with_milk)) ops]).
Proof.
  apply (create_tasks_without_todo_service Scenario.no_todo_service
           (routed_agent Scenario.no_todo_service) state_with_milk Scenario.world0
           Scenario.milk []); reflexivity.
Defined.

Lemma tasks_lines_raises env n tasks t e :
  In t tasks -> parse_due env (t_dueDate t) = Raise e ->
  forall i, exists e', tasks_lines env n i tasks = Raise e'.
Proof.
  intros Hin Hraise. induction tasks as [|t' tasks IH]; [destruct Hin|].
  intros i. cbn [tasks_lines]. destruct Hin as [->|Hin].
  - unfold task_lines. cbv zeta. rewrite Hraise. eauto.
  - destruct (task_lines env n i t') as [lines|e1]; [|eauto].
    destruct (IH Hin (S i)) as [e' ->]. eauto.
Qed.

Lemma build_report_raises env state tasks t e :
  In t tasks -> parse_due env (t_dueDate t) = Raise e ->
  exists e', build_report env state tasks = Raise e'.
Proof.
  intros Hin Hraise. unfold build_report. cbv zeta.
  destruct tasks as [|t0 tasks0] eqn:E; [destruct Hin|].
  rewrite <- E in *.
  destruct (tasks_lines_raises env (length tasks) tasks t e Hin Hraise 1%nat) as [e' ->].
  eauto.
Qed.

(** X6. If [datetime.fromisoformat] refuses the due date of one task of the
    batch, the completion report cannot be built: [_create_tasks] shows
    [❌ 创建任务失败: ...] as a FAILED status in place of the report and
    returns the state with that error and [next] equal to END. *)
Theorem unparsable_due_date_replaces_report (env : Env) (self : Agent) (state : AgentState)
    (w : world) (t : Task) (e : string) :
  has_channel self (status_message_id state) = true ->
  dida_service env (user_id (metadata (message state))) = true ->
  In t (default [] (tasks state)) ->
  parse_due env (t_dueDate t) = Raise e ->
  exists e' w' evs ops,
    build_report env state (default [] (tasks state)) = Raise e' /\
    _create_tasks env self state w
    = (Ret (with_next Node.END (with_error_message e' state)), w') /\
    trace w' = trace w ++ evs ++
      [EvStatus (without_progress
                   (status FAILED ProcessStep.ERROR (Some 0.0%Q)
                      ("❌ 创建任务失败: " +++ e') (status_message_id state))) ops] /\
    Forall (fun ev => is_report ev = false) evs.
Proof.
  intros Hch Hsvc Hin Hraise.
  destruct (build_report_raises env state _ t e Hin Hraise) as [e' Hrep].
  exists e'.
  set (Inv := since (trace w) (fun _ => True) (fun ev => is_report ev = false)).
  assert (Htry : exists w1 evs,
             _create_tasks_try env self state w = (Raise e', w1) /\
             trace w1 = trace w ++ evs /\ Forall (fun ev => is_report ev = false) evs).
  { unfold _create_tasks_try. cbv zeta.
    destruct (default [] (tasks state)) as [|t0 ts] eqn:Ets; [destruct Hin|].
    unfold bind at 1.
    match goal with |- context [narrate self (message state) ?c w] =>
      assert (Hn : keeps Inv (narrate self (message state) c))
        by (apply keeps_narrate_any; reflexivity);
      specialize (Hn w (since_start _ _ w I));
      destruct (total_narrate self (message state) c w) as ([] & w0 & E0) end.
    rewrite E0 in *. cbn [snd] in Hn. rewrite Hsvc. unfold bind at 1.
    assert (Hl : keeps Inv (create_task_loop env (user_id (metadata (message state)))
                              (project_map_of
                                 (dida_projects env (user_id (metadata (message state)))))
                              (t0 :: ts))).
    { apply create_task_loop_keeps. intros ev He _. apply keeps_emit.
      destruct ev; try reflexivity; discriminate. }
    specialize (Hl w0 Hn).
    destruct (total_create_task_loop env (user_id (metadata (message state)))
                (project_map_of (dida_projects env (user_id (metadata (message state)))))
                (t0 :: ts) w0) as (lines & w1 & E1).
    rewrite E1 in *. cbn [snd] in Hl.
    unfold finish_with_report. cbv zeta. rewrite Hch, Ets, Hrep.
    unfold bind, lift. destruct Hl as [_ (evs & Hevs & Hall)].
    exists w1, evs. auto. }
  destruct Htry as (w1 & evs & Etry & Hevs & Hall).
  unfold _create_tasks, try_except. rewrite Etry.
  unfold _create_tasks_except. unfold bind.
  match goal with |- context [narrate self (message state) ?c w1] =>
    destruct (narrate_event self (message state) c w1) as (w2 & evs2 & -> & Hevs2 & _ & Hshape) end.
  destruct (Hshape Hch) as [ops ->].
  unfold ret. exists w2, evs, ops. split; [exact Hrep|]. split; [reflexivity|].
  split; [|exact Hall]. rewrite Hevs2, Hevs, <- app_assoc. reflexivity.
Qed.

Lemma unparsable_due_date_replaces_report_witness :
  exists e' w' evs ops,
    build_report Cases.unparsable_date state_with_milk (default [] (tasks state_with_milk))
    = Raise e' /\
    _create_tasks Cases.unparsable_date (routed_agent Cases.unparsable_date)
      state_with_milk Scenario.world0
    = (Ret (with_next Node.END (with_error_message e' state_with_milk)), w') /\
    trace w' = trace Scenario.world0 ++ evs ++
      [EvStatus (without_progress
                   (status FAILED ProcessStep.ERROR (Some 0.0%Q)
                      ("❌ 创建任务失败: " +++ e') (status_message_id state_with_milk)))
         ops] /\
    Forall (fun ev => is_report ev = false) evs.
Proof.
  apply (unparsable_due_date_replaces_report Cases.unparsable_date
           (routed_agent Cases.unparsable_date) state_with_milk Scenario.world0
           Scenario.milk "Invalid isoformat string").
  - reflexivity.
  - reflexivity.
  - simpl. left. reflexivity.
  - reflexivity.
Defined.

(** *** The project table *)

Lemma project_map_of_snoc l name id :
  project_map_of (l ++ [(name, id)]) = <[name := id]> (project_map_of l).
Proof. unfold project_map_of. rewrite foldl_app. reflexivity. Qed.

Lemma project_map_of_lookup_None l name :
  project_map_of l !! name = None <-> ~ In name (map fst l).
Proof.
  induction l as [|[n i] l IH] using rev_ind.
  - cbn. split; [auto | intros _; apply lookup_empty].
  - rewrite project_map_of_snoc, map_app, in_app_iff. cbn.
    destruct (decide (n = name)) as [->|Hne].
    + rewrite lookup_insert_eq. split; [discriminate | intros H; exfalso; apply H; auto].
    + rewrite lookup_insert_ne by exact Hne. rewrite IH. intuition.
Qed.

(** X7. In the project table of the user a later entry for a name replaces
    the earlier ones: a task of that project is sent to the id of the last
    entry, and counts as without project only if that id is empty. *)
Theorem project_table_later_entry_wins (l1 l2 : list (string * string)) (name id : string)
    (task : Task) :
  t_projectId task = Some name ->
  ~ In name (map fst l2) ->
  resolve_project (project_map_of (l1 ++ (name, id) :: l2)) task = Some id /\
  project_missing (project_map_of (l1 ++ (name, id) :: l2)) task
  = negb (PyStr.truthy (Some id)) && PyStr.truthy (Some name).
Proof.
  intros Hname Hnot.
  assert (H : project_map_of (l1 ++ (name, id) :: l2) !! name = Some id).
  { induction l2 as [|[n i] l2 IH] using rev_ind.
    - rewrite project_map_of_snoc. apply lookup_insert_eq.
    - rewrite app_comm_cons, app_assoc, project_map_of_snoc.
      rewrite map_app, in_app_iff in Hnot. cbn in Hnot.
      rewrite lookup_insert_ne by (intros ->; apply Hnot; auto).
      apply IH. intros Hin. apply Hnot. auto. }
  unfold project_missing, resolve_project. rewrite Hname. cbn. rewrite H. auto.
Qed.

Lemma project_table_later_entry_wins_witness :
  resolve_project (project_map_of ([("Shopping", "old")] ++ ("Shopping", "p1") :: [("Work", "p2")]))
    Scenario.milk = Some "p1" /\
  project_missing (project_map_of ([("Shopping", "old")] ++ ("Shopping", "p1") :: [("Work", "p2")]))
    Scenario.milk
  = negb (PyStr.truthy (Some "p1")) && PyStr.truthy (Some "Shopping").
Proof.
  apply (project_table_later_entry_wins [("Shopping", "old")] [("Work", "p2")]
           "Shopping" "p1" Scenario.milk).
  - reflexivity.
  - simpl. intros [H|[]]. discriminate H.
Defined.

(** X8. A task whose [projectId] names no entry of the project table has no
    project id, and unless the name is empty it is skipped with
    [⚠️ 找不到项目]. *)
Theorem unknown_project_is_skipped (l : list (string * string)) (name : string)
    (task : Task) :
  t_projectId task = Some name ->
  ~ In name (map fst l) ->
  resolve_project (project_map_of l) task = None /\
  project_missing (project_map_of l) task = PyStr.truthy (Some name).
Proof.
  intros Hname Hnot. apply project_map_of_lookup_None in Hnot.
  unfold project_missing, resolve_project. rewrite Hname. cbn. rewrite Hnot. auto.
Qed.

Lemma unknown_project_is_skipped_witness :
  resolve_project (project_map_of [("Shopping", "p1")]) Scenario.stray = None /\
  project_missing (project_map_of [("Shopping", "p1")]) Scenario.stray
  = PyStr.truthy (Some "Garden").
Proof.
  apply (unknown_project_is_skipped [("Shopping", "p1")] "Garden" Scenario.stray).
  - reflexivity.
  - simpl. intros [H|[]]. discriminate H.
Defined.

(** X9. In every run of [process], failed or not, the progress values that
    are rendered (those of the status calls with [show_progress]) never
    decrease. *)
Theorem rendered_progress_never_decreases (env : Env) (self : Agent) (message : Message)
    (background : option string) (arg : option Updater) (w : world) :
  StronglySorted Qle
    (shown_progress (events_since w (process env self message background arg w).2)).
Proof.
  destruct (shown_progress_sorted env self message background arg w) as (evs & Ht & Hs).
  rewrite (events_since_app _ _ _ Ht). exact Hs.
Qed.

(* ===================================================================== *)
(** ** Tasks come after the note *)
(* ===================================================================== *)

(** [_save_to_notion] reports success only after the note store returned a
    page. *)
Lemma save_success_means_saved env self s w s' w' :
  _save_to_notion env self s w = (Ret s', w') ->
  save_success s' = Some true ->
  exists args page evs1 evs2,
    trace w' = trace w ++ evs1 ++ EvAddNote args :: evs2 /\
    add_note env args = Ret (Some page).
Proof.
  unfold _save_to_notion, try_except.
  assert (Hexc : forall e w0 s1 w1,
             _save_to_notion_except self s e w0 = (Ret s1, w1) -> save_success s1 <> Some true).
  { intros e w0 s1 w1. unfold _save_to_notion_except, bind.
    destruct (narrate _ _ _ w0) as [[[]|e0] w2]; [|discriminate].
    unfold ret. intros [= <- _]. discriminate. }
  unfold _save_to_notion_try. cbv zeta. unfold bind at 1.
  match goal with |- context [narrate self (message s) ?c w] =>
    destruct (narrate_event self (message s) c w) as (w0 & evs0 & -> & Hevs0 & _ & _) end.
  destruct (format_content_result s) as [fcr|].
  2: { unfold raise. intros H Hs. exfalso. eapply Hexc; eauto. }
  destruct (fr_is_empty fcr).
  { unfold raise. intros H Hs. exfalso. eapply Hexc; eauto. }
  unfold bind at 1, call at 1.
  match goal with |- context [add_note env ?a] => set (args := a) end.
  destruct (add_note env args) as [[page|]|e] eqn:Eadd.
  - unfold bind at 1.
    match goal with |- context [narrate self (message s) ?c ?w1] =>
      destruct (narrate_event self (message s) c w1) as (w2 & evs2 & -> & Hevs2 & _ & _) end.
    unfold ret. intros [= <- <-] _.
    exists args, page, evs0, evs2. split; [|exact Eadd].
    rewrite Hevs2. cbn [trace]. rewrite Hevs0, <- !app_assoc. reflexivity.
  - unfold raise. intros H Hs. exfalso. eapply Hexc; eauto.
  - intros H Hs. exfalso. eapply Hexc; eauto.
Qed.

Lemma enter_grows_eq env self n s w r w' :
  enter env self n s w = (r, w') -> exists evs, trace w' = trace w ++ evs.
Proof. intros E. destruct (enter_grows env self n s w) as [evs H]. rewrite E in H. eauto. Qed.

Lemma up_to_save_saved env self s w s4 w4 :
  up_to_save env self s w = (Ret s4, w4) ->
  save_success s4 = Some true ->
  exists args page evs,
    trace w4 = trace w ++ evs /\ In (EvAddNote args) evs /\
    add_note env args = Ret (Some page).
Proof.
  unfold up_to_save. unfold bind at 1.
  destruct (enter env self Node.precheck s w) as [[s1|e] w1] eqn:E1; [|discriminate].
  apply enter_grows_eq in E1 as [evs1 H1].
  unfold bind at 1.
  destruct ((if precheck_flag contains_url s1
             then enter env self Node.url_summary s1 else ret s1) w1)
    as [[s2|e] w2] eqn:E2; [|discriminate].
  assert (H2 : exists evs, trace w2 = trace w1 ++ evs).
  { destruct (precheck_flag contains_url s1).
    - eapply enter_grows_eq, E2.
    - injection E2 as <- <-. exists []. rewrite app_nil_r. reflexivity. }
  destruct H2 as [evs2 H2].
  unfold bind at 1.
  destruct (enter env self Node.format_content s2 w2) as [[s3|e] w3] eqn:E3; [|discriminate].
  apply enter_grows_eq in E3 as [evs3 H3].
  unfold enter, bind, emit. cbn [run_node].
  intros E Hs.
  destruct (save_success_means_saved _ _ _ _ _ _ E Hs) as (args & page & a & b & Ht & Hadd).
  exists args, page. eexists. split; [|split; [|exact Hadd]].
  - rewrite Ht. cbn [trace]. rewrite H3, H2, H1, <- !app_assoc. reflexivity.
  - rewrite !in_app_iff. right. right. right. right. right. left. reflexivity || (cbn; auto).
Qed.

Lemma after_save_closed env self s w :
  opens_task_branch s = false ->
  after_save env self s w
  = match unlisted env Node.END with
    | Ret _ => (Ret s, w)
    | Raise e => (Raise e, w)
    end.
Proof.
  intros H. unfold after_save. unfold opens_task_branch in H. rewrite H.
  unfold bind, lift, ret. destruct (unlisted env Node.END) as [[]|e]; reflexivity.
Qed.

(** The two ways a run of [process] can go: through the task branch, or
    without any of its events. *)
Lemma process_cases env self message background arg w :
  (exists self' sid w1 s4 w4 s' w' evs0 evs1 evs2,
      begin env self message background arg w = (Ret (self', sid), w1) /\
      trace w1 = trace w ++ evs0 /\
      up_to_save env self' (initial_state message background sid) w1 = (Ret s4, w4) /\
      trace w4 = trace w1 ++ evs1 /\
      opens_task_branch s4 = true /\
      process env self message background arg w = (Ret (Finished s'), w') /\
      trace w' = trace w4 ++ EvNode Node.extract_tasks :: evs2) \/
  (exists evs,
      trace (process env self message background arg w).2 = trace w ++ evs /\
      Forall (fun e => before_tasks e = true) evs).
Proof.
  set (Q := since (trace w) (fun _ => True) (fun e => before_tasks e = true)).
  destruct (total_begin env self message background arg w) as ([self' sid] & w1 & Hb).
  assert (Hq1 : Q w1).
  { assert (Hk : keeps Q (begin env self message background arg)).
    { unfold begin. destruct arg as [updater|]; [|apply moves_ret].
      apply keeps_bind; [|intros; apply moves_ret].
      apply keeps_update_status_any. reflexivity. }
    specialize (Hk w (since_start _ _ w I)). rewrite Hb in Hk. exact Hk. }
  set (s0 := initial_state message background sid).
  assert (Hpre : keeps Q (up_to_save env self' s0)).
  { apply (up_to_save_keeps env self' message sid).
    - intros c _ _ _ Hst. apply keeps_narrate_any. intros ops.
      unfold before_tasks. cbn. rewrite Hst. reflexivity.
    - intros c _ _ _ Hst. apply keeps_narrate_any. intros ops.
      unfold before_tasks. cbn. rewrite Hst. reflexivity.
    - intros e He Hn. apply keeps_emit. destruct e; try reflexivity; discriminate.
    - intros n H1 H2. apply keeps_emit. destruct n; try reflexivity; congruence.
    - split; reflexivity. }
  specialize (Hpre w1 Hq1).
  assert (Hfail : forall e w4, Q w4 ->
            Q ((_ <- narrate self' message
                       (without_progress
                          (status FAILED ProcessStep.ERROR (Some 0.0%Q)
                             ("❌ " +++ innermost e) sid)) ;;
                ret (Failed e)) w4).2).
  { intros e w4 H4. revert w4 H4.
    change (keeps Q (_ <- narrate self' message
                            (without_progress
                               (status FAILED ProcessStep.ERROR (Some 0.0%Q)
                                  ("❌ " +++ innermost e) sid)) ;;
                     ret (Failed e))).
    apply keeps_bind; [|intros; apply moves_ret].
    apply keeps_narrate_any. reflexivity. }
  assert (Hproc : process env self message background arg w
                  = try_except
                      (final_state <- (state <- up_to_save env self' s0 ;;
                                       after_save env self' state) ;;
                       ret (Finished final_state))
                      (fun e =>
                         _ <- narrate self' message
                                (without_progress
                                   (status FAILED ProcessStep.ERROR (Some 0.0%Q)
                                      ("❌ " +++ innermost e) sid)) ;;
                         ret (Failed e)) w1).
  { rewrite process_unfold. unfold bind at 1. rewrite Hb. cbn [fst snd].
    unfold run, try_except. unfold bind at 1. rewrite ainvoke_up_to_save.
    unfold bind at 4. reflexivity. }
  destruct (up_to_save env self' s0 w1) as [[s4|e] w4] eqn:Eup; cbn [snd] in Hpre.
  - destruct (opens_task_branch s4) eqn:Hopen.
    + left. destruct (after_save_open env self' s4 w4 Hopen) as (s' & w' & evs' & Eaf & Ht & _).
      destruct Hq1 as [_ (evs0 & Hevs0 & _)]. destruct Hpre as [_ (evs & Hevs & _)].
      exists self', sid, w1, s4, w4, s', w', evs0.
      assert (Hw4 : exists evs1, trace w4 = trace w1 ++ evs1).
      { destruct (up_to_save_keeps env self' message sid
                    (since (trace w1) (fun _ => True) (fun _ => True))) with (s := s0) (w := w1)
          as [_ (evs1 & H1 & _)].
        - intros. apply keeps_narrate_any. auto.
        - intros. apply keeps_narrate_any. auto.
        - intros. apply keeps_emit. auto.
        - intros. apply keeps_emit. auto.
        - split; reflexivity.
        - apply since_start. exact I.
        - rewrite Eup in H1. eauto. }
      destruct Hw4 as [evs1 Hevs1].
      exists evs1, evs'.
      assert (Hp : process env self message background arg w = (Ret (Finished s'), w')).
      { rewrite Hproc. unfold try_except, bind. rewrite Eup, Eaf. reflexivity. }
      auto 10.
    + right. rewrite Hproc. unfold try_except. unfold bind at 1 2. rewrite Eup.
      rewrite after_save_closed by exact Hopen.
      destruct (unlisted env Node.END) as [[]|e].
      * unfold ret. cbn [snd]. exact (proj2 Hpre).
      * cbv iota. exact (proj2 (Hfail e w4 Hpre)).
  - right. rewrite Hproc. unfold try_except. unfold bind at 1 2. rewrite Eup.
    cbv iota. exact (proj2 (Hfail e w4 Hpre)).
Qed.

(** X10. A run enters EXTRACT_TASKS only if it called the note store and the
    store returned a page. *)
Theorem tasks_extracted_only_after_note_saved (env : Env) (self : Agent) (message : Message)
    (background : option string) (arg : option Updater) (w : world) :
  existsb (enters Node.extract_tasks)
    (events_since w (process env self message background arg w).2) = true ->
  exists args page,
    In (EvAddNote args) (events_since w (process env self message background arg w).2) /\
    add_note env args = Ret (Some page).
Proof.
  destruct (process_cases env self message background arg w)
    as [(self' & sid & w1 & s4 & w4 & s' & w' & evs0 & evs1 & evs2 &
         Hb & H0 & Hup & H1 & Hopen & Hp & H2) | (evs & Hevs & Hall)].
  - intros _. rewrite Hp. cbn [snd].
    assert (Hs : save_success s4 = Some true).
    { unfold opens_task_branch in Hopen. apply andb_true_iff in Hopen as [_ Hs].
      destruct (save_success s4) as [[]|]; try discriminate. reflexivity. }
    destruct (up_to_save_saved _ _ _ _ _ _ Hup Hs) as (args & page & evs & Ht & Hin & Hadd).
    exists args, page. split; [|exact Hadd].
    rewrite (events_since_app w w' (evs0 ++ evs ++ EvNode Node.extract_tasks :: evs2)).
    + rewrite !in_app_iff. auto.
    + rewrite H2, Ht, H0, <- !app_assoc. reflexivity.
  - rewrite (events_since_app _ _ _ Hevs).
    destruct (before_tasks_all evs Hall) as (H & _). rewrite H. discriminate.
Qed.

Lemma tasks_extracted_only_after_note_saved_witness :
  exists args page,
    In (EvAddNote args)
      (events_since Scenario.world0
         (process Scenario.all_fine (Scenario.agent Scenario.all_fine) Scenario.message
            None (Some (TelegramStateManager.updater Scenario.all_fine))
            Scenario.world0).2) /\
    add_note Scenario.all_fine args = Ret (Some page).
Proof.
  apply (tasks_extracted_only_after_note_saved Scenario.all_fine
           (Scenario.agent Scenario.all_fine) Scenario.message None
           (Some (TelegramStateManager.updater Scenario.all_fine)) Scenario.world0).
  vm_compute. reflexivity.
Defined.

(* ===================================================================== *)
(** ** C4: the route to [END] *)
(* ===================================================================== *)

Lemma narrate_without_channel self message c w :
  has_channel self (sc_status_message_id c) = false -> narrate self message c w = (Ret tt, w).
Proof. intros H. unfold narrate. rewrite H. reflexivity. Qed.

(** C4.  [_route_after_save] answers [END] when [contains_text] and
    [save_success] do not both hold, but the path map of the edge after
    SAVE_NOTION does not list [END].  With a graph library that refuses an
    answer the map does not list, a run that comes to this route does not
    end there: the graph raises, [process] shows the text of that exception
    as a failure, when there is a status message, and returns it as an
    error.  EXTRACT_TASKS and CREATE_TASKS are not entered and no report is
    shown. *)
Theorem route_to_END_fails_the_run (env : Env) (self : Agent) (message : Message)
    (background : option string) (arg : option Updater) (w : world)
    (e : string) (self' : Agent) (sid : option string) (w1 : world)
    (s4 : AgentState) (w4 : world) :
  unlisted env Node.END = Raise e ->
  begin env self message background arg w = (Ret (self', sid), w1) ->
  up_to_save env self' (initial_state message background sid) w1 = (Ret s4, w4) ->
  opens_task_branch s4 = false ->
  _route_after_save s4 = Node.END /\
  successor env Node.save_notion s4 = Raise e /\
  exists w5 shown,
    process env self message background arg w = (Ret (Failed e), w5) /\
    trace w5 = trace w4 ++ shown /\
    (has_channel self' sid = true ->
     exists ops,
       shown = [EvStatus (without_progress
                            (status FAILED ProcessStep.ERROR (Some 0.0%Q)
                               ("❌ " +++ innermost e) sid)) ops]) /\
    (has_channel self' sid = false -> shown = []) /\
    existsb (enters Node.extract_tasks) (events_since w w5) = false /\
    existsb (enters Node.create_tasks) (events_since w w5) = false /\
    existsb is_report (events_since w w5) = false.
Proof.
  intros Hlib Hb Eup Hopen.
  split. { unfold _route_after_save. fold (opens_task_branch s4). rewrite Hopen. reflexivity. }
  split. { cbn [successor]. unfold conditional, _route_after_save.
           fold (opens_task_branch s4). rewrite Hopen, Hlib. reflexivity. }
  set (c := without_progress
              (status FAILED ProcessStep.ERROR (Some 0.0%Q) ("❌ " +++ innermost e) sid)).
  assert (Hproc : process env self message background arg w
                  = (_ <- narrate self' message c ;; ret (Failed e)) w4).
  { rewrite process_unfold. unfold bind at 1. rewrite Hb. cbn [fst snd].
    unfold run, try_except. unfold bind at 1. rewrite ainvoke_up_to_save.
    unfold bind at 1. rewrite Eup. rewrite after_save_closed by exact Hopen.
    rewrite Hlib. reflexivity. }
  destruct (narrate_event self' message c w4) as (w5 & shown & Hn & Ht & _ & Hch).
  exists w5, shown.
  assert (Hp : process env self message background arg w = (Ret (Failed e), w5)).
  { rewrite Hproc. unfold bind. rewrite Hn. reflexivity. }
  split; [exact Hp|]. split; [exact Ht|]. split; [exact Hch|]. split.
  { intros Hno. rewrite (narrate_without_channel self' message c w4 Hno) in Hn.
    injection Hn as <-. apply (app_inv_head (trace w4)). rewrite app_nil_r. symmetry. exact Ht. }
  destruct (process_cases env self message background arg w)
    as [(self2 & sid2 & w12 & s42 & w42 & s' & w' & evs0 & evs1 & evs2 &
         Hb2 & _ & Eup2 & _ & Hopen2 & _) | (evs & Hevs & Hall)].
  - rewrite Hb in Hb2. injection Hb2 as <- <- <-. rewrite Eup in Eup2.
    injection Eup2 as <- <-. congruence.
  - rewrite Hp in Hevs. cbn [snd] in Hevs.
    rewrite (events_since_app _ _ _ Hevs). apply before_tasks_all, Hall.
Qed.

Lemma route_to_END_fails_the_run_witness :
  exists w5 ops,
    process (Scenario.only_a_url (Raise "'__end__'"))
      (Scenario.agent (Scenario.only_a_url (Raise "'__end__'"))) Scenario.message None
      (Some (TelegramStateManager.updater (Scenario.only_a_url (Raise "'__end__'"))))
      Scenario.world0
    = (Ret (Failed "'__end__'"), w5) /\
    last (trace w5)
    = Some (EvStatus (without_progress
                        (status FAILED ProcessStep.ERROR (Some 0.0%Q) "❌ '__end__'"
                           (Some "77"))) ops) /\
    existsb is_add_note (trace w5) = true.
Proof.
  set (env := Scenario.only_a_url (Raise "'__end__'")).
  set (self' := {| telegram_status_updater := Some (TelegramStateManager.updater env);
                   user_background := "{}" |}).
  set (w1 := (begin env (Scenario.agent env) Scenario.message None
                (Some (TelegramStateManager.updater env)) Scenario.world0).2).
  set (up := up_to_save env self' (initial_state Scenario.message None (Some "77")) w1).
  destruct (route_to_END_fails_the_run env (Scenario.agent env) Scenario.message None
              (Some (TelegramStateManager.updater env)) Scenario.world0 "'__end__'"
              self' (Some "77") w1
              (match up.1 with Ret s => s | Raise _ => initial_state Scenario.message None None end)
              up.2)
    as (_ & _ & w5 & shown & Hp & Ht & Hch & _).
  - reflexivity.
  - vm_compute. reflexivity.
  - vm_compute. reflexivity.
  - vm_compute. reflexivity.
  - destruct (Hch eq_refl) as [ops Hs]. exists w5, ops. split; [exact Hp|].
    rewrite Ht, Hs. split.
    + rewrite last_snoc. reflexivity.
    + rewrite existsb_app. apply orb_true_iff. left. vm_compute. reflexivity.
Defined.

(* ===================================================================== *)
(** ** C2: two runs and one table of status messages *)
(* ===================================================================== *)

(** PRECHECK returns when the analyzer answers. *)
Lemma precheck_returns env self s w precheck_result :
  url_text_analyzer env (text_content s) = Ret precheck_result ->
  exists s1 w1, enter env self Node.precheck s w = (Ret s1, w1).
Proof.
  intros Ha. unfold enter, emit. unfold bind at 1. cbn [run_node].
  unfold _content_precheck, try_except, _content_precheck_try. cbv zeta.
  unfold bind at 1.
  match goal with |- context [narrate ?a ?b ?c ?w0] =>
    destruct (total_narrate a b c w0) as ([] & w2 & ->) end.
  unfold bind at 1. unfold call at 1. rewrite Ha.
  unfold bind at 1.
  match goal with |- context [narrate ?a ?b ?c ?w0] =>
    destruct (total_narrate a b c w0) as ([] & w3 & ->) end.
  eexists _, _. reflexivity.
Qed.

(** The status calls of a run whose status message [m] is in the table
    edit [m]: in a node, and in all that follows PRECHECK. *)
Lemma enter_edits env self msg m base n s :
  telegram_status_updater self = Some (TelegramStateManager.updater env) ->
  of_run msg (Some (PyStr.of_Z (tg_message_id m))) s ->
  keeps (since base (holds_message m) (edits m)) (enter env self n s).
Proof.
  intros Hu Hs. apply (enter_keeps env self msg (Some (PyStr.of_Z (tg_message_id m)))).
  - intros c H1 H2 H3 H4. eapply edits_narrate; [exact Hu|].
    split; [exact H1 | apply ProgressCall; assumption].
  - intros c H1 H2 H3 H4. eapply edits_narrate; [exact Hu|].
    split; [exact H1 | apply ErrorCall; assumption].
  - intros c H1 H2 H3 H4 H5. eapply edits_narrate; [exact Hu|].
    split; [exact H1 | apply ReportCall; assumption].
  - intros e He _. apply keeps_nonstatus; [|exact He].
    intros [] He'; try exact I. discriminate.
  - intros k. apply keeps_nonstatus; [|reflexivity].
    intros [] He'; try exact I. discriminate.
  - exact Hs.
Qed.

Lemma after_precheck_edits env self msg m base s :
  telegram_status_updater self = Some (TelegramStateManager.updater env) ->
  of_run msg (Some (PyStr.of_Z (tg_message_id m))) s ->
  keeps (since base (holds_message m) (edits m)) (after_precheck env self s).
Proof.
  intros Hu Hs.
  apply (after_precheck_keeps env self msg (Some (PyStr.of_Z (tg_message_id m)))).
  - intros c H1 H2 H3 H4. eapply edits_narrate; [exact Hu|].
    split; [exact H1 | apply ProgressCall; assumption].
  - intros c H1 H2 H3 H4. eapply edits_narrate; [exact Hu|].
    split; [exact H1 | apply ErrorCall; assumption].
  - intros c H1 H2 H3 H4 H5. eapply edits_narrate; [exact Hu|].
    split; [exact H1 | apply ReportCall; assumption].
  - intros e He _. apply keeps_nonstatus; [|exact He].
    intros [] He'; try exact I. discriminate.
  - intros k. apply keeps_nonstatus; [|reflexivity].
    intros [] He'; try exact I. discriminate.
  - exact Hs.
Qed.

(** C2.  The table of the state manager is keyed by [str(message_id)]
    alone and shared by all runs.  When the first status message of another
    run gets the [message_id] that the status message [m] of this run has,
    in whatever chat, while this run awaits, the entry of [m] is replaced:
    up to there the status updates of this run edit [m], and from there on
    every one of them edits the message [m'] of the other run. *)
Theorem overtaken_run_edits_the_other_message (env : Env) (self : Agent)
    (this other : Message) (w : world) (m m' : tg_message)
    (precheck_result : PrecheckResult) :
  bot (ust w) = true ->
  send_message env (chat_id (metadata this)) first_text
    (Some (message_id (metadata this))) = Ret m ->
  send_message env (chat_id (metadata other)) first_text
    (Some (message_id (metadata other))) = Ret m' ->
  tg_message_id m' = tg_message_id m ->
  url_text_analyzer env (default "" (data_text this)) = Ret precheck_result ->
  exists before after,
    trace (overtaken env self this other w).2
    = trace w ++
        EvStatus first_call
          [SendMessage (chat_id (metadata this)) first_text
             (Some (message_id (metadata this)))]
        :: before ++
        EvStatus first_call
          [SendMessage (chat_id (metadata other)) first_text
             (Some (message_id (metadata other)))]
        :: after /\
    Forall (edits m) before /\
    Forall (edits m') after.
Proof.
  intros Hbot Hsend Hsend' Hid Hana.
  destruct (begin_creates env self this None w m Hbot Hsend)
    as (self1 & w1 & Hbegin & Hu1 & Hholds1 & Htrace1).
  set (sid := Some (PyStr.of_Z (tg_message_id m))) in *.
  set (s0 := initial_state this None sid).
  assert (Hs0 : of_run this sid s0) by (split; reflexivity).
  destruct (precheck_returns env self1 s0 w1 precheck_result Hana) as (s1 & w2 & Hpre).
  assert (H2 : since (trace w1) (holds_message m) (edits m) w2).
  { pose proof (enter_edits env self1 this m (trace w1) Node.precheck s0 Hu1 Hs0 w1
                  (since_start _ _ w1 Hholds1)) as H.
    rewrite Hpre in H. exact H. }
  assert (Hs1 : of_run this sid s1).
  { eapply (enter_of_run env self1 this sid); [exact Hs0 | exact Hpre]. }
  destruct H2 as [[Hbot2 _] (before & Hbefore & Hall)].
  destruct (begin_creates env self1 other None w2 m' Hbot2 Hsend')
    as (self2 & w3 & Hbegin' & Hu2 & Hholds3 & Htrace3).
  assert (Hs1' : of_run this (Some (PyStr.of_Z (tg_message_id m'))) s1).
  { rewrite Hid. exact Hs1. }
  assert (Hrest : exists after,
             trace (overtaken env self this other w).2 = trace w3 ++ after /\
             Forall (edits m') after).
  { unfold overtaken. unfold bind at 1. rewrite Hbegin. cbn [fst snd]. fold sid. fold s0.
    unfold try_except. unfold bind at 1. rewrite Hpre.
    unfold bind at 1. rewrite Hbegin'. cbn [fst snd].
    pose proof (after_precheck_edits env self2 this m' (trace w3) s1 Hu2 Hs1' w3
                  (since_start _ _ w3 Hholds3)) as H.
    unfold bind at 1.
    destruct (after_precheck env self2 s1 w3) as [[final|e] w4]; cbn [snd] in H.
    - unfold ret. cbn [snd]. destruct H as [_ H]. exact H.
    - cbv iota.
      assert (Hk : keeps (since (trace w3) (holds_message m') (edits m'))
                     (_ <- narrate self1 this
                             (without_progress
                                (status FAILED ProcessStep.ERROR (Some 0.0%Q)
                                   ("❌ " +++ innermost e) sid)) ;;
                      ret (Failed e))).
      { apply keeps_bind; [|intros; apply moves_ret].
        eapply edits_narrate; [exact Hu1|]. split.
        - unfold sid. rewrite Hid. reflexivity.
        - apply ErrorCall; reflexivity. }
      destruct (Hk w4 H) as [_ Hk']. exact Hk'. }
  destruct Hrest as (after & Hafter & Hall').
  exists before, after. split; [|split; assumption].
  rewrite Hafter, Htrace3, Hbefore, Htrace1, <- !app_assoc. reflexivity.
Qed.

Lemma overtaken_run_edits_the_other_message_witness :
  exists before after,
    trace (overtaken Cases.same_id (Scenario.agent Cases.same_id) Cases.group_message
             Scenario.message Scenario.world0).2
    = trace Scenario.world0 ++
        EvStatus first_call [SendMessage "-1001" first_text (Some "9")]
        :: before ++
        EvStatus first_call [SendMessage "42" first_text (Some "5")]
        :: after /\
    Forall (edits {| tg_chat_id := "-1001"; tg_message_id := 500 |}) before /\
    Forall (edits {| tg_chat_id := "42"; tg_message_id := 500 |}) after.
Proof.
  apply (overtaken_run_edits_the_other_message Cases.same_id (Scenario.agent Cases.same_id)
           Cases.group_message Scenario.message Scenario.world0
           {| tg_chat_id := "-1001"; tg_message_id := 500 |}
           {| tg_chat_id := "42"; tg_message_id := 500 |} Scenario.text_only);
    reflexivity.
Defined.

(** The chats the transport calls of the two runs go to: the status
    message of the first run is sent and edited twice, then the second run
    begins, and the five updates that the first run still makes go to the
    chat of the second. *)
Example overtaken_run_in_two_chats :
  sent_chats
    (trace (overtaken Cases.same_id (Scenario.agent Cases.same_id) Cases.group_message
              Scenario.message Scenario.world0).2)
  = ["-1001"; "-1001"; "-1001"; "42"; "42"; "42"; "42"; "42"; "42"].
Proof. vm_compute. reflexivity. Qed.

(* ===================================================================== *)
(** ** TelegramStateManager and the message queue *)
(* ===================================================================== *)

(** *** The user states *)

(** X11. After [set_state], [get_state] gives the stored data at every instant
    up to the expiry and [None] after it, removing the entry for good; a
    timeout of [0] counts as absent, so that the default of the manager is
    used; the states of other users are left as they are. *)
Theorem user_state_lives_until_it_expires {Data : Type} (expires_at : Z -> Q -> result Z)
    (self self' : @UserStates.t Data) (now0 user : Z) (d : Data) (timeout_arg : option Q) :
  UserStates.set_state expires_at now0 self user d timeout_arg = Ret self' ->
  exists instant,
    expires_at now0 (UserStates.effective_timeout self timeout_arg) = Ret instant /\
    (forall seconds, Qeq_bool seconds 0 = true ->
       UserStates.effective_timeout self (Some seconds) = UserStates.timeout self) /\
    (forall now, now <= instant ->
       UserStates.get_state now self' user
       = (Some {| UserStates.data := d; UserStates.expires := instant |}, self')) /\
    (forall now, instant < now ->
       UserStates.get_state now self' user = (None, UserStates.clear_state self' user) /\
       forall later,
         UserStates.get_state later (UserStates.clear_state self' user) user
         = (None, UserStates.clear_state self' user)) /\
    (forall other now, other <> user ->
       (UserStates.get_state now self' other).1 = (UserStates.get_state now self other).1).
Proof.
  unfold UserStates.set_state.
  destruct (expires_at _ _) as [instant|e] eqn:Etd; [|discriminate].
  intros [= <-]. exists instant. split; [reflexivity|]. split; [|split; [|split]].
  - intros seconds H. unfold UserStates.effective_timeout. rewrite H. reflexivity.
  - intros now Hnow. unfold UserStates.get_state. cbn [UserStates._states].
    rewrite lookup_insert_eq. cbn [UserStates.expires].
    destruct (instant <? now) eqn:E; [apply Z.ltb_lt in E; lia | reflexivity].
  - intros now Hnow. split.
    + unfold UserStates.get_state. cbn [UserStates._states].
      rewrite lookup_insert_eq. cbn [UserStates.expires].
      destruct (instant <? now) eqn:E; [reflexivity | apply Z.ltb_ge in E; lia].
    + intros later. unfold UserStates.get_state, UserStates.clear_state.
      cbn [UserStates._states]. rewrite lookup_delete_eq. reflexivity.
  - intros other now Hne. unfold UserStates.get_state. cbn [UserStates._states].
    rewrite lookup_insert_ne by congruence.
    destruct (UserStates._states self !! other) as [state|]; [|reflexivity].
    destruct (UserStates.expires state <? now); reflexivity.
Qed.

Lemma user_state_lives_until_it_expires_witness :
  exists instant,
    Cases.expires_at 0 (UserStates.effective_timeout Cases.no_states (Some 0%Q))
    = Ret instant /\
    instant = 60000000.
Proof.
  destruct (user_state_lives_until_it_expires Cases.expires_at Cases.no_states
              {| UserStates.timeout := 60;
                 UserStates._states :=
                   <[7 := {| UserStates.data := "setting"; UserStates.expires := 60000000 |}]> ∅ |}
              0 7 "setting" (Some 0%Q)) as (instant & H & _).
  - vm_compute. reflexivity.
  - exists instant. split; [exact H|]. vm_compute in H. congruence.
Defined.

(** *** The table of status messages *)

(** X12. A status message created through the state manager is stored under
    [str(message.message_id)], found by [get_status_message] and edited by
    [update_status_message].  [delete_status_message] removes the entry
    before it deletes the message, so that the entry is gone even when the
    deletion fails; updating or deleting that id again answers [False]. *)
Theorem status_message_table_round_trip (env : Env) (delete : tg_message -> result unit)
    (st : updater_state) (chat text reply : string) (m : tg_message) :
  bot st = true ->
  send_message env chat text (Some reply) = Ret m ->
  let id := PyStr.of_Z (tg_message_id m) in
  exists st1 st2 deleted,
    TelegramStateManager.create_status_message env chat text reply st
    = (Ret (Some {| handle_message_id := id |}), st1, [SendMessage chat text (Some reply)]) /\
    StatusMessages.get_status_message st1 id = Some m /\
    (forall text',
       TelegramStateManager.update_status_message env id text' st1
       = (Ret (match edit_text env m text' with Ret _ => true | Raise _ => false end),
          st1, [EditText m text'])) /\
    StatusMessages.delete_status_message delete id st1 = (Ret deleted, st2, [m]) /\
    (deleted = true <-> exists u, delete m = Ret u) /\
    StatusMessages.get_status_message st2 id = None /\
    (forall text',
       TelegramStateManager.update_status_message env id text' st2 = (Ret false, st2, [])) /\
    StatusMessages.delete_status_message delete id st2 = (Ret false, st2, []).
Proof.
  intros Hbot Hsend id. destruct st as [b table]. cbn [bot] in Hbot. subst b.
  set (st := {| bot := true; _status_messages := table |}).
  set (st1 := {| bot := bot st; _status_messages := <[id := m]> (_status_messages st) |}).
  set (st2 := {| bot := bot st1;
                 _status_messages := base.delete id (_status_messages st1) |}).
  exists st1, st2, (match delete m with Ret _ => true | Raise _ => false end).
  assert (H1 : _status_messages st1 !! id = Some m) by apply lookup_insert_eq.
  assert (H2 : _status_messages st2 !! id = None) by apply lookup_delete_eq.
  repeat split.
  - unfold TelegramStateManager.create_status_message. cbn [bot st]. rewrite Hsend. reflexivity.
  - exact H1.
  - intros text'. unfold TelegramStateManager.update_status_message.
    cbn [bot st1 st]. rewrite H1. destruct (edit_text env m text'); reflexivity.
  - unfold StatusMessages.delete_status_message. cbn [bot st1 st]. rewrite H1.
    destruct (delete m); reflexivity.
  - destruct (delete m) as [u|e]; [eauto | discriminate].
  - intros [u Hu]. rewrite Hu. reflexivity.
  - exact H2.
  - intros text'. unfold TelegramStateManager.update_status_message.
    cbn [bot st1 st2 st]. rewrite H2. reflexivity.
  - unfold StatusMessages.delete_status_message. cbn [bot st1 st2 st]. rewrite H2.
    reflexivity.
Qed.

Lemma status_message_table_round_trip_witness :
  exists st1 st2 deleted,
    TelegramStateManager.create_status_message Scenario.all_fine "42" "hello" "5"
      (ust Scenario.world0)
    = (Ret (Some {| handle_message_id := "77" |}), st1, [SendMessage "42" "hello" (Some "5")]) /\
    StatusMessages.delete_status_message (fun _ => Ret tt) "77" st1
    = (Ret deleted, st2, [Scenario.status_message]) /\
    StatusMessages.get_status_message st2 "77" = None.
Proof.
  destruct (status_message_table_round_trip Scenario.all_fine (fun _ => Ret tt)
              (ust Scenario.world0) "42" "hello" "5" Scenario.status_message)
    as (st1 & st2 & deleted & H1 & _ & _ & H4 & _ & H6 & _).
  - reflexivity.
  - reflexivity.
  - exists st1, st2, deleted. split; [exact H1|]. split; [exact H4 | exact H6].
Defined.

(** *** The message records *)

(** X13. The message ids recorded for a user are given back in the order they
    were added, after those recorded before, whatever was recorded for
    other users in between; after [clear_user_messages] the list is
    empty. *)
Theorem user_messages_are_kept_in_order (added : list (Z * Z)) (um : gmap Z (list Z))
    (user : Z) :
  let um' := foldl (fun m p => UserMessages.add_message m p.1 p.2) um added in
  UserMessages.get_user_messages um' user
  = UserMessages.get_user_messages um user
    ++ map snd (List.filter (fun p => Z.eqb p.1 user) added) /\
  UserMessages.get_user_messages (UserMessages.clear_user_messages um' user) user = [].
Proof.
  cbv zeta. split.
  - revert um. induction added as [|[u i] added IH]; intros um.
    + cbn. rewrite app_nil_r. reflexivity.
    + cbn [foldl List.filter fst snd]. rewrite IH.
      unfold UserMessages.get_user_messages, UserMessages.add_message.
      destruct (Z.eqb_spec u user) as [->|Hne].
      * rewrite lookup_insert_eq. cbn [default from_option id map]. 
        rewrite <- app_assoc. reflexivity.
      * rewrite lookup_insert_ne by exact Hne. reflexivity.
  - unfold UserMessages.get_user_messages, UserMessages.clear_user_messages.
    rewrite lookup_delete_eq. reflexivity.
Qed.

(** *** The pool of workers *)

Section PoolProperties.
Context {item : Type}.
Variable has_message : item -> bool.






End PoolProperties.


(* ===================================================================== *)
(** ** MessageRouter *)
(* ===================================================================== *)

(** *** The router *)

Section RouterProperties.
Context {V : Type}.
Variable env : Env.
Variable reply_answer : MessageRouter.incoming -> MessageRouter.reply -> result unit.
Variable settings_handle_message : MessageRouter.update -> @MessageRouter.R V unit.
Variable media_processor_process : Message -> @MessageRouter.R V unit.
Variable attachments : MessageRouter.incoming -> result (list string).

Lemma check_settings_false now u (w w1 : @MessageRouter.router_world V) :
  MessageRouter._check_settings_state reply_answer settings_handle_message now u w
  = (Ret false, w1) ->
  MessageRouter.agent_world w1 = MessageRouter.agent_world w /\
  MessageRouter.replies w1 = MessageRouter.replies w.
Proof.
  unfold MessageRouter._check_settings_state.
  destruct (MessageRouter.upd_message u) as [message|].
  2: { intros [= <-]. auto. }
  destruct (PyStr.truthy (MessageRouter.in_text message)).
  2: { intros [= <-]. auto. }
  destruct (MessageRouter.upd_effective_user u) as [user_id|]; [|discriminate].
  destruct (UserStates.get_state now (MessageRouter.states w) user_id) as [state states'].
  destruct state as [entry|].
  2: { intros [= <-]. auto. }
  destruct (bool_decide _).
  2: { intros [= <-]. auto. }
  unfold MessageRouter.rtry, MessageRouter.rbind, MessageRouter.rret.
  destruct (settings_handle_message u _) as [[[]|e] w2]; [discriminate|].
  unfold MessageRouter.reply_text. destruct (reply_answer _ _); discriminate.
Qed.

(** X15. A message of a media group is never processed: [route] calls
    [_handle_media_group_message], which is not defined, so the sender gets
    [❌ 处理消息时出现错误，请稍后重试] and the agent does not run. *)
Theorem media_group_message_gets_the_generic_error (self : MessageRouter.router) (now : Z)
    (u : MessageRouter.update) (message : MessageRouter.incoming)
    (w : @MessageRouter.router_world V) :
  MessageRouter.upd_message u = Some message ->
  PyStr.truthy (MessageRouter.in_media_group_id message) = true ->
  (MessageRouter._check_settings_state reply_answer settings_handle_message now u w).1
  = Ret false ->
  let generic := {| MessageRouter.reply_text_ := "❌ 处理消息时出现错误，请稍后重试";
                    MessageRouter.reply_to_message_id := None |} in
  exists w',
    MessageRouter.route env reply_answer settings_handle_message media_processor_process
      attachments self now u w = (reply_answer message generic, w') /\
    MessageRouter.agent_world w' = MessageRouter.agent_world w /\
    MessageRouter.replies w' = MessageRouter.replies w ++ [generic].
Proof.
  intros Hm Hgroup Hcheck generic.
  destruct (MessageRouter._check_settings_state reply_answer settings_handle_message now u w)
    as [r w1] eqn:E. cbn [fst] in Hcheck. subst r.
  destruct (check_settings_false _ _ _ _ E) as [Ha Hr].
  unfold MessageRouter.route, MessageRouter._route_try. rewrite Hm.
  unfold MessageRouter.rtry, MessageRouter.rbind. rewrite E, Hgroup.
  unfold MessageRouter.rraise, MessageRouter.reply_text.
  eexists. split; [reflexivity|]. cbn. rewrite Ha, Hr. auto.
Qed.

(** X16. After the run of the agent the router replies only when [process]
    handed back an error: a run that finished gets no reply, and a run that
    raised is answered [✅ 处理完成] followed by the text of the error. *)
Theorem router_reply_after_a_run (self : MessageRouter.router) (agent : Agent)
    (message : MessageRouter.incoming) (converted : Message)
    (w w0 : @MessageRouter.router_world V) (o : outcome) (aw : world) :
  MessageRouter.media_processor self = true ->
  MessageRouter.note_taker self = Some agent ->
  MessageRouter._convert_to_message attachments message = Ret converted ->
  (if MessageRouter.is_media (MessageRouter._get_message_type message)
   then media_processor_process converted else MessageRouter.rret tt) w = (Ret tt, w0) ->
  process env agent converted None (Some (TelegramStateManager.updater env))
    (MessageRouter.agent_world w0) = (Ret o, aw) ->
  let after := MessageRouter._process_message env reply_answer media_processor_process
                 attachments self message w in
  MessageRouter.agent_world after.2 = aw /\
  match o with
  | Finished _ =>
      after.1 = Ret tt /\ MessageRouter.replies after.2 = MessageRouter.replies w0
  | Failed e =>
      let done := {| MessageRouter.reply_text_ :=
                       "✅ 处理完成

" +++ (if PyBlank.blank e then "" else e +++ "
");
                     MessageRouter.reply_to_message_id :=
                       Some (MessageRouter.in_message_id message) |} in
      MessageRouter.replies after.2
      = MessageRouter.replies w0 ++ done ::
          match reply_answer message done with
          | Ret _ => []
          | Raise e' =>
              [{| MessageRouter.reply_text_ := "❌ 处理失败: " +++ e';
                  MessageRouter.reply_to_message_id :=
                    Some (MessageRouter.in_message_id message) |}]
          end
  end.
Proof.
  intros Hmp Hnt Hconv Hmedia Hrun.
  assert (E : MessageRouter._process_message env reply_answer media_processor_process
                attachments self message w
              = MessageRouter.rtry
                  (match returned o with
                   | [] => MessageRouter.rret tt
                   | results =>
                       MessageRouter.reply_text reply_answer message
                         (MessageRouter.result_text results)
                         (Some (MessageRouter.in_message_id message))
                   end)
                  (fun e =>
                     MessageRouter.reply_text reply_answer message ("❌ 处理失败: " +++ e)
                       (Some (MessageRouter.in_message_id message)))
                  {| MessageRouter.agent_world := aw;
                     MessageRouter.replies := MessageRouter.replies w0;
                     MessageRouter.states := MessageRouter.states w0 |}).
  { unfold MessageRouter._process_message, MessageRouter._process_message_try,
      MessageRouter.rtry.
    rewrite Hmp, Hnt, Hconv. unfold MessageRouter.rbind at 1. rewrite Hmedia.
    unfold MessageRouter.rbind at 1, MessageRouter.on_agent. rewrite Hrun. reflexivity. }
  cbv zeta. rewrite E. clear E. unfold MessageRouter.rtry.
  destruct o as [final_state|e].
  - cbn [returned]. rewrite (finished_run_has_no_results _ _ _ _ _ _ _ _ Hrun).
    cbn. auto.
  - cbn [returned]. unfold MessageRouter.reply_text, MessageRouter.result_text.
    cbn [foldl snd MessageRouter.agent_world MessageRouter.replies MessageRouter.states].
    destruct (PyBlank.blank e); destruct (reply_answer message _) as [[]|e'];
      cbn; rewrite <- ?app_assoc; auto.
Qed.

End RouterProperties.

Lemma media_group_message_gets_the_generic_error_witness :
  exists w',
    MessageRouter.route Scenario.all_fine Cases.reply_answer Cases.settings_handle_message
      Cases.media_processor_process Cases.attachments (Cases.router Scenario.all_fine) 0
      (Cases.update_of Cases.album_photo) Cases.router_world0
    = (Ret tt, w') /\
    MessageRouter.agent_world w' = Scenario.world0 /\
    MessageRouter.replies w'
    = [{| MessageRouter.reply_text_ := "❌ 处理消息时出现错误，请稍后重试";
          MessageRouter.reply_to_message_id := None |}].
Proof.
  apply (media_group_message_gets_the_generic_error Scenario.all_fine Cases.reply_answer
           Cases.settings_handle_message Cases.media_processor_process Cases.attachments
           (Cases.router Scenario.all_fine) 0 (Cases.update_of Cases.album_photo)
           Cases.album_photo Cases.router_world0); reflexivity.
Defined.

Lemma router_reply_after_a_run_witness :
  MessageRouter.replies
    (MessageRouter._process_message Scenario.analyzer_fails Cases.reply_answer
       Cases.media_processor_process Cases.attachments
       (Cases.router Scenario.analyzer_fails) Cases.text_message Cases.router_world0).2
  = [{| MessageRouter.reply_text_ := "✅ 处理完成

LLM error: timeout
";
        MessageRouter.reply_to_message_id := Some 5 |}].
Proof.
  apply (router_reply_after_a_run Scenario.analyzer_fails Cases.reply_answer
           Cases.media_processor_process Cases.attachments
           (Cases.router Scenario.analyzer_fails) (Scenario.agent Scenario.analyzer_fails)
           Cases.text_message Scenario.message Cases.router_world0 Cases.router_world0
           (Failed "LLM error: timeout")
           (process Scenario.analyzer_fails (Scenario.agent Scenario.analyzer_fails)
              Scenario.message None
              (Some (TelegramStateManager.updater Scenario.analyzer_fails))
              Scenario.world0).2).
  - reflexivity.
  - reflexivity.
  - reflexivity.
  - reflexivity.
  - vm_compute. reflexivity.
Defined.

(** *** A run on the empty text *)

Section EmptyText.
Variables (env : Env) (self : Agent) (base : list event).

Ltac text_leaf :=
  first [ apply keeps_narrate_any; intros; exact I
        | apply keeps_call; cbn; first [assumption | reflexivity | exact I] ].

Lemma create_task_loop_on_empty_text uid pm ts :
  keeps (since base (fun _ => True) on_empty_text) (create_task_loop env uid pm ts).
Proof.
  induction ts as [|t ts IH]; cbn [create_task_loop]; walk; try exact IH.
  unfold create_task. walk; text_leaf.
Qed.

Lemma run_node_on_empty_text n s :
  text_content s = "" ->
  keeps (since base (fun _ => True) on_empty_text) (run_node env self n s).
Proof.
  intros Ht. destruct n; cbn [run_node]; try apply moves_ret.
  - unfold _content_precheck, _content_precheck_try. rewrite Ht. walk; text_leaf.
  - unfold _format_content, _format_content_try, _format_content_except. rewrite Ht.
    walk; text_leaf.
  - unfold _save_to_notion, _save_to_notion_try, _save_to_notion_except. rewrite Ht.
    walk; text_leaf.
  - unfold _extract_tasks, _extract_tasks_try, _extract_tasks_except. rewrite Ht.
    walk; text_leaf.
  - unfold _create_tasks, _create_tasks_try, _create_tasks_except, finish_with_report.
    walk; first [ text_leaf | apply create_task_loop_on_empty_text
                | apply keeps_update_status_any; intros; exact I ].
Qed.

Lemma run_node_keeps_text n s :
  returns (fun s' => text_content s' = text_content s) (run_node env self n s).
Proof.
  destruct n; cbn [run_node];
    unfold _content_precheck, _content_precheck_try, _url_summary,
      _format_content, _format_content_try, _format_content_except,
      _save_to_notion, _save_to_notion_try, _save_to_notion_except,
      _extract_tasks, _extract_tasks_try, _extract_tasks_except,
      _create_tasks, _create_tasks_try, _create_tasks_except, finish_with_report;
    returns_auto; reflexivity.
Qed.

Lemma enter_on_empty_text n s :
  text_content s = "" ->
  keeps (since base (fun _ => True) on_empty_text) (enter env self n s).
Proof.
  intros Ht. unfold enter. apply keeps_bind; [apply keeps_emit; exact I | intros _].
  apply run_node_on_empty_text, Ht.
Qed.

Lemma enter_keeps_empty_text n s :
  text_content s = "" -> returns (fun s' => text_content s' = "") (enter env self n s).
Proof.
  intros Ht. apply enter_returns. eapply returns_weaken; [apply run_node_keeps_text|].
  intros s' H. cbv beta in H. congruence.
Qed.

Lemma ainvoke_on_empty_text s :
  text_content s = "" ->
  keeps (since base (fun _ => True) on_empty_text) (ainvoke env self s).
Proof.
  intros Ht.
  assert (H : keeps (since base (fun _ => True) on_empty_text)
                (state <- enter env self Node.precheck s ;; after_precheck env self state)).
  { eapply moves_bind_returns with (Q := fun s' => text_content s' = "");
      [apply enter_on_empty_text, Ht | apply enter_keeps_empty_text, Ht | auto |].
    intros s1 H1. unfold after_precheck.
    eapply moves_bind_returns with (Q := fun s' => text_content s' = "");
      [ destruct (precheck_flag contains_url s1);
          [apply enter_on_empty_text, H1 | apply moves_ret]
      | destruct (precheck_flag contains_url s1);
          [apply enter_keeps_empty_text, H1 | apply returns_ret, H1]
      | auto |].
    intros s2 H2.
    eapply moves_bind_returns with (Q := fun s' => text_content s' = "");
      [apply enter_on_empty_text, H2 | apply enter_keeps_empty_text, H2 | auto |].
    intros s3 H3.
    eapply moves_bind_returns with (Q := fun s' => text_content s' = "");
      [apply enter_on_empty_text, H3 | apply enter_keeps_empty_text, H3 | auto |].
    intros s4 H4. unfold after_save. destruct (_ && _).
    - eapply moves_bind_returns with (Q := fun s' => text_content s' = "");
        [apply enter_on_empty_text, H4 | apply enter_keeps_empty_text, H4 | auto |].
      intros s5 H5. apply enter_on_empty_text, H5.
    - apply keeps_bind; [apply moves_lift | intros; apply moves_ret]. }
  intros w Hw. rewrite ainvoke_unfold. apply H, Hw.
Qed.

End EmptyText.

(** X17. For a message that is not a text message the converted message has
    no [text], so every collaborator of the workflow (the analysis, the
    formatting, the extraction of tasks, the note that is saved) is given
    the empty text. *)
Theorem media_message_runs_on_the_empty_text (env : Env)
    (attachments : MessageRouter.incoming -> result (list string))
    (message : MessageRouter.incoming) (converted : Message)
    (self : Agent) (background : option string) (arg : option Updater) (w : world) :
  MessageRouter._get_message_type message <> MessageRouter.TEXT ->
  MessageRouter._convert_to_message attachments message = Ret converted ->
  data_text converted = None /\
  Forall on_empty_text (events_since w (process env self converted background arg w).2).
Proof.
  intros Htype Hconv.
  assert (Hd : data_text converted = None).
  { unfold MessageRouter._convert_to_message in Hconv.
    destruct (attachments message); [|discriminate]. injection Hconv as <-.
    cbn [data_text]. destruct (MessageRouter._get_message_type message); congruence. }
  split; [exact Hd|].
  assert (H : keeps (since (trace w) (fun _ => True) on_empty_text)
                (process env self converted background arg)).
  { rewrite process_unfold. apply keeps_bind.
    - unfold begin. destruct arg as [updater|]; [|apply moves_ret].
      apply keeps_bind; [|intros; apply moves_ret].
      apply keeps_update_status_any. intros; exact I.
    - intros [self' sid]. cbn [fst snd]. unfold run. apply keeps_try.
      + apply keeps_bind; [|intros; apply moves_ret].
        apply ainvoke_on_empty_text. cbn [initial_state text_content]. rewrite Hd. reflexivity.
      + intros e. apply keeps_bind; [|intros; apply moves_ret].
        apply keeps_narrate_any. intros; exact I. }
  destruct (H w (since_start _ _ w I)) as [_ (evs & Hevs & Hall)].
  rewrite (events_since_app _ _ _ Hevs). exact Hall.
Qed.

Lemma media_message_runs_on_the_empty_text_witness :
  Forall on_empty_text
    (events_since Scenario.world0
       (process Scenario.all_fine (Scenario.agent Scenario.all_fine)
          {| data_text := None;
             metadata := {| message_id := "5"; platform := "telegram";
                            chat_id := "42"; user_id := "7" |};
             files := [] |}
          None (Some (TelegramStateManager.updater Scenario.all_fine)) Scenario.world0).2).
Proof.
  apply (media_message_runs_on_the_empty_text Scenario.all_fine Cases.attachments
           Cases.voice
           {| data_text := None;
              metadata := {| message_id := "5"; platform := "telegram";
                             chat_id := "42"; user_id := "7" |};
              files := [] |}
           (Scenario.agent Scenario.all_fine) None
           (Some (TelegramStateManager.updater Scenario.all_fine)) Scenario.world0).
  - vm_compute. discriminate.
  - reflexivity.
Defined.

(* ===================================================================== *)
(** ** C9: the worker and the failure message *)
(* ===================================================================== *)

Section WorkerOfTheBot.
Context {V : Type}.
Variable env : Env.
Variable reply_answer : MessageRouter.incoming -> MessageRouter.reply -> result unit.
Variable settings_handle_message : MessageRouter.update -> @MessageRouter.R V unit.
Variable media_processor_process : Message -> @MessageRouter.R V unit.
Variable attachments : MessageRouter.incoming -> result (list string).


End WorkerOfTheBot.

(** The worker on a photo of an album, a message the router cannot
    process: the sender is answered, nothing reaches the worker, which
    awaits the next unit. *)
Example worker_on_an_album_photo :
  let run := fun unit_ : Z * MessageRouter.update =>
               TelegramBot._process_message Scenario.all_fine Cases.reply_answer
                 Cases.settings_handle_message Cases.media_processor_process
                 Cases.attachments (Cases.router Scenario.all_fine) unit_.1 unit_.2 in
  let r := TelegramBot._message_worker run [(0, Cases.update_of Cases.album_photo)]
             {| TelegramBot.the_world := Cases.router_world0;
                TelegramBot.log := [];
                TelegramBot.unfinished_tasks := 1 |} in
  r.1 = TelegramBot.Waiting /\
  TelegramBot.log r.2 = [] /\
  MessageRouter.replies (TelegramBot.the_world r.2) = [generic_failure].
Proof. vm_compute. repeat split. Qed.

(** The same where the chat takes no reply: the failure message is sent
    all the same, what sending it raised is logged by the worker, and the
    worker awaits the next unit. *)
Example worker_where_the_reply_fails :
  let run := fun unit_ : Z * MessageRouter.update =>
               TelegramBot._process_message Scenario.all_fine Cases.no_reply
                 Cases.settings_handle_message Cases.media_processor_process
                 Cases.attachments (Cases.router Scenario.all_fine) unit_.1 unit_.2 in
  let r := TelegramBot._message_worker run [(0, Cases.update_of Cases.album_photo)]
             {| TelegramBot.the_world := Cases.router_world0;
                TelegramBot.log := [];
                TelegramBot.unfinished_tasks := 1 |} in
  r.1 = TelegramBot.Waiting /\
  TelegramBot.log r.2 = ["消息处理失败: Timed out"] /\
  MessageRouter.replies (TelegramBot.the_world r.2) = [generic_failure].
Proof. vm_compute. repeat split. Qed.

(* ===================================================================== *)
(** ** ConfigManager *)
(* ===================================================================== *)

Section ConfigProperties.
Import ConfigManager.
Variable write_error : string -> option string.

Lemma lookup_store key value d : lookup key (store key value d) = Some value.
Proof.
  induction d as [|[k v] d IH]; cbn.
  - rewrite String.eqb_refl. reflexivity.
  - destruct (String.eqb k key) eqn:E; cbn; rewrite E; [reflexivity | exact IH].
Qed.

Lemma lookup_remove key d : lookup key (remove key d) = None.
Proof.
  unfold remove. induction d as [|[k v] d IH]; cbn; [reflexivity|].
  destruct (String.eqb k key) eqn:E; cbn; [exact IH|]. rewrite E. exact IH.
Qed.

Lemma store_truthy key value d : truthy (YDict (store key value d)) = true.
Proof. destruct d as [|[k v] d]; cbn; [reflexivity|]. destruct (String.eqb k key); reflexivity. Qed.

Lemma follow_assign keys value : keys <> [] -> forall current config,
  assign keys value current = Ret config ->
  follow keys config = Ret value /\ truthy config = true.
Proof.
  induction keys as [|key rest IH]; [congruence|]. intros _ current config.
  cbn [assign]. destruct rest as [|key' rest].
  - destruct current; try discriminate. intros [= <-]. cbn [follow].
    rewrite lookup_store. split; [reflexivity | apply store_truthy].
  - destruct current; try discriminate.
    destruct (assign (key' :: rest) value _) as [child|e] eqn:E; [|discriminate].
    intros [= <-]. split; [|apply store_truthy].
    change (follow (key :: key' :: rest) (YDict (store key child d)))
      with (follow (key' :: rest) (default (YDict []) (lookup key (store key child d)))).
    rewrite lookup_store. cbn [default from_option id].
    apply (IH ltac:(discriminate) _ _ E).
Qed.

Lemma load_saved files user_id platform config files' :
  _save_user_config write_error files user_id config platform = Ret files' ->
  _load_user_config files' user_id platform = if truthy config then config else YDict [].
Proof.
  unfold _save_user_config, _load_user_config.
  destruct (write_error _); [discriminate|]. intros [= <-].
  rewrite (lookup_insert_eq (files : gmap string file)). reflexivity.
Qed.

Lemma split_nonempty sep s : PyStr.split sep s <> [].
Proof. apply split_go_nonempty. Qed.

(** X18. A value stored with [set_user_config] is the value [get_user_value]
    reads under the same path, but for the empty mapping, which reads as
    the default. *)
Theorem set_user_config_then_get_user_value (files files' : fs)
    (user_id path platform : string) (value dflt : yaml) :
  set_user_config write_error files user_id path value platform = Ret files' ->
  get_user_value files' user_id path platform dflt
  = if is_empty_dict value then dflt else value.
Proof.
  unfold set_user_config, get_user_value.
  destruct (assign _ value _) as [config|e] eqn:E; [|discriminate]. intros Hs.
  destruct (follow_assign _ _ (split_nonempty "." path) _ _ E) as [Hf Ht].
  rewrite (load_saved _ _ _ _ _ Hs), Ht, Hf. reflexivity.
Qed.

(** Following a path into the empty mapping. *)
Lemma follow_empty keys : follow keys (YDict []) = Ret (YDict []).
Proof. induction keys as [|k keys IH]; [reflexivity | exact IH]. Qed.

Lemma unreachable_empty keys : unreachable keys (YDict []).
Proof. unfold unreachable. rewrite follow_empty. reflexivity. Qed.

Lemma unset_unreachable keys : keys <> [] -> forall current,
  match unset keys current with
  | Ret (Some config) => unreachable keys config
  | Ret None => unreachable keys current
  | Raise _ => True
  end.
Proof.
  induction keys as [|key rest IH]; [congruence|]. intros _ current.
  cbn [unset]. destruct rest as [|key' rest].
  - destruct current; cbn [py_in]; try exact I.
    + destruct (PyStr.contains key s); exact I.
    + destruct (existsb _ l); exact I.
    + destruct (lookup key d) eqn:L.
      * unfold unreachable. cbn [follow]. rewrite lookup_remove. reflexivity.
      * unfold unreachable. cbn [follow]. rewrite L. reflexivity.
  - destruct current; cbn [py_in]; try exact I.
    + destruct (PyStr.contains key s); exact I.
    + destruct (existsb _ l); exact I.
    + destruct (lookup key d) as [child|] eqn:L.
      * specialize (IH ltac:(discriminate) child).
        destruct (unset (key' :: rest) child) as [[child'|]|e]; [| |exact I].
        -- unfold unreachable.
           change (follow (key :: key' :: rest) (YDict (store key child' d)))
             with (follow (key' :: rest) (default (YDict []) (lookup key (store key child' d)))).
           rewrite lookup_store. exact IH.
        -- unfold unreachable.
           change (follow (key :: key' :: rest) (YDict d))
             with (follow (key' :: rest) (default (YDict []) (lookup key d))).
           rewrite L. exact IH.
      * unfold unreachable.
        change (follow (key :: key' :: rest) (YDict d))
          with (follow (key' :: rest) (default (YDict []) (lookup key d))).
        rewrite L. apply unreachable_empty.
Qed.

Lemma unreachable_default keys config dflt :
  unreachable keys (if truthy config then config else YDict []) ->
  match follow keys (if truthy config then config else YDict []) with
  | Ret value => if is_empty_dict value then dflt else value
  | Raise _ => dflt
  end = dflt.
Proof.
  unfold unreachable. destruct (follow keys _) as [v|e]; [|reflexivity].
  intros ->. reflexivity.
Qed.

Lemma unreachable_or_empty keys config :
  unreachable keys config -> unreachable keys (if truthy config then config else YDict []).
Proof. destruct (truthy config); [tauto | intros _; apply unreachable_empty]. Qed.

Lemma load_normal files user_id platform :
  (if truthy (_load_user_config files user_id platform)
   then _load_user_config files user_id platform else YDict [])
  = _load_user_config files user_id platform.
Proof.
  unfold _load_user_config. destruct (files !! _) as [[v|]|]; try reflexivity.
  destruct (truthy v) eqn:E; [rewrite E|]; reflexivity.
Qed.

(** X19. After a [delete_user_config] that did not raise, [get_user_value]
    gives the default under that path, whether the path was there or
    not. *)
Theorem delete_user_config_then_get_user_value (files files' : fs)
    (user_id path platform : string) (dflt : yaml) :
  delete_user_config write_error files user_id path platform = Ret files' ->
  get_user_value files' user_id path platform dflt = dflt.
Proof.
  unfold delete_user_config, get_user_value.
  pose proof (unset_unreachable _ (split_nonempty "." path)
                (_load_user_config files user_id platform)) as H.
  destruct (unset _ _) as [[config|]|e]; [| |discriminate].
  - intros Hs. rewrite (load_saved _ _ _ _ _ Hs).
    apply unreachable_default, unreachable_or_empty, H.
  - intros [= <-]. rewrite <- load_normal.
    apply unreachable_default, unreachable_or_empty, H.
Qed.

(** X20. [get_service] gives a service exactly for the name [dida365] and a
    user whose configuration holds a truthy [dida.token.access_token]; for
    every other name it gives [None]. *)
Theorem get_service_needs_an_access_token (files : fs) (service_name user_id : string) :
  get_service files service_name user_id
  = String.eqb service_name "dida365"
    && truthy (get_user_value files user_id "dida.token.access_token" "tg" YNone).
Proof.
  unfold get_service. destruct (String.eqb service_name "dida365"); [|reflexivity].
  cbn [andb]. unfold get_user_value.
  change (PyStr.split "." "dida.token") with ["dida"; "token"].
  change (PyStr.split "." "dida.token.access_token") with ["dida"; "token"; "access_token"].
  generalize (_load_user_config files user_id "tg"). intros config.
  destruct config as [| | | | |d]; try reflexivity.
  cbn [follow]. destruct (default (YDict []) (lookup "dida" d)) as [| | | | |d1]; try reflexivity.
  destruct (default (YDict []) (lookup "token" d1)) as [|b|z|s|l|d2] eqn:E2; cbn -[lookup].
  - reflexivity.
  - destruct b; reflexivity.
  - destruct (z =? 0); reflexivity.
  - destruct (String.eqb s ""); reflexivity.
  - destruct l; reflexivity.
  - destruct d2 as [|kv d2]; [reflexivity|].
    destruct (lookup "access_token" (kv :: d2)) as [a|]; [|reflexivity].
    destruct a as [| | | | |[|]]; reflexivity.
Qed.

End ConfigProperties.

Lemma set_user_config_then_get_user_value_witness :
  ConfigManager.get_user_value
    (<[ConfigManager._get_user_config_file "7" "tg" :=
         ConfigManager.Parsed
           (ConfigManager.YDict
              [("dida", ConfigManager.YDict
                          [("token", ConfigManager.YDict
                                       [("access_token", ConfigManager.YStr "abc")])])])]> ∅)
    "7" "dida.token.access_token" "tg" ConfigManager.YNone
  = ConfigManager.YStr "abc".
Proof.
  apply (set_user_config_then_get_user_value Cases.writable ∅ _ "7"
           "dida.token.access_token" "tg" (ConfigManager.YStr "abc") ConfigManager.YNone).
  reflexivity.
Defined.

Lemma delete_user_config_then_get_user_value_witness :
  ConfigManager.get_user_value
    (<[ConfigManager._get_user_config_file "7" "tg" :=
         ConfigManager.Parsed
           (ConfigManager.YDict
              [("dida", ConfigManager.YDict [("token", ConfigManager.YDict [])])])]>
       (<[ConfigManager._get_user_config_file "7" "tg" :=
            ConfigManager.Parsed
              (ConfigManager.YDict
                 [("dida", ConfigManager.YDict
                             [("token", ConfigManager.YDict
                                          [("access_token", ConfigManager.YStr "abc")])])])]> ∅))
    "7" "dida.token.access_token" "tg" ConfigManager.YNone
  = ConfigManager.YNone.
Proof.
  apply (delete_user_config_then_get_user_value Cases.writable
           (<[ConfigManager._get_user_config_file "7" "tg" :=
                ConfigManager.Parsed
                  (ConfigManager.YDict
                     [("dida", ConfigManager.YDict
                                 [("token", ConfigManager.YDict
                                              [("access_token", ConfigManager.YStr "abc")])])])]> ∅)
           _ "7" "dida.token.access_token" "tg" ConfigManager.YNone).
  vm_compute. reflexivity.
Defined.

(* ===================================================================== *)
(** ** DidaService *)
(* ===================================================================== *)

(** X21. The service that [get_service] has just built finds the client of a
    user exactly when [get_service] gives a service for that user and the
    access token is a text or a list: any other truthy token (a number,
    [true], a mapping) passes [get_service] and then makes [_get_api], and
    with it every [add_task], raise. *)
Theorem get_api_needs_a_sliceable_token (files : ConfigManager.fs) (user_id : string) :
  (exists r, DidaService._get_api files ∅ user_id = Ret r) <->
  ConfigManager.get_service files "dida365" user_id = true /\
  DidaService.sliceable
    (ConfigManager.get_user_value files user_id "dida.token.access_token" "tg"
       ConfigManager.YNone) = true.
Proof.
  unfold DidaService._get_api, DidaService._get_api_try, ConfigManager.get_service.
  rewrite lookup_empty. cbn [String.eqb Ascii.eqb Bool.eqb].
  change (("dida365" =? "dida365")%string) with true. cbv iota.
  unfold ConfigManager.get_user_value.
  change (PyStr.split "." "dida.token") with ["dida"; "token"].
  change (PyStr.split "." "dida.token.access_token") with ["dida"; "token"; "access_token"].
  generalize (ConfigManager._load_user_config files user_id "tg"). intros config.
  assert (Hno : forall (A : Type) (e : string) (P : Prop),
             (exists r : A, @Raise A e = Ret r) <-> false = true /\ P).
  { intros A e P. split; [intros [r H]; discriminate | intros [H _]; discriminate]. }
  destruct config as [| | | | |d]; try (apply Hno).
  cbn [ConfigManager.follow].
  destruct (default (ConfigManager.YDict []) (ConfigManager.lookup "dida" d))
    as [| | | | |d1]; try (apply Hno).
  destruct (default (ConfigManager.YDict []) (ConfigManager.lookup "token" d1))
    as [|b|z|s|l|d2] eqn:E2; cbn -[ConfigManager.lookup].
  - apply Hno.
  - destruct b; apply Hno.
  - destruct (z =? 0); apply Hno.
  - destruct (String.eqb s ""); apply Hno.
  - destruct l; apply Hno.
  - destruct d2 as [|kv d2]; [apply Hno|].
    destruct (ConfigManager.lookup "access_token" (kv :: d2)) as [a|]; [|apply Hno].
    destruct a as [|b|z|s|l|[|kv' d3]]; cbn.
    + apply Hno.
    + destruct b; cbn; split; try (intros [r H]; discriminate); intros [_ H]; discriminate.
    + destruct (z =? 0); cbn; split; try (intros [r H]; discriminate);
        intros [H1 H2]; discriminate.
    + destruct (String.eqb s ""); cbn; split; try (intros [r H]; discriminate);
        try (intros [H1 H2]; discriminate); eauto.
    + destruct l; cbn; split; try (intros [r H]; discriminate);
        try (intros [H1 H2]; discriminate); eauto.
    + apply Hno.
    + split; [intros [r H]; discriminate | intros [_ H]; discriminate].
Qed.
